(** * ARG-STATS: statistics aggregation, prediction and ingestion

  A shallow embedding of the three Python sources of the repository
  ([db_manager.py], [api.py], [app.py]) together with the properties of
  the specification that were checked against it.

  - [Py]        : the fragment of Python's number and string semantics the
                  code relies on (true division, [int()], [round(x, 2)],
                  [str()], truthiness).
  - [Schema]    : the four tables of [db_manager.initialize_database].
  - [Sql]       : the handful of SQL forms the queries use.
  - [Ranking]   : [get_team_stats_core], [get_rankings_from_stats],
                  [get_referee_rankings] of [app.py].
  - [Prediction]: [get_prediction_logic] of [app.py].
  - [Ingest]    : [adjust_utc_to_arg], [convert_round_to_number] and
                  [load_match_directly] of [api.py].

  Definitions come first, the lemmas and theorems follow.

  Modelling notes.
  - Numbers.  Python [int] is [Z]; Python [float] is Rocq's primitive
    binary64 float, so [x / 58 * 100] and [int(...)] are computed as
    Python computes them.  [ZeroDivisionError] and the other exceptions
    the code can reach are [None].
  - Tables.  A table is the list of its rows in rowid order.  Where SQL
    leaves the order of equal rows open, the model keeps them in the
    order SQLite produces: over the scan of a table [ORDER BY ... DESC]
    keeps equal rows in rowid order; over a grouped query the groups are
    formed by ascending key and [ORDER BY ... DESC] returns equal groups
    by descending key.
  - Spliced ids.  The windowed queries of [get_team_stats_core] write the
    match ids into the statement instead of binding them.  The model
    follows them for ids without apostrophe and NUL character, where the
    written list reads back as the ids ([Sql.plain], [Ranking.spliced]).
  - Dates.  [strftime] writes the year without leading zeros, as the C
    library does, so a stored date has a four-digit year from year 1000
    on.
  - Payload.  The JSON answer of [matchDetails] is a record of the fields
    the code reads, with [option] for what may be missing; a payload
    whose sections are not objects or lists is outside the model.
  - Effects.  [load_match_directly] runs in a small state-and-exception
    monad over the database; logging is left out. *)

From Stdlib Require Import ZArith List Lia Bool String Ascii.
From Stdlib Require Import Sorting.Permutation Sorting.Sorted.
From Stdlib Require Import Uint63 PrimFloat SpecFloat FloatOps.
From stdpp Require Import base option gmap strings pretty.

Import ListNotations.
Local Open Scope string_scope.
Local Open Scope Z_scope.

(* ===================================================================== *)
(** * Python values and numbers *)
(* ===================================================================== *)

Module Py.

(** A loosely typed JSON scalar as Python sees it after [json()]. *)
Inductive pyval :=
  | PNone
  | PBool (b : bool)
  | PInt (z : Z)
  | PStr (s : string).

(** A JSON number that is only stored, never inspected by the code. *)
Inductive pynum :=
  | NInt (z : Z)
  | NFloat (f : float).

(** [str(x)]. *)
Definition str (x : pyval) : string :=
  match x with
  | PNone => "None"
  | PBool true => "True"
  | PBool false => "False"
  | PInt z => pretty z
  | PStr s => s
  end.

(** Truthiness of a scalar, as in [if x:]. *)
Definition truthy (x : pyval) : bool :=
  match x with
  | PNone => false
  | PBool b => b
  | PInt z => negb (z =? 0)
  | PStr s => negb (String.eqb s "")
  end.

(** Truthiness of an optional string ([None] and [''] are falsy). *)
Definition truthy_str (x : option string) : bool :=
  match x with
  | None => false
  | Some s => negb (String.eqb s "")
  end.

(** ** Floats

    Python's [float] is IEEE-754 binary64, which is what Rocq's primitive
    floats are.  An [int] operand of [/] or [*] is first converted; the
    conversion below is exact for [|z| < 2^53], far beyond any count or
    rank the programme handles. *)
Definition float_of_int (z : Z) : float :=
  match z with
  | Z0 => PrimFloat.zero
  | Zpos _ => PrimFloat.of_uint63 (Uint63.of_Z z)
  | Zneg p => PrimFloat.opp (PrimFloat.of_uint63 (Uint63.of_Z (Zpos p)))
  end.

(** [a / b] on two ints: [ZeroDivisionError] is [None]. *)
Definition truediv (a b : Z) : option float :=
  if b =? 0 then None
  else Some (PrimFloat.div (float_of_int a) (float_of_int b)).

(** [x * n] with [x] a float and [n] an int. *)
Definition mul_int (x : float) (n : Z) : float :=
  PrimFloat.mul x (float_of_int n).

(** [int(x)] on a float: truncation toward zero; [nan] and the
    infinities raise ([None]). *)
Definition int_of_float (x : float) : option Z :=
  match Prim2SF x with
  | S754_zero _ => Some 0
  | S754_finite s m e =>
      let mag := match e with
                 | Z0 => Zpos m
                 | Zpos _ => Z.shiftl (Zpos m) e
                 | Zneg k => Z.shiftr (Zpos m) (Zpos k)
                 end in
      Some (if s then - mag else mag)
  | S754_infinity _ => None
  | S754_nan => None
  end.

(** Nearest integer to [n / d] ([d > 0]), ties to the even one. *)
Definition round_half_even_div (n d : Z) : Z :=
  let q := n / d in
  let r := n mod d in
  if 2 * r <? d then q
  else if d <? 2 * r then q + 1
  else if Z.even q then q else q + 1.

(** [round(x, 2)] on a float: the binary value is rounded correctly to
    two decimals (ties, which only occur for exactly representable
    values, go to even) and the decimal is converted back to the nearest
    float. *)
Definition round2 (x : float) : float :=
  match Prim2SF x with
  | S754_finite s m e =>
      let k := match e with
               | Z0 => Zpos m * 100
               | Zpos _ => Z.shiftl (Zpos m) e * 100
               | Zneg p => round_half_even_div (Zpos m * 100) (Z.pow 2 (Zpos p))
               end in
      PrimFloat.div (float_of_int (if s then - k else k)) (float_of_int 100)
  | _ => x
  end.

(** [int(a / b * 100)], the shape of every score in the predictor. *)
Definition percent_int (a b : Z) : option Z :=
  match truediv a b with
  | None => None
  | Some q => int_of_float (mul_int q 100)
  end.

(** Numeric order between stored numbers (an [int] compares with a
    [float] by value). *)
Definition num_to_float (x : pynum) : float :=
  match x with
  | NInt z => float_of_int z
  | NFloat f => f
  end.

Definition num_ltb (x y : pynum) : bool :=
  match x, y with
  | NInt a, NInt b => a <? b
  | _, _ => PrimFloat.ltb (num_to_float x) (num_to_float y)
  end.

End Py.

(* ===================================================================== *)
(** * The event store ([db_manager.py]) *)
(* ===================================================================== *)

Module Schema.

(** Table [matches]; [id] is the primary key. *)
Record MatchRow := {
    m_id : string;
    m_date : option string;
    m_finished : bool;
    m_tournament : string;
    m_gameweek : string;
    m_home_team : option string;
    m_id_home_team : string;
    m_away_team : option string;
    m_id_away_team : string;
    m_score : option string;
    m_referee : option string
  }.

(** Table [player_match_details]; primary key [(match_id, player_id)]. *)
Record PlayerRow := {
    p_match_id : string;
    p_player_id : string;
    p_team_id : string;
    p_player_name : option string;
    p_position : string;
    p_shirt_number : Py.pyval;
    p_is_starter : bool;
    p_minutes_played : Z;
    p_rating : option Py.pynum;
    p_role_x : option Py.pynum;
    p_role_y : option Py.pynum;
    p_fouls_committed : Z;
    p_fouls_received : Z
  }.

(** Table [shots]; [shot_id] is [INTEGER PRIMARY KEY AUTOINCREMENT]. *)
Record ShotRow := {
    s_shot_id : Z;
    s_match_id : string;
    s_player_id : string;
    s_player_name : option string;
    s_team_id : string;
    s_minute : string;
    s_on_target : option bool;
    s_shot_type : option string;
    s_situation : option string;
    s_outcome : option string;
    s_inside_box : option bool
  }.

(** Table [cards]; [card_id] is [INTEGER PRIMARY KEY AUTOINCREMENT]. *)
Record CardRow := {
    c_card_id : Z;
    c_match_id : string;
    c_player_id : string;
    c_player_name : option string;
    c_team_id : string;
    c_card_type : string;
    c_minute : string
  }.

(** The database: each table in rowid order, and the two
    autoincrement counters (largest id handed out so far). *)
Record DB := {
    matches : list MatchRow;
    player_match_details : list PlayerRow;
    shots : list ShotRow;
    cards : list CardRow;
    shot_seq : Z;
    card_seq : Z
  }.

Definition empty_db : DB :=
  {| matches := []; player_match_details := []; shots := []; cards := [];
     shot_seq := 0; card_seq := 0 |}.

End Schema.

(* ===================================================================== *)
(** * SQL forms used by the queries *)
(* ===================================================================== *)

Module Sql.

(** Stable insertion sort into descending order: [lt x y] says that [x]
    sorts strictly below [y].  Rows that compare equal keep their
    relative order, as Python's [list.sort(reverse=True)] guarantees and
    as SQLite does for [ORDER BY ... DESC] over the scan of a table,
    where ties come out in rowid order. *)
Fixpoint insert_desc {A} (lt : A -> A -> bool) (x : A) (l : list A) : list A :=
  match l with
  | [] => [x]
  | y :: l' => if lt x y then y :: insert_desc lt x l' else x :: y :: l'
  end.

Fixpoint sort_desc {A} (lt : A -> A -> bool) (l : list A) : list A :=
  match l with
  | [] => []
  | x :: l' => insert_desc lt x (sort_desc lt l')
  end.

(** [LIMIT n]: a negative [n] means no limit. *)
Definition limit {A} (n : Z) (l : list A) : list A :=
  if n <? 0 then l else firstn (Z.to_nat n) l.

(** First occurrences, in order ([SELECT DISTINCT] over a scan). *)
Fixpoint distinct {A} (eqb : A -> A -> bool) (l : list A) : list A :=
  match l with
  | [] => []
  | x :: l' => x :: List.filter (fun y => negb (eqb x y)) (distinct eqb l')
  end.

(** [COUNT(DISTINCT col)] over text values. *)
Definition count_distinct (l : list string) : Z :=
  Z.of_nat (length (distinct String.eqb l)).

(** [SUM(col)] over integers of a non-empty group, [COUNT(...)]. *)
Definition sum (l : list Z) : Z := fold_right Z.add 0 l.
Definition count {A} (l : list A) : Z := Z.of_nat (length l).

(** Text order of the BINARY collation, [NULL] below every text. *)
Definition text_ltb (a b : string) : bool :=
  match String.compare a b with Lt => true | _ => false end.

Definition opt_text_ltb (a b : option string) : bool :=
  match a, b with
  | None, None => false
  | None, Some _ => true
  | Some _, None => false
  | Some x, Some y => text_ltb x y
  end.

Definition opt_text_eqb (a b : option string) : bool :=
  match a, b with
  | None, None => true
  | Some x, Some y => String.eqb x y
  | _, _ => false
  end.

(** Integer order with [NULL] below every integer. *)
Definition opt_int_ltb (a b : option Z) : bool :=
  match a, b with
  | None, None => false
  | None, Some _ => true
  | Some _, None => false
  | Some x, Some y => x <? y
  end.

(** [GROUP BY key]: one group per distinct key.  SQLite groups through
    its sorter, so the groups are formed in ascending key order, [NULL]
    first; every grouped query below re-orders them by an aggregate,
    with [order_groups_desc]. *)
Definition group_by {A} (key : A -> option string) (rows : list A)
  : list (option string * list A) :=
  let keys := sort_desc (fun a b => opt_text_ltb b a)
                        (distinct opt_text_eqb (map key rows)) in
  map (fun k => (k, List.filter (fun r => opt_text_eqb (key r) k) rows)) keys.

(** [ORDER BY x DESC] over the rows of a grouped query.  The groups reach
    the sorter in ascending key order and SQLite returns those with equal
    [x] in the reverse of that order, the greatest key first: for three
    teams A, B and C with the same total the rows come out C, B, A. *)
Definition order_groups_desc {A} (lt : A -> A -> bool) (l : list A) : list A :=
  sort_desc lt (rev l).

(** [a JOIN b ON on]. *)
Definition join {A B} (on : A -> B -> bool) (a : list A) (b : list B)
  : list (A * B) :=
  flat_map (fun x => map (fun y => (x, y)) (List.filter (on x) b)) a.

(** [a LEFT JOIN b ON on]: an unmatched left row is kept once. *)
Definition left_join {A B} (on : A -> B -> bool) (a : list A) (b : list B)
  : list (A * option B) :=
  flat_map (fun x => match List.filter (on x) b with
                     | [] => [(x, None)]
                     | ys => map (fun y => (x, Some y)) ys
                     end) a.

(** [col IN (v1, ..., vn)] over text. *)
Definition text_in (x : string) (l : list string) : bool :=
  existsb (String.eqb x) l.

(** A text that holds neither an apostrophe nor a NUL character.  Written
    between two apostrophes inside the text of a statement, such a value
    is one string literal whose value is the text itself. *)
Fixpoint plain (s : string) : bool :=
  match s with
  | EmptyString => true
  | String c s' =>
      negb (Ascii.eqb c "'"%char) && negb (Ascii.eqb c "000"%char) && plain s'
  end.

End Sql.

(* ===================================================================== *)
(** * Ranking engine ([app.py]) *)
(* ===================================================================== *)

Module Ranking.
Import Schema.

(** One dictionary of the lists [get_team_stats_core] returns. *)
Record Entry := {
    e_id : string;
    e_name : option string;
    e_total : Z;
    e_pj : Z;
    e_avg : Py.pynum
  }.

(** ** [teams_map]

    [{str(r['id']): r['name'] for r in SELECT DISTINCT id_home_team,
    home_team FROM matches}]: a Python dict keeps the position of the
    first insertion of a key and the value of the last one. *)
Fixpoint dict_set (k : string) (v : option string)
         (d : list (string * option string)) : list (string * option string) :=
  match d with
  | [] => [(k, v)]
  | (k', v') :: d' =>
      if String.eqb k k' then (k', v) :: d' else (k', v') :: dict_set k v d'
  end.

Fixpoint dict_get (k : string) (d : list (string * option string))
  : option (option string) :=
  match d with
  | [] => None
  | (k', v) :: d' => if String.eqb k k' then Some v else dict_get k d'
  end.

Definition pair_eqb (a b : string * option string) : bool :=
  String.eqb (fst a) (fst b) && Sql.opt_text_eqb (snd a) (snd b).

Definition teams_map (db : DB) : list (string * option string) :=
  fold_left (fun d r => dict_set (fst r) (snd r) d)
            (Sql.distinct pair_eqb
               (map (fun m => (m_id_home_team m, m_home_team m)) (matches db)))
            [].

(** [teams_map.get(tid, "N/A")]. *)
Definition team_name (tm : list (string * option string)) (tid : string)
  : option string :=
  match dict_get tid tm with
  | Some v => v
  | None => Some "N/A"
  end.

(** ** Category filters *)

(** [where_f] of the shots category. *)
Definition shot_where (filter_type : string) (s : ShotRow) : bool :=
  if String.eqb filter_type "target" then
    match s_on_target s with Some true => true | _ => false end
  else if String.eqb filter_type "long" then
    match s_inside_box s with Some false => true | _ => false end
  else true.

Definition is_header (s : ShotRow) : bool :=
  Sql.opt_text_eqb (s_shot_type s) (Some "Header").

(** [CASE WHEN e.team_id = m.id_home_team THEN m.id_away_team
    ELSE m.id_home_team END]. *)
Definition other_side (team_id : string) (m : MatchRow) : string :=
  if String.eqb team_id (m_id_home_team m) then m_id_away_team m
  else m_id_home_team m.

Definition shot_match (s : ShotRow) (m : MatchRow) : bool :=
  String.eqb (s_match_id s) (m_id m).

Definition card_match (c : CardRow) (m : MatchRow) : bool :=
  String.eqb (c_match_id c) (m_id m).

(** ** The unlimited branch: one grouped query per direction *)

(** A result row [(rank_team, total, pj, avg)] of the grouped queries. *)
Definition StatRow : Type := option string * Z * Z * float.

Definition sql_avg (total pj : Z) : float :=
  PrimFloat.div (Py.float_of_int total) (Py.float_of_int pj).

(** [SELECT key, COUNT( * ), COUNT(DISTINCT match_id), avg ... GROUP BY key]. *)
Definition count_groups {A} (key : A -> option string) (mid : A -> string)
           (rows : list A) : list StatRow :=
  map (fun g => let total := Sql.count (snd g) in
                let pj := Sql.count_distinct (map mid (snd g)) in
                (fst g, total, pj, sql_avg total pj))
      (Sql.group_by key rows).

(** [SELECT key, SUM(col), COUNT(DISTINCT match_id), avg ... GROUP BY key]. *)
Definition sum_groups {A} (key : A -> option string) (mid : A -> string)
           (col : A -> Z) (rows : list A) : list StatRow :=
  map (fun g => let total := Sql.sum (map col (snd g)) in
                let pj := Sql.count_distinct (map mid (snd g)) in
                (fst g, total, pj, sql_avg total pj))
      (Sql.group_by key rows).

(** [ORDER BY {sort_metric} DESC]. *)
Definition stat_lt (order_by : string) (a b : StatRow) : bool :=
  match a, b with
  | (_, ta, _, va), (_, tb, _, vb) =>
      if String.eqb order_by "total" then ta <? tb else PrimFloat.ltb va vb
  end.

Definition order_stats (order_by : string) (rows : list StatRow) : list StatRow :=
  Sql.order_groups_desc (stat_lt order_by) rows.

(** [str(r[0])] of a possibly [NULL] text. *)
Definition str_opt (x : option string) : string :=
  match x with Some s => s | None => "None" end.

(** The inner [structure(data)]. *)
Definition structure (tm : list (string * option string)) (data : list StatRow)
  : list Entry :=
  map (fun r => match r with
                | (k, total, pj, avg) =>
                    {| e_id := str_opt k; e_name := team_name tm (str_opt k);
                       e_total := total; e_pj := pj;
                       e_avg := Py.NFloat (Py.round2 avg) |}
                end) data.

(** [made_q] and [against_q] of each category; an unknown category leaves
    both names unbound and the function raises ([None]). *)
Definition made_q (db : DB) (category filter_type order_by : string)
  : option (list StatRow) :=
  if String.eqb category "shots" then
    Some (order_stats order_by
            (count_groups (fun s => Some (s_team_id s)) s_match_id
               (List.filter (shot_where filter_type) (shots db))))
  else if String.eqb category "headers" then
    Some (order_stats order_by
            (count_groups (fun s => Some (s_team_id s)) s_match_id
               (List.filter is_header (shots db))))
  else if String.eqb category "cards" then
    Some (order_stats order_by
            (count_groups (fun c => Some (c_team_id c)) c_match_id (cards db)))
  else if String.eqb category "fouls" then
    Some (order_stats order_by
            (sum_groups (fun p => Some (p_team_id p)) p_match_id
               p_fouls_committed (player_match_details db)))
  else None.

Definition against_q (db : DB) (category filter_type order_by : string)
  : option (list StatRow) :=
  if String.eqb category "shots" then
    Some (order_stats order_by
            (count_groups (fun sm => Some (other_side (s_team_id (fst sm)) (snd sm)))
               (fun sm => s_match_id (fst sm))
               (List.filter (fun sm => shot_where filter_type (fst sm))
                  (Sql.join shot_match (shots db) (matches db)))))
  else if String.eqb category "headers" then
    Some (order_stats order_by
            (count_groups (fun sm => Some (other_side (s_team_id (fst sm)) (snd sm)))
               (fun sm => s_match_id (fst sm))
               (List.filter (fun sm => is_header (fst sm))
                  (Sql.join shot_match (shots db) (matches db)))))
  else if String.eqb category "cards" then
    Some (order_stats order_by
            (count_groups (fun cm => Some (other_side (c_team_id (fst cm)) (snd cm)))
               (fun cm => c_match_id (fst cm))
               (Sql.join card_match (cards db) (matches db))))
  else if String.eqb category "fouls" then
    Some (order_stats order_by
            (sum_groups (fun p => Some (p_team_id p)) p_match_id
               p_fouls_received (player_match_details db)))
  else None.

Definition sort_metric (order_by : string) : string :=
  if String.eqb order_by "total" then "total" else "avg".

Definition stats_unlimited (db : DB) (category filter_type order_by : string)
  : option (list Entry * list Entry) :=
  match made_q db category filter_type (sort_metric order_by),
        against_q db category filter_type (sort_metric order_by) with
  | Some res_made, Some res_against =>
      Some (structure (teams_map db) res_made,
            structure (teams_map db) res_against)
  | _, _ => None
  end.

(** ** The windowed branch: one pass per team *)

Definition plays (tid : string) (m : MatchRow) : bool :=
  String.eqb (m_id_home_team m) tid || String.eqb (m_id_away_team m) tid.

Definition date_lt (a b : MatchRow) : bool :=
  Sql.opt_text_ltb (m_date a) (m_date b).

(** [SELECT id FROM matches WHERE (id_home_team = ? OR id_away_team = ?)
    AND finished = 1 ORDER BY date DESC LIMIT ?]. *)
Definition last_matches (db : DB) (tid : string) (n : Z) : list string :=
  map m_id
      (Sql.limit n
         (Sql.sort_desc date_lt
            (List.filter (fun m => plays tid m && m_finished m) (matches db)))).

(** The windowed queries do not bind the match ids: they are written
    into the text of the statement,
    [ids_str = ",".join([f"'{m}'" for m in match_ids])] inside
    [match_id IN ({ids_str})].  When every id is plain the list reads
    back as the ids themselves and the test is membership in
    [match_ids].  Otherwise the text is no longer the statement written in
    the source: a NUL character or an unbalanced apostrophe makes
    [execute] raise, other ids change the [WHERE] clause.  That case is
    [None] below and is not followed further; nothing is concluded from
    it. *)
Definition spliced (match_ids : list string) : bool :=
  forallb Sql.plain match_ids.

(** [total_m]: events of the team itself inside [match_ids]. *)
Definition total_made (db : DB) (category filter_type tid : string)
           (match_ids : list string) : option Z :=
  if negb (spliced match_ids) then None
  else if String.eqb category "shots" then
    Some (Sql.count
            (List.filter (fun s => String.eqb (s_team_id s) tid
                                   && Sql.text_in (s_match_id s) match_ids
                                   && shot_where filter_type s) (shots db)))
  else if String.eqb category "headers" then
    Some (Sql.count
            (List.filter (fun s => String.eqb (s_team_id s) tid
                                   && is_header s
                                   && Sql.text_in (s_match_id s) match_ids) (shots db)))
  else if String.eqb category "cards" then
    Some (Sql.count
            (List.filter (fun c => String.eqb (c_team_id c) tid
                                   && Sql.text_in (c_match_id c) match_ids) (cards db)))
  else if String.eqb category "fouls" then
    (* SUM(...) is NULL over no rows; [or 0] turns it into 0 *)
    Some (Sql.sum
            (map p_fouls_committed
               (List.filter (fun p => String.eqb (p_team_id p) tid
                                      && Sql.text_in (p_match_id p) match_ids)
                  (player_match_details db))))
  else None.

(** [total_a]: events of the rival inside [match_ids]; for fouls, the
    fouls the team's own players received. *)
Definition total_against (db : DB) (category filter_type tid : string)
           (match_ids : list string) : option Z :=
  if negb (spliced match_ids) then None
  else if String.eqb category "shots" then
    Some (Sql.count
            (List.filter (fun sm => String.eqb (other_side (s_team_id (fst sm)) (snd sm)) tid
                                    && Sql.text_in (s_match_id (fst sm)) match_ids
                                    && shot_where filter_type (fst sm))
               (Sql.join shot_match (shots db) (matches db))))
  else if String.eqb category "headers" then
    Some (Sql.count
            (List.filter (fun sm => String.eqb (other_side (s_team_id (fst sm)) (snd sm)) tid
                                    && is_header (fst sm)
                                    && Sql.text_in (s_match_id (fst sm)) match_ids)
               (Sql.join shot_match (shots db) (matches db))))
  else if String.eqb category "cards" then
    Some (Sql.count
            (List.filter (fun cm => String.eqb (other_side (c_team_id (fst cm)) (snd cm)) tid
                                    && Sql.text_in (c_match_id (fst cm)) match_ids)
               (Sql.join card_match (cards db) (matches db))))
  else if String.eqb category "fouls" then
    Some (Sql.sum
            (map p_fouls_received
               (List.filter (fun p => String.eqb (p_team_id p) tid
                                      && Sql.text_in (p_match_id p) match_ids)
                  (player_match_details db))))
  else None.

(** [round(total / pj, 2) if pj > 0 else 0]. *)
Definition window_avg (total pj : Z) : option Py.pynum :=
  if pj >? 0 then
    match Py.truediv total pj with
    | Some q => Some (Py.NFloat (Py.round2 q))
    | None => None
    end
  else Some (Py.NInt 0).

Definition zero_entry (tm : list (string * option string)) (tid : string) : Entry :=
  {| e_id := tid; e_name := team_name tm tid;
     e_total := 0; e_pj := 0; e_avg := Py.NInt 0 |}.

(** The body of [for tid in team_ids]: the pair of dictionaries appended
    to [results_made] and [results_against], or [None] when it raises. *)
Definition team_window (db : DB) (category filter_type : string) (n : Z)
           (tm : list (string * option string)) (tid : string)
  : option (Entry * Entry) :=
  let match_ids := last_matches db tid n in
  let pj := Z.of_nat (length match_ids) in
  if pj =? 0 then Some (zero_entry tm tid, zero_entry tm tid)
  else
    match total_made db category filter_type tid match_ids,
          total_against db category filter_type tid match_ids with
    | Some total_m, Some total_a =>
        match window_avg total_m pj, window_avg total_a pj with
        | Some avg_m, Some avg_a =>
            Some ({| e_id := tid; e_name := team_name tm tid;
                     e_total := total_m; e_pj := pj; e_avg := avg_m |},
                  {| e_id := tid; e_name := team_name tm tid;
                     e_total := total_a; e_pj := pj; e_avg := avg_a |})
        | _, _ => None
        end
    | _, _ => None
    end.

Fixpoint window_loop (db : DB) (category filter_type : string) (n : Z)
         (tm : list (string * option string)) (team_ids : list string)
  : option (list Entry * list Entry) :=
  match team_ids with
  | [] => Some ([], [])
  | tid :: rest =>
      match team_window db category filter_type n tm tid with
      | None => None
      | Some (em, ea) =>
          match window_loop db category filter_type n tm rest with
          | None => None
          | Some (results_made, results_against) =>
              Some (em :: results_made, ea :: results_against)
          end
      end
  end.

(** [key] of the final [sort(key=key, reverse=True)]. *)
Definition entry_lt (order_by : string) (a b : Entry) : bool :=
  if String.eqb order_by "total" then e_total a <? e_total b
  else Py.num_ltb (e_avg a) (e_avg b).

Definition team_ids (db : DB) : list string := map fst (teams_map db).

Definition stats_windowed (db : DB) (category filter_type order_by : string)
           (n : Z) : option (list Entry * list Entry) :=
  match window_loop db category filter_type n (teams_map db) (team_ids db) with
  | None => None
  | Some (results_made, results_against) =>
      Some (Sql.sort_desc (entry_lt order_by) results_made,
            Sql.sort_desc (entry_lt order_by) results_against)
  end.

(** [if not limit]: [None] and [0] are falsy. *)
Definition limit_falsy (limit : option Z) : bool :=
  match limit with
  | None => true
  | Some n => n =? 0
  end.

(** [get_team_stats_core(category, filter_type, order_by, limit)]:
    [(made, against)], or [None] when the call raises. *)
Definition get_team_stats_core (db : DB) (category filter_type order_by : string)
           (limit : option Z) : option (list Entry * list Entry) :=
  if limit_falsy limit then stats_unlimited db category filter_type order_by
  else stats_windowed db category filter_type order_by (default 0 limit).

(** ** Rank dictionaries *)

(** [{k: i+1 for i, k in enumerate(keys)}], counting from [i]. *)
Fixpoint rank_dict_from (i : Z) (keys : list string) (acc : gmap string Z)
  : gmap string Z :=
  match keys with
  | [] => acc
  | k :: rest => rank_dict_from (i + 1) rest (<[k := i + 1]> acc)
  end.

Definition rank_dict (keys : list string) : gmap string Z :=
  rank_dict_from 0 keys ∅.

(** [get_rankings_from_stats(category, filter_type, order_by)]. *)
Definition get_rankings_from_stats (db : DB) (category filter_type order_by : string)
  : option (gmap string Z * gmap string Z) :=
  match get_team_stats_core db category filter_type order_by None with
  | None => None
  | Some (made_list, against_list) =>
      Some (rank_dict (map e_id made_list), rank_dict (map e_id against_list))
  end.

(** ** Referee rankings *)

Definition finished_matches (db : DB) : list MatchRow :=
  List.filter m_finished (matches db).

(** [SELECT m.referee, COUNT(c.card_id) ... LEFT JOIN cards ... WHERE
    m.finished = 1 GROUP BY m.referee ORDER BY total DESC]. *)
Definition ref_cards (db : DB) : list (option string * Z) :=
  Sql.order_groups_desc (fun a b => snd a <? snd b)
    (map (fun g => (fst g,
                    Sql.count (List.filter (fun mc => match snd mc with
                                                      | Some _ => true
                                                      | None => false
                                                      end) (snd g))))
         (Sql.group_by (fun mc => m_referee (fst mc))
            (Sql.left_join (fun m c => String.eqb (m_id m) (c_match_id c))
               (finished_matches db) (cards db)))).

(** [SUM] skips [NULL]s and is [NULL] when nothing is left. *)
Definition sum_nullable (l : list (option Z)) : option Z :=
  match omap id l with
  | [] => None
  | zs => Some (Sql.sum zs)
  end.

(** [SELECT m.referee, SUM(pmd.fouls_committed) ... LEFT JOIN
    player_match_details ... GROUP BY m.referee ORDER BY total DESC]. *)
Definition ref_fouls (db : DB) : list (option string * option Z) :=
  Sql.order_groups_desc (fun a b => Sql.opt_int_ltb (snd a) (snd b))
    (map (fun g => (fst g,
                    sum_nullable (map (fun mp => option_map p_fouls_committed (snd mp))
                                      (snd g))))
         (Sql.group_by (fun mp => m_referee (fst mp))
            (Sql.left_join (fun m p => String.eqb (m_id m) (p_match_id p))
               (finished_matches db) (player_match_details db)))).

(** [{r['referee']: i+1 for i, r in enumerate(rows)}].  The key of the
    [NULL] group is [None]; it takes a position but can never be looked
    up with a referee name, so it is left out of the map. *)
Fixpoint ref_dict_from (i : Z) (keys : list (option string)) (acc : gmap string Z)
  : gmap string Z :=
  match keys with
  | [] => acc
  | Some k :: rest => ref_dict_from (i + 1) rest (<[k := i + 1]> acc)
  | None :: rest => ref_dict_from (i + 1) rest acc
  end.

(** [get_referee_rankings()]: the cards and the fouls dictionary. *)
Definition get_referee_rankings (db : DB) : gmap string Z * gmap string Z :=
  (ref_dict_from 0 (map fst (ref_cards db)) ∅,
   ref_dict_from 0 (map fst (ref_fouls db)) ∅).

End Ranking.

(* ===================================================================== *)
(** * Prediction engine ([app.py]) *)
(* ===================================================================== *)

Module Prediction.
Import Schema.

(** The dictionary [get_prediction_logic] returns. *)
Record Result := {
    r_h : Z;
    r_v : Z;
    r_gen : Z;
    r_rm_h : Z;
    r_ra_h : Z;
    r_rm_v : Z;
    r_ra_v : Z;
    r_ref_rank : option Z
  }.

(** [category in ['cards', 'fouls']]. *)
Definition referee_sensitive (category : string) : bool :=
  String.eqb category "cards" || String.eqb category "fouls".

(** [not ref_ranks]: [None] and the empty dict are falsy. *)
Definition dict_falsy (d : option (gmap string Z)) : bool :=
  match d with
  | None => true
  | Some m => bool_decide (m = ∅)
  end.

(** The first two lines: the precomputed triple when the caller passes
    one, the rankings by total otherwise. *)
Definition fetch_ranks (db : DB) (category filter_type : string)
           (precalc_ranks : option (gmap string Z * gmap string Z * option (gmap string Z)))
  : option (gmap string Z * gmap string Z * option (gmap string Z)) :=
  match precalc_ranks with
  | Some t => Some t
  | None =>
      match Ranking.get_rankings_from_stats db category filter_type "total" with
      | Some (m_ranks, a_ranks) => Some (m_ranks, a_ranks, None)
      | None => None
      end
  end.

(** The referee dictionary in force inside the referee branch. *)
Definition referee_ranks (db : DB) (category : string)
           (ref_ranks : option (gmap string Z)) : gmap string Z :=
  if dict_falsy ref_ranks then
    let (rc, rf) := Ranking.get_referee_rankings db in
    if String.eqb category "cards" then rc else rf
  else default ∅ ref_ranks.

(** The divisor of the five-term combined score. *)
Definition gen_divisor : Z := 143.

(** Everything after the ranks are known. *)
Definition predict (db : DB) (home_id away_id category : string)
           (referee : option string)
           (m_ranks a_ranks : gmap string Z) (ref_ranks : option (gmap string Z))
  : option Result :=
  let rm_h := default 15 (m_ranks !! home_id) in
  let ra_h := default 15 (a_ranks !! home_id) in
  let rm_v := default 15 (m_ranks !! away_id) in
  let ra_v := default 15 (a_ranks !! away_id) in
  if Py.truthy_str referee && referee_sensitive category then
    let ref_val := default 15 (referee_ranks db category ref_ranks
                                 !! default "" referee) in
    match Py.percent_int ((30 - rm_h) + (30 - ra_v) + (30 - ref_val)) 87,
          Py.percent_int ((30 - rm_v) + (30 - ra_h) + (30 - ref_val)) 87,
          Py.percent_int ((30 - rm_h) + (30 - ra_h) + (30 - rm_v) + (30 - ra_v)
                          + (30 - ref_val)) gen_divisor with
    | Some h_s, Some v_s, Some gen =>
        Some {| r_h := h_s; r_v := v_s; r_gen := gen;
                r_rm_h := rm_h; r_ra_h := ra_h; r_rm_v := rm_v; r_ra_v := ra_v;
                r_ref_rank := Some ref_val |}
    | _, _, _ => None
    end
  else
    match Py.percent_int ((30 - rm_h) + (30 - ra_v)) 58,
          Py.percent_int ((30 - rm_v) + (30 - ra_h)) 58 with
    | Some h_s, Some v_s =>
        Some {| r_h := h_s; r_v := v_s; r_gen := (h_s + v_s) / 2;
                r_rm_h := rm_h; r_ra_h := ra_h; r_rm_v := rm_v; r_ra_v := ra_v;
                r_ref_rank := None |}
    | _, _ => None
    end.

(** [get_prediction_logic(home_id, away_id, category, filter_type,
    referee, precalc_ranks)]; [None] when the call raises. *)
Definition get_prediction_logic (db : DB) (home_id away_id category filter_type : string)
           (referee : option string)
           (precalc_ranks : option (gmap string Z * gmap string Z * option (gmap string Z)))
  : option Result :=
  match fetch_ranks db category filter_type precalc_ranks with
  | Some (m_ranks, a_ranks, ref_ranks) =>
      predict db home_id away_id category referee m_ranks a_ranks ref_ranks
  | None => None
  end.

End Prediction.

(* ===================================================================== *)
(** * [datetime]: the part of Python's library [adjust_utc_to_arg] uses *)
(* ===================================================================== *)

Module Datetime.

Record datetime := {
    year : Z;
    month : Z;
    day : Z;
    hour : Z;
    minute : Z;
    second : Z;
    microsecond : Z;
    (** [tzinfo]: the UTC offset in minutes of an aware value. *)
    tzinfo : option Z
  }.

Definition MAXORDINAL : Z := 3652059.

Definition is_leap (y : Z) : bool :=
  (y mod 4 =? 0) && (negb (y mod 100 =? 0) || (y mod 400 =? 0)).

(** [_DAYS_IN_MONTH] with the leap day added. *)
Definition days_in_month (y m : Z) : Z :=
  if m =? 2 then (if is_leap y then 29 else 28)
  else if (m =? 4) || (m =? 6) || (m =? 9) || (m =? 11) then 30
  else 31.

(** [_DAYS_BEFORE_MONTH]. *)
Definition DAYS_BEFORE_MONTH (m : Z) : Z :=
  nth (Z.to_nat m) [0; 0; 31; 59; 90; 120; 151; 181; 212; 243; 273; 304; 334] 0.

Definition DAYS_IN_MONTH (m : Z) : Z :=
  nth (Z.to_nat m) [0; 31; 28; 31; 30; 31; 30; 31; 31; 30; 31; 30; 31] 0.

Definition days_before_year (y : Z) : Z :=
  let y' := y - 1 in
  y' * 365 + y' / 4 - y' / 100 + y' / 400.

Definition days_before_month (y m : Z) : Z :=
  DAYS_BEFORE_MONTH m + (if (2 <? m) && is_leap y then 1 else 0).

(** [_ymd2ord]: 0001-01-01 is day 1. *)
Definition ymd2ord (y m d : Z) : Z :=
  days_before_year y + days_before_month y m + d.

(** The tail of [_ord2ymd]: month and day from the day [n] of the year,
    counted from 0. *)
Definition month_day (leapyear : bool) (n : Z) : Z * Z :=
  let m := Z.shiftr (n + 50) 5 in
  let preceding := DAYS_BEFORE_MONTH m + (if (2 <? m) && leapyear then 1 else 0) in
  if n <? preceding then
    let m := m - 1 in
    let preceding :=
      preceding - (DAYS_IN_MONTH m + (if (m =? 2) && leapyear then 1 else 0)) in
    (m, n - preceding + 1)
  else (m, n - preceding + 1).

(** [_ord2ymd], the inverse, by 400-, 100-, 4- and 1-year cycles. *)
Definition ord2ymd (n : Z) : Z * Z * Z :=
  let n := n - 1 in
  let n400 := n / 146097 in
  let n := n mod 146097 in
  let y := n400 * 400 + 1 in
  let n100 := n / 36524 in
  let n := n mod 36524 in
  let n4 := n / 1461 in
  let n := n mod 1461 in
  let n1 := n / 365 in
  let n := n mod 365 in
  let y := y + n100 * 100 + n4 * 4 + n1 in
  if (n1 =? 4) || (n100 =? 4) then (y - 1, 12, 31)
  else
    let leapyear := (n1 =? 3) && (negb (n4 =? 24) || (n100 =? 3)) in
    (y, fst (month_day leapyear n), snd (month_day leapyear n)).

(** The constructor's range checks. *)
Definition valid (dt : datetime) : Prop :=
  1 <= year dt <= 9999 /\ 1 <= month dt <= 12 /\
  1 <= day dt <= days_in_month (year dt) (month dt) /\
  0 <= hour dt < 24 /\ 0 <= minute dt < 60 /\ 0 <= second dt < 60 /\
  0 <= microsecond dt < 1000000.

Definition validb (dt : datetime) : bool :=
  (1 <=? year dt) && (year dt <=? 9999) && (1 <=? month dt) && (month dt <=? 12)
  && (1 <=? day dt) && (day dt <=? days_in_month (year dt) (month dt))
  && (0 <=? hour dt) && (hour dt <? 24) && (0 <=? minute dt) && (minute dt <? 60)
  && (0 <=? second dt) && (second dt <? 60)
  && (0 <=? microsecond dt) && (microsecond dt <? 1000000).

Definition toordinal (dt : datetime) : Z :=
  ymd2ord (year dt) (month dt) (day dt).

(** Seconds since midnight. *)
Definition time_of_day (dt : datetime) : Z :=
  hour dt * 3600 + minute dt * 60 + second dt.

(** Position on the wall-clock time line, in seconds. *)
Definition timeline (dt : datetime) : Z :=
  toordinal dt * 86400 + time_of_day dt.

(** [dt - timedelta(hours=h)]: the sum is formed as days and seconds and
    normalised; a day outside [1 .. MAXORDINAL] raises [OverflowError]
    ([None]).  Microseconds and [tzinfo] are carried over. *)
Definition sub_hours (dt : datetime) (h : Z) : option datetime :=
  let total := time_of_day dt - h * 3600 in
  let days := toordinal dt + total / 86400 in
  let secs := total mod 86400 in
  if (0 <? days) && (days <=? MAXORDINAL) then
    match ord2ymd days with
    | (y, m, d) =>
        Some {| year := y; month := m; day := d;
                hour := secs / 3600;
                minute := (secs mod 3600) / 60;
                second := (secs mod 3600) mod 60;
                microsecond := microsecond dt;
                tzinfo := tzinfo dt |}
    end
  else None.

(** ** Formatting *)

Definition digit (n : Z) : ascii :=
  ascii_of_nat (48 + Z.to_nat (n mod 10)).

Definition pad2 (n : Z) : string :=
  String (digit (n / 10)) (String (digit n) EmptyString).

Definition pad4 (n : Z) : string :=
  String (digit (n / 1000)) (String (digit (n / 100))
    (String (digit (n / 10)) (String (digit n) EmptyString))).

(** [%Y]: Python hands the format to the C library, which writes the
    year in decimal without leading zeros: [999], not [0999]. *)
Definition year_str (n : Z) : string :=
  if n <? 10 then String (digit n) EmptyString
  else if n <? 100 then pad2 n
  else if n <? 1000 then String (digit (n / 100)) (pad2 n)
  else pad4 n.

(** [dt.strftime("%Y-%m-%d %H:%M:%S")]: the other fields are padded to
    two digits. *)
Definition strftime (dt : datetime) : string :=
  year_str (year dt) ++ "-" ++ pad2 (month dt) ++ "-" ++ pad2 (day dt) ++ " "
  ++ pad2 (hour dt) ++ ":" ++ pad2 (minute dt) ++ ":" ++ pad2 (second dt).

(** ** Parsing

    [datetime.fromisoformat] accepts more spellings in recent Python
    versions than in older ones.  [fromisoformat] below is the core every
    version accepts:
    [YYYY-MM-DD?HH:MM:SS], then optionally [.fff] or [.ffffff], then
    optionally [+HH:MM] or [-HH:MM]; [?] is any one character.  The
    properties of [adjust_utc_to_arg] are stated for an arbitrary parser
    and instantiated with this one. *)

Definition digit_val (c : ascii) : option Z :=
  let n := Z.of_nat (nat_of_ascii c) in
  if (48 <=? n) && (n <=? 57) then Some (n - 48) else None.

Fixpoint digits_val (acc : Z) (l : list ascii) : option Z :=
  match l with
  | [] => Some acc
  | c :: l' =>
      match digit_val c with
      | Some d => digits_val (acc * 10 + d) l'
      | None => None
      end
  end.

Definition number (l : list ascii) : option Z :=
  match l with
  | [] => None
  | _ => digits_val 0 l
  end.

Definition is_char (c : ascii) (s : string) : bool :=
  String.eqb (String c EmptyString) s.

(** [+HH:MM] or [-HH:MM], or nothing. *)
Definition parse_tz (l : list ascii) : option (option Z) :=
  match l with
  | [] => Some None
  | [sg; h1; h2; c; m1; m2] =>
      if (is_char sg "+" || is_char sg "-") && is_char c ":" then
        match number [h1; h2], number [m1; m2] with
        | Some hh, Some mm =>
            if (hh <? 24) && (mm <? 60) then
              Some (Some (if is_char sg "-" then - (hh * 60 + mm) else hh * 60 + mm))
            else None
        | _, _ => None
        end
      else None
  | _ => None
  end.

(** [.fff] or [.ffffff] followed by the zone, or the zone alone. *)
Definition parse_fraction (l : list ascii) : option (Z * option Z) :=
  match l with
  | dot :: f1 :: f2 :: f3 :: rest =>
      if is_char dot "." then
        match rest with
        | f4 :: f5 :: f6 :: rest' =>
            match number [f1; f2; f3; f4; f5; f6] with
            | Some us =>
                match parse_tz rest' with
                | Some tz => Some (us, tz)
                | None => None
                end
            | None =>
                match number [f1; f2; f3], parse_tz rest with
                | Some ms, Some tz => Some (ms * 1000, tz)
                | _, _ => None
                end
            end
        | _ =>
            match number [f1; f2; f3], parse_tz rest with
            | Some ms, Some tz => Some (ms * 1000, tz)
            | _, _ => None
            end
        end
      else
        match parse_tz l with
        | Some tz => Some (0, tz)
        | None => None
        end
  | _ =>
      match parse_tz l with
      | Some tz => Some (0, tz)
      | None => None
      end
  end.

Definition fromisoformat (s : string) : option datetime :=
  match list_ascii_of_string s with
  | y1 :: y2 :: y3 :: y4 :: d1 :: m1 :: m2 :: d2 :: a1 :: a2 :: _sep
    :: h1 :: h2 :: c1 :: i1 :: i2 :: c2 :: s1 :: s2 :: rest =>
      if is_char d1 "-" && is_char d2 "-" && is_char c1 ":" && is_char c2 ":" then
        match number [y1; y2; y3; y4], number [m1; m2], number [a1; a2],
              number [h1; h2], number [i1; i2], number [s1; s2],
              parse_fraction rest with
        | Some y, Some m, Some d, Some hh, Some mi, Some ss, Some (us, tz) =>
            let dt := {| year := y; month := m; day := d; hour := hh;
                         minute := mi; second := ss; microsecond := us;
                         tzinfo := tz |} in
            if validb dt then Some dt else None
        | _, _, _, _, _, _, _ => None
        end
      else None
  | _ => None
  end.

End Datetime.

(* ===================================================================== *)
(** * Ingestion ([api.py]) *)
(* ===================================================================== *)

Module Ingest.
Import Schema.

(** ** Helpers *)

(** [utc_str.replace("Z", "+00:00")]. *)
Fixpoint replace_Z (s : string) : string :=
  match s with
  | EmptyString => EmptyString
  | String c s' =>
      if Datetime.is_char c "Z" then "+00:00" ++ replace_Z s'
      else String c (replace_Z s')
  end.

(** The [try] body of [adjust_utc_to_arg], for a given
    [datetime.fromisoformat]; [None] stands for any exception. *)
Definition adjust_try (parse : string -> option Datetime.datetime)
           (utc_str : string) : option string :=
  match parse (replace_Z utc_str) with
  | None => None
  | Some utc_dt =>
      match Datetime.sub_hours utc_dt 3 with
      | None => None
      | Some arg_dt => Some (Datetime.strftime arg_dt)
      end
  end.

(** [adjust_utc_to_arg] on a string: the bare [except] returns the
    argument. *)
Definition adjust_utc_to_arg_with (parse : string -> option Datetime.datetime)
           (utc_str : string) : string :=
  match adjust_try parse utc_str with
  | Some s => s
  | None => utc_str
  end.

Definition adjust_utc_to_arg_str : string -> string :=
  adjust_utc_to_arg_with Datetime.fromisoformat.

(** [adjust_utc_to_arg(general.get("matchTimeUTCDate"))]: on [None] the
    call of [.replace] raises and [None] comes back. *)
Definition adjust_utc_to_arg (utc_str : option string) : option string :=
  option_map adjust_utc_to_arg_str utc_str.

(** [convert_round_to_number]: [mapping.get(round_str, round_str)]. *)
Definition convert_round_to_number (round_str : Py.pyval) : Py.pyval :=
  match round_str with
  | Py.PStr s =>
      if String.eqb s "1/8" then Py.PInt 17
      else if String.eqb s "1/4" then Py.PInt 18
      else if String.eqb s "1/2" then Py.PInt 19
      else if String.eqb s "Semi-final" then Py.PInt 19
      else if String.eqb s "Final" then Py.PInt 20
      else round_str
  | _ => round_str
  end.

(** ** The payload of [matchDetails], as far as the code reads it

    A missing section reads as its default ([{}], [[]], [None]). *)

Record RawTeam := {
    team_id : Py.pyval;
    team_name : option string
  }.

(** One entry of a stat group: [key] and [stat.value] (absent: 0). *)
Record StatItem := {
    stat_key : option string;
    stat_value : option Z
  }.

Record RawPlayer := {
    pl_id : Py.pyval;
    pl_name : option string;
    pl_usualPlayingPositionId : option Z;
    pl_shirtNumber : Py.pyval;
    pl_rating : option Py.pynum;
    pl_layout_x : option Py.pynum;
    pl_layout_y : option Py.pynum
  }.

Record RawLineup := {
    lineup_id : Py.pyval;
    starters : list RawPlayer;
    subs : list RawPlayer
  }.

Record RawShot := {
    sh_playerId : Py.pyval;
    sh_playerName : option string;
    sh_teamId : Py.pyval;
    sh_min : Py.pyval;
    sh_isOnTarget : option bool;
    sh_isBlocked : option bool;
    sh_shotType : option string;
    sh_situation : option string;
    sh_eventType : option string;
    sh_isFromInsideBox : option bool
  }.

Record RawEvent := {
    ev_card : option string;
    (** [cardDescription]: [None] when absent or empty, else its
        [localizedKey]. *)
    ev_cardDescription : option (option string);
    ev_player_id : Py.pyval;
    ev_player_name : option string;
    ev_isHome : bool;
    ev_timeStr : Py.pyval
  }.

Record Payload := {
    matchTimeUTCDate : option string;
    leagueRoundName : Py.pyval;
    homeTeam : RawTeam;
    awayTeam : RawTeam;
    finished : bool;
    scoreStr : option string;
    leagueName : option string;
    referee_text : option string;
    lineup_homeTeam : RawLineup;
    lineup_awayTeam : RawLineup;
    playerStats : gmap string (list (list StatItem));
    shotmap_shots : list RawShot;
    events : list RawEvent
  }.

(** ** Effects: the connection, with exceptions

    A computation transforms the database and either returns or raises.
    What was committed before an exception stays. *)

Inductive outcome (A : Type) :=
  | Ok (a : A)
  | Raised (err : string).
Arguments Ok {A} a.
Arguments Raised {A} err.

Definition M (A : Type) : Type := DB -> DB * outcome A.

Definition ret {A} (a : A) : M A := fun db => (db, Ok a).

Definition bind {A B} (m : M A) (k : A -> M B) : M B :=
  fun db => match m db with
            | (db', Ok a) => k a db'
            | (db', Raised e) => (db', Raised e)
            end.

Notation "'do' m 'then' k" := (bind m (fun _ => k))
  (at level 10, m at level 100, k at level 200).

(** [INSERT OR REPLACE INTO matches]: a row with the same primary key is
    deleted, the new row is added at the end; committed at once. *)
Definition upsert_match (row : MatchRow) : M unit :=
  fun db =>
    ({| matches := List.filter (fun m => negb (String.eqb (m_id m) (m_id row)))
                               (matches db) ++ [row];
        player_match_details := player_match_details db;
        shots := shots db; cards := cards db;
        shot_seq := shot_seq db; card_seq := card_seq db |}, Ok tt).

Definition player_key_eqb (a b : PlayerRow) : bool :=
  String.eqb (p_match_id a) (p_match_id b)
  && String.eqb (p_player_id a) (p_player_id b).

(** The rows go in one by one; the first that repeats a primary key
    [(match_id, player_id)] fails. *)
Fixpoint insert_player_rows (rows : list PlayerRow) (table : list PlayerRow)
  : option (list PlayerRow) :=
  match rows with
  | [] => Some table
  | r :: rows' =>
      if existsb (player_key_eqb r) table then None
      else insert_player_rows rows' (table ++ [r])
  end.

(** [DataFrame(player_rows).to_sql("player_match_details", ...,
    if_exists="append")]: one transaction; on [IntegrityError] it is
    rolled back and the error is raised again. *)
Definition append_players (rows : list PlayerRow) : M unit :=
  fun db =>
    match insert_player_rows rows (player_match_details db) with
    | Some table =>
        ({| matches := matches db; player_match_details := table;
            shots := shots db; cards := cards db;
            shot_seq := shot_seq db; card_seq := card_seq db |}, Ok tt)
    | None => (db, Raised "UNIQUE constraint failed: player_match_details")
    end.

(** A shot or card row before the database has numbered it. *)
Definition number_shots (seq : Z) (rows : list (Z -> ShotRow)) : list ShotRow :=
  map (fun ir => snd ir (seq + 1 + Z.of_nat (fst ir)))
      (combine (List.seq 0 (length rows)) rows).

Definition number_cards (seq : Z) (rows : list (Z -> CardRow)) : list CardRow :=
  map (fun ir => snd ir (seq + 1 + Z.of_nat (fst ir)))
      (combine (List.seq 0 (length rows)) rows).

(** [to_sql("shots", ..., if_exists="append")]: [shot_id] is not among
    the columns, the table numbers the rows itself. *)
Definition append_shots (rows : list (Z -> ShotRow)) : M unit :=
  fun db =>
    ({| matches := matches db; player_match_details := player_match_details db;
        shots := shots db ++ number_shots (shot_seq db) rows;
        cards := cards db;
        shot_seq := shot_seq db + Z.of_nat (length rows);
        card_seq := card_seq db |}, Ok tt).

Definition append_cards (rows : list (Z -> CardRow)) : M unit :=
  fun db =>
    ({| matches := matches db; player_match_details := player_match_details db;
        shots := shots db;
        cards := cards db ++ number_cards (card_seq db) rows;
        shot_seq := shot_seq db;
        card_seq := card_seq db + Z.of_nat (length rows) |}, Ok tt).

(** ** Building the rows *)

Definition match_row (match_id : string) (r : Payload) : MatchRow :=
  {| m_id := match_id;
     m_date := adjust_utc_to_arg (matchTimeUTCDate r);
     m_finished := finished r;
     m_tournament := default "" (leagueName r);
     m_gameweek := Py.str (convert_round_to_number (leagueRoundName r));
     m_id_home_team := Py.str (team_id (homeTeam r));
     m_home_team := team_name (homeTeam r);
     m_id_away_team := Py.str (team_id (awayTeam r));
     m_away_team := team_name (awayTeam r);
     m_score := scoreStr r;
     m_referee := referee_text r |}.

(** [pos_map.get(p.get("usualPlayingPositionId"), "N/A")]. *)
Definition pos_map (pos : option Z) : string :=
  match pos with
  | Some 0 => "ARQ"
  | Some 1 => "DF"
  | Some 2 => "M"
  | Some 3 => "DL"
  | _ => "N/A"
  end.

(** The dict [all_stats] after the two nested loops: an item with a
    truthy key stores its value, a later one overwrites an earlier. *)
Definition all_stats (groups : list (list StatItem)) : gmap string Z :=
  fold_left (fun acc item =>
               if Py.truthy_str (stat_key item)
               then <[default "" (stat_key item) := default 0 (stat_value item)]> acc
               else acc)
            (concat groups) ∅.

Definition player_row (match_id team : string) (is_starter : bool)
           (stats : gmap string (list (list StatItem))) (p : RawPlayer) : PlayerRow :=
  let pid := Py.str (pl_id p) in
  let st := all_stats (default [] (stats !! pid)) in
  {| p_match_id := match_id; p_player_id := pid; p_team_id := team;
     p_player_name := pl_name p;
     p_position := pos_map (pl_usualPlayingPositionId p);
     p_shirt_number := pl_shirtNumber p;
     p_rating := Some (default (Py.NInt 0) (pl_rating p));
     p_role_x := pl_layout_y p;
     p_role_y := pl_layout_x p;
     p_is_starter := is_starter;
     p_minutes_played :=
       default (if is_starter then 90 else 0) (st !! "minutes_played");
     p_fouls_committed := default 0 (st !! "fouls");
     p_fouls_received := default 0 (st !! "was_fouled") |}.

(** [for section in ["starters", "subs"]] for one side. *)
Definition side_rows (match_id : string) (stats : gmap string (list (list StatItem)))
           (team_data : RawLineup) : list PlayerRow :=
  let team := Py.str (lineup_id team_data) in
  map (player_row match_id team true stats) (starters team_data)
  ++ map (player_row match_id team false stats) (subs team_data).

(** [for side in ["homeTeam", "awayTeam"]]. *)
Definition player_rows (match_id : string) (r : Payload) : list PlayerRow :=
  side_rows match_id (playerStats r) (lineup_homeTeam r)
  ++ side_rows match_id (playerStats r) (lineup_awayTeam r).

(** [s.get("isOnTarget") and not s.get("isBlocked")]. *)
Definition on_target (s : RawShot) : option bool :=
  match sh_isOnTarget s with
  | Some true => Some (negb (default false (sh_isBlocked s)))
  | other => other
  end.

Definition shot_row (match_id : string) (s : RawShot) (shot_id : Z) : ShotRow :=
  {| s_shot_id := shot_id; s_match_id := match_id;
     s_player_id := Py.str (sh_playerId s); s_player_name := sh_playerName s;
     s_team_id := Py.str (sh_teamId s); s_minute := Py.str (sh_min s);
     s_on_target := on_target s;
     s_shot_type := sh_shotType s; s_situation := sh_situation s;
     s_outcome := sh_eventType s; s_inside_box := sh_isFromInsideBox s |}.

Definition shot_rows (match_id : string) (r : Payload) : list (Z -> ShotRow) :=
  map (shot_row match_id) (shotmap_shots r).

(** The test guarding [card_rows.append]. *)
Definition is_card (ev : RawEvent) : bool :=
  Py.truthy_str (ev_card ev)
  && negb (match ev_cardDescription ev with
           | Some key => Sql.opt_text_eqb key (Some "not_on_pitch")
           | None => false
           end).

Definition card_row (match_id h_id_card a_id_card : string) (ev : RawEvent)
           (card_id : Z) : CardRow :=
  {| c_card_id := card_id; c_match_id := match_id;
     c_player_id := Py.str (ev_player_id ev); c_player_name := ev_player_name ev;
     c_team_id := if ev_isHome ev then h_id_card else a_id_card;
     c_card_type := default "" (ev_card ev);
     c_minute := Py.str (ev_timeStr ev) |}.

Definition card_rows (match_id : string) (r : Payload) : list (Z -> CardRow) :=
  map (card_row match_id (Py.str (team_id (homeTeam r)))
                (Py.str (team_id (awayTeam r))))
      (List.filter is_card (events r)).

Definition is_nil {A} (l : list A) : bool :=
  match l with [] => true | _ => false end.

(** ** [load_match_directly] *)

(** The [try] body once the response is in hand. *)
Definition load_body (match_id : string) (r : Payload) : M unit :=
  do upsert_match (match_row match_id r) then
  if negb (finished r) then ret tt
  else
    do (if is_nil (player_rows match_id r) then ret tt
        else append_players (player_rows match_id r)) then
    do (if is_nil (shot_rows match_id r) then ret tt
        else append_shots (shot_rows match_id r)) then
    (if is_nil (card_rows match_id r) then ret tt
     else append_cards (card_rows match_id r)).

(** [load_match_directly(match_id, connection)] for the response the
    request produced; [None] is an empty response or a failed request.
    The [except] clause logs and swallows the exception, so the effect
    is the database reached. *)
Definition load_match_directly (match_id : string) (response : option Payload)
           (db : DB) : DB :=
  match response with
  | None => db
  | Some r => fst (load_body match_id r db)
  end.

End Ingest.

(* ===================================================================== *)
(** * Team and referee pages ([app.py]) *)
(* ===================================================================== *)

Module Pages.
Import Schema Ranking.

(** ** [get_team_global_positions] *)

(** One side of an entry of [detailed_ranks]; [pos = None] stands for
    ["N/A"]. *)
Record SideStat := {
    label : string;
    pos : option Z;
    total : Z;
    pj : Z
  }.

Record PairStat := {
    made : SideStat;
    against : SideStat
  }.

(** [(cat, filt, label_m, label_a)]. *)
Definition categories : list (string * string * string * string) :=
  [("shots", "all", "Tiros", "Tiros Recibidos");
   ("shots", "target", "Tiros(arco)", "Tiros(arco) Recibidos");
   ("shots", "long", "Tiros(lejos)", "Tiros(lejos) Recibidos");
   ("headers", "all", "Cabezazos", "Cabezazos Recibidos");
   ("cards", "all", "Tarjetas", "Tarjetas Generadas");
   ("fouls", "all", "Faltas", "Faltas Recibidas")].

(** [next(((i + 1, t) for i, t in enumerate(l) if t['id'] == tid),
    (None, None))], with [enumerate] counting from [i]. *)
Fixpoint find_stat (i : Z) (l : list Entry) (tid : string) : option (Z * Entry) :=
  match l with
  | [] => None
  | t :: l' =>
      if String.eqb (e_id t) tid then Some (i + 1, t) else find_stat (i + 1) l' tid
  end.

(** [{"label": ..., "pos": stat[0] or "N/A", "total": stat[1]['total'] if
    stat[1] else 0, "pj": stat[1]['pj'] if stat[1] else 0}]; an entry
    dictionary is never empty, hence truthy. *)
Definition side_stat (lbl : string) (stat : option (Z * Entry)) : SideStat :=
  match stat with
  | Some (p, t) =>
      {| label := lbl; pos := if p =? 0 then None else Some p;
         total := e_total t; pj := e_pj t |}
  | None => {| label := lbl; pos := None; total := 0; pj := 0 |}
  end.

(** The body of the loop over [categories]. *)
Definition category_ranks (db : DB) (tid : string)
           (c : string * string * string * string) : option PairStat :=
  match c with
  | (cat, filt, label_m, label_a) =>
      match get_team_stats_core db cat filt "total" None with
      | None => None
      | Some (made_list, against_list) =>
          Some {| made := side_stat label_m (find_stat 0 made_list tid);
                  against := side_stat label_a (find_stat 0 against_list tid) |}
      end
  end.

Fixpoint ranks_loop (db : DB) (tid : string)
         (cs : list (string * string * string * string)) : option (list PairStat) :=
  match cs with
  | [] => Some []
  | c :: rest =>
      match category_ranks db tid c with
      | None => None
      | Some r =>
          match ranks_loop db tid rest with
          | None => None
          | Some detailed_ranks => Some (r :: detailed_ranks)
          end
      end
  end.

(** [get_team_global_positions(team_id)]; [None] when it raises. *)
Definition get_team_global_positions (db : DB) (team_id : Py.pyval)
  : option (list PairStat) :=
  ranks_loop db (Py.str team_id) categories.

(** ** [get_referee_detailed_tops] *)

Record RefStat := {
    rs_name : option string;
    rs_total : Z;
    rs_pj : Z;
    rs_avg : float
  }.

(** [WHERE m.finished = 1 AND m.referee IS NOT NULL]. *)
Definition named_finished (db : DB) : list MatchRow :=
  List.filter (fun m => m_finished m
                        && match m_referee m with Some _ => true | None => false end)
              (matches db).

(** [ref_c_q]: [(name, total, pj, avg)] per referee, by total descending. *)
Definition ref_c_q (db : DB) : list (option string * Z * Z * float) :=
  Sql.order_groups_desc (fun a b => snd (fst (fst a)) <? snd (fst (fst b)))
    (map (fun g =>
            let total := Sql.count (List.filter (fun mc => match snd mc with
                                                           | Some _ => true
                                                           | None => false
                                                           end) (snd g)) in
            let pj := Sql.count_distinct (map (fun mc => m_id (fst mc)) (snd g)) in
            (fst g, total, pj, sql_avg total pj))
         (Sql.group_by (fun mc => m_referee (fst mc))
            (Sql.left_join (fun m c => String.eqb (m_id m) (c_match_id c))
               (named_finished db) (cards db)))).

(** [ref_f_q]: the total and the average are [NULL] for a referee none of
    whose matches has an appearance. *)
Definition ref_f_q (db : DB) : list (option string * option Z * Z * option float) :=
  Sql.order_groups_desc
    (fun a b => Sql.opt_int_ltb (snd (fst (fst a))) (snd (fst (fst b))))
    (map (fun g =>
            let total := sum_nullable
                           (map (fun mp => option_map p_fouls_committed (snd mp))
                                (snd g)) in
            let pj := Sql.count_distinct (map (fun mp => m_id (fst mp)) (snd g)) in
            (fst g, total, pj, option_map (fun t => sql_avg t pj) total))
         (Sql.group_by (fun mp => m_referee (fst mp))
            (Sql.left_join (fun m p => String.eqb (m_id m) (p_match_id p))
               (named_finished db) (player_match_details db)))).

Definition cards_stat (r : option string * Z * Z * float) : RefStat :=
  match r with
  | (name, total, pj, avg) =>
      {| rs_name := name; rs_total := total; rs_pj := pj; rs_avg := Py.round2 avg |}
  end.

(** [round(r['avg'], 2)] raises [TypeError] on [None]. *)
Definition fouls_stat (r : option string * option Z * Z * option float)
  : option RefStat :=
  match r with
  | (name, Some total, pj, Some avg) =>
      Some {| rs_name := name; rs_total := total; rs_pj := pj;
              rs_avg := Py.round2 avg |}
  | _ => None
  end.

(** The second list comprehension. *)
Fixpoint fouls_stats (rows : list (option string * option Z * Z * option float))
  : option (list RefStat) :=
  match rows with
  | [] => Some []
  | r :: rest =>
      match fouls_stat r with
      | None => None
      | Some e =>
          match fouls_stats rest with
          | None => None
          | Some es => Some (e :: es)
          end
      end
  end.

(** [get_referee_detailed_tops()]; [None] when it raises. *)
Definition get_referee_detailed_tops (db : DB) : option (list RefStat * list RefStat) :=
  match fouls_stats (ref_f_q db) with
  | None => None
  | Some fouls => Some (map cards_stat (ref_c_q db), fouls)
  end.


(** ** [get_last_finished_match_id] *)

(** The rows the query groups: [matches m JOIN player_match_details pmd
    ON m.id = pmd.match_id WHERE pmd.team_id = ? AND m.finished = 1 AND
    pmd.role_x IS NOT NULL]. *)
Definition tactic_rows (db : DB) (tid : string) : list (MatchRow * PlayerRow) :=
  List.filter (fun mp => String.eqb (p_team_id (snd mp)) tid
                         && m_finished (fst mp)
                         && match p_role_x (snd mp) with
                            | Some _ => true
                            | None => false
                            end)
              (Sql.join (fun m p => String.eqb (m_id m) (p_match_id p))
                        (matches db) (player_match_details db)).

(** [GROUP BY m.id ORDER BY m.date DESC]: one row [(id, date)] per group.
    [m.date] is a bare column; [m.id] being the primary key, every row of
    a group carries the same match, whose date is read off the first. *)
Definition tactic_groups (db : DB) (tid : string) : list (option string * option string) :=
  Sql.order_groups_desc (fun a b => Sql.opt_text_ltb (snd a) (snd b))
    (map (fun g => (fst g, match snd g with
                           | mp :: _ => m_date (fst mp)
                           | [] => None
                           end))
         (Sql.group_by (fun mp => Some (m_id (fst mp))) (tactic_rows db tid))).

(** [get_last_finished_match_id(team_id)]: [res['id'] if res else None]. *)
Definition get_last_finished_match_id (db : DB) (team_id : Py.pyval) : option string :=
  match Sql.limit 1 (tactic_groups db (Py.str team_id)) with
  | res :: _ => fst res
  | [] => None
  end.

End Pages.

(* ===================================================================== *)
(** * The update cycle ([api.py]) *)
(* ===================================================================== *)

Module Scheduler.
Import Schema.

(** [SELECT gameweek FROM matches WHERE finished = 1 ORDER BY date DESC
    LIMIT 1], [fetchone()]. *)
Definition last_gw_row (db : DB) : option string :=
  head (map m_gameweek
            (Sql.limit 1 (Sql.sort_desc Ranking.date_lt
                            (List.filter m_finished (matches db))))).

(** [int(last_gw_row['gameweek']) if last_gw_row else 1], for a given
    [int] on strings ([None]: it raises [ValueError]). *)
Definition current_gw (int_of : string -> option Z) (db : DB) : option Z :=
  match last_gw_row db with
  | Some gw => int_of gw
  | None => Some 1
  end.

(** [SELECT id FROM matches WHERE (gameweek = ? OR gameweek = ?) AND
    finished = 0] with [(str(current_gw), str(next_gw))]. *)
Definition selected (gw : Z) (m : MatchRow) : bool :=
  (String.eqb (m_gameweek m) (Py.str (Py.PInt gw))
   || String.eqb (m_gameweek m) (Py.str (Py.PInt (gw + 1))))
  && negb (m_finished m).

Definition matches_to_update (db : DB) (gw : Z) : list string :=
  map m_id (List.filter (selected gw) (matches db)).

(** [for m_id in match_ids: load_match_directly(m_id, conn)]; the [i]-th
    request of the cycle is answered by [fetch i]. *)
Fixpoint update_loop (fetch : nat -> string -> option Ingest.Payload) (i : nat)
         (match_ids : list string) (db : DB) : DB :=
  match match_ids with
  | [] => db
  | m_id :: rest =>
      update_loop fetch (S i) rest (Ingest.load_match_directly m_id (fetch i m_id) db)
  end.

(** [get_automated_updates()] on an existing database: the database it
    leaves.  An exception of [int] ends the cycle before any request. *)
Definition get_automated_updates (int_of : string -> option Z)
           (fetch : nat -> string -> option Ingest.Payload) (db : DB) : DB :=
  match current_gw int_of db with
  | None => db
  | Some gw => update_loop fetch 0 (matches_to_update db gw) db
  end.

End Scheduler.

(* ===================================================================== *)
(** * The formulas as the specification words them *)
(* ===================================================================== *)

Module Spec.
Import Schema.

(** [round(100 * n / d)]: the nearest integer, ties to even as Python's
    [round] resolves them. *)
Definition round_percent (n d : Z) : Z :=
  Py.round_half_even_div (100 * n) d.

(** [inv(r) = L - r]. *)
Definition inv (L r : Z) : Z := L - r.

(** [scoreA = round(100 * (inv(rmA) + inv(raB)) / (2L - 2))]. *)
Definition score_two (L rm ra : Z) : Z :=
  round_percent (inv L rm + inv L ra) (2 * L - 2).

(** The combined score with a referee: the five inverted ranks over
    [5L - 5]. *)
Definition combined_five (L rm_h ra_h rm_v ra_v ref_rank : Z) : Z :=
  round_percent (inv L rm_h + inv L ra_h + inv L rm_v + inv L ra_v + inv L ref_rank)
                (5 * L - 5).

(** Fouls against a team: the fouls committed by the other side in the
    matches the team played, found through the match of each
    appearance. *)
Definition fouls_against (db : DB) (tid : string) : Z :=
  Sql.sum
    (map (fun pm => p_fouls_committed (fst pm))
         (List.filter (fun pm => Ranking.plays tid (snd pm)
                                 && negb (String.eqb (p_team_id (fst pm)) tid))
            (Sql.join (fun p m => String.eqb (p_match_id p) (m_id m))
               (player_match_details db) (matches db)))).

(** ** Notions used in the statements *)

(** [lo, lo + 1, ..., lo + n - 1]. *)
Definition zrange (lo n : Z) : list Z :=
  map (fun i => lo + Z.of_nat i) (List.seq 0 (Z.to_nat n)).

(** The float computation [int(x / d * 100)] agrees at [x] with the
  exact quotient truncated toward zero. *)
Definition percent_exact (d x : Z) : bool :=
  match Py.percent_int x d with
  | Some z => z =? Z.quot (100 * x) d
  | None => false
  end.

(** Ranks are positions in a leaderboard; the float model of the scores
  is checked exhaustively for positions up to 300, ten times the nominal
  league size. *)
Definition rank_ok (r : Z) : Prop := 1 <= r <= 300.

Definition ranks_ok (m : gmap string Z) : Prop :=
  forall k r, m !! k = Some r -> rank_ok r.

(** The categories [get_team_stats_core] has a branch for. *)
Definition known_category (category : string) : Prop :=
  category = "shots" \/ category = "headers" \/ category = "cards"
  \/ category = "fouls".



(** The id of no finished match holds an apostrophe or a NUL character,
    so that the ids written into the windowed queries, which are ids of
    finished matches, read back as themselves. *)
Definition plain_ids (db : DB) : Prop :=
  forall m, In m (matches db) -> m_finished m = true -> Sql.plain (m_id m) = true.


(** The finished matches a team played, as rows. *)
Definition own_finished (db : DB) (tid : string) : list MatchRow :=
  List.filter (fun m => Ranking.plays tid m && m_finished m) (matches db).

(** *** The 'against' direction, as the specification describes it *)

(** The matches in scope of a ranking for team [tid]: all of them without
    a limit, the window of the team with one. *)
Definition in_scope (db : DB) (limit : option Z) (tid mid : string) : bool :=
  if Ranking.limit_falsy limit then true
  else Sql.text_in mid (Ranking.last_matches db tid (default 0 limit)).

(** An event of team [team] in match [m] counts against [tid] when [tid]
    played [m] and the event is not its own. *)
Definition opponent_of (tid team : string) (m : MatchRow) : bool :=
  Ranking.plays tid m && negb (String.eqb team tid).

Definition count_category (category : string) : Prop :=
  category = "shots" \/ category = "headers" \/ category = "cards".

(** Events of the category made by the opponents of [tid] in the matches
    in scope that [tid] played, each event joined to its match. *)
Definition events_against (db : DB) (category filter_type : string)
           (limit : option Z) (tid : string) : Z :=
  if String.eqb category "cards" then
    Sql.count
      (List.filter (fun cm => in_scope db limit tid (c_match_id (fst cm))
                              && opponent_of tid (c_team_id (fst cm)) (snd cm))
         (Sql.join Ranking.card_match (cards db) (matches db)))
  else
    Sql.count
      (List.filter (fun sm => (if String.eqb category "headers"
                               then Ranking.is_header (fst sm)
                               else Ranking.shot_where filter_type (fst sm))
                              && in_scope db limit tid (s_match_id (fst sm))
                              && opponent_of tid (s_team_id (fst sm)) (snd sm))
         (Sql.join Ranking.shot_match (shots db) (matches db))).

(** Fouls received by the players of [tid] itself in the matches in
    scope. *)
Definition fouls_received_by (db : DB) (limit : option Z) (tid : string) : Z :=
  Sql.sum
    (map p_fouls_received
         (List.filter (fun p => String.eqb (p_team_id p) tid
                                && in_scope db limit tid (p_match_id p))
            (player_match_details db))).

(** Every shot and card belongs to one of the two distinct sides of its
    match. *)
Definition sides_ok (db : DB) : Prop :=
  (forall m, In m (matches db) -> m_id_home_team m <> m_id_away_team m)
  /\ (forall s m, In s (shots db) -> In m (matches db) ->
                  s_match_id s = m_id m ->
                  s_team_id s = m_id_home_team m \/ s_team_id s = m_id_away_team m)
  /\ (forall c m, In c (cards db) -> In m (matches db) ->
                  c_match_id c = m_id m ->
                  c_team_id c = m_id_home_team m \/ c_team_id c = m_id_away_team m).

(** *** Notions used for the calendar *)

(** The check behind [month_day]: the month is a month, the day a day of
    it, and both add up to the day of the year. *)
Definition month_day_ok (leap : bool) (n : Z) : bool :=
  let m := fst (Datetime.month_day leap n) in
  let d := snd (Datetime.month_day leap n) in
  (1 <=? m) && (m <=? 12) && (1 <=? d)
  && (d <=? Datetime.DAYS_IN_MONTH m + (if (m =? 2) && leap then 1 else 0))
  && (Datetime.DAYS_BEFORE_MONTH m + (if (2 <? m) && leap then 1 else 0) + d =? n + 1).

(** The time line position of 0001-01-01 00:00:00, the earliest value. *)
Definition MIN_TIMELINE : Z := 86400.

(** The time line position of 1000-01-01 00:00:00: from there on the year
    is written with four digits. *)
Definition FOUR_DIGITS : Z := Datetime.ymd2ord 1000 1 1 * 86400.

(** The three child tables of a database. *)
Definition children (db : DB) : list PlayerRow * list ShotRow * list CardRow :=
  (player_match_details db, shots db, cards db).

End Spec.

(* ===================================================================== *)
(** * A small league, for the examples *)
(* ===================================================================== *)

Module Sample.
Import Schema.

Definition a_match (id date : string) (fin : bool) (home away : string) : MatchRow :=
  {| m_id := id; m_date := Some date; m_finished := fin;
     m_tournament := "Liga Profesional Apertura"; m_gameweek := "1";
     m_home_team := Some home; m_id_home_team := home;
     m_away_team := Some away; m_id_away_team := away;
     m_score := None; m_referee := Some "Ref" |}.

Definition a_player (mid pid team : string) (committed received : Z) : PlayerRow :=
  {| p_match_id := mid; p_player_id := pid; p_team_id := team;
     p_player_name := None; p_position := "M"; p_shirt_number := Py.PInt 8;
     p_is_starter := true; p_minutes_played := 90; p_rating := None;
     p_role_x := None; p_role_y := None;
     p_fouls_committed := committed; p_fouls_received := received |}.

Definition a_shot (id : Z) (mid team : string) : ShotRow :=
  {| s_shot_id := id; s_match_id := mid; s_player_id := "9"; s_player_name := None;
     s_team_id := team; s_minute := "10"; s_on_target := Some true;
     s_shot_type := Some "RightFoot"; s_situation := None; s_outcome := None;
     s_inside_box := Some true |}.

Definition a_card (id : Z) (mid team : string) : CardRow :=
  {| c_card_id := id; c_match_id := mid; c_player_id := "9"; c_player_name := None;
     c_team_id := team; c_card_type := "Yellow"; c_minute := "30" |}.

(** Match 1 (A v B) and match 2 (C v A) are finished, match 3 (D v B) is
    pending.  In match 1 the player of B committed two fouls, while no
    foul received is recorded for the player of A. *)
Definition db : DB :=
  {| matches := [a_match "1" "2025-01-01 17:00:00" true "A" "B";
                 a_match "2" "2025-01-08 17:00:00" true "C" "A";
                 a_match "3" "2025-01-15 17:00:00" false "D" "B"];
     player_match_details := [a_player "1" "10" "A" 1 0; a_player "1" "20" "B" 2 3];
     shots := [a_shot 1 "1" "B"; a_shot 2 "2" "C"; a_shot 3 "2" "A"];
     cards := [a_card 1 "1" "A"];
     shot_seq := 3; card_seq := 1 |}.


(** The same league with one more shot in match 1. *)
Definition db_more : DB :=
  {| matches := matches db;
     player_match_details := player_match_details db;
     shots := shots db ++ [a_shot 4 "1" "B"];
     cards := cards db;
     shot_seq := 4; card_seq := 1 |}.

(** A payload of match 7 (teams 10 and 20): one shot, no card event, and
    the given starters of the home side. *)
Definition a_raw_player (id : Z) : Ingest.RawPlayer :=
  {| Ingest.pl_id := Py.PInt id; Ingest.pl_name := Some "Player";
     Ingest.pl_usualPlayingPositionId := Some 2; Ingest.pl_shirtNumber := Py.PInt 8;
     Ingest.pl_rating := None; Ingest.pl_layout_x := None; Ingest.pl_layout_y := None |}.

Definition a_raw_shot : Ingest.RawShot :=
  {| Ingest.sh_playerId := Py.PInt 101; Ingest.sh_playerName := Some "Player";
     Ingest.sh_teamId := Py.PInt 10; Ingest.sh_min := Py.PInt 12;
     Ingest.sh_isOnTarget := Some true; Ingest.sh_isBlocked := Some false;
     Ingest.sh_shotType := Some "Header"; Ingest.sh_situation := Some "RegularPlay";
     Ingest.sh_eventType := Some "Miss"; Ingest.sh_isFromInsideBox := Some true |}.

Definition a_payload (fin : bool) (home_starters : list Ingest.RawPlayer)
  : Ingest.Payload :=
  {| Ingest.matchTimeUTCDate := Some "2025-01-24T20:00:00.000Z";
     Ingest.leagueRoundName := Py.PInt 3;
     Ingest.homeTeam := {| Ingest.team_id := Py.PInt 10; Ingest.team_name := Some "Home" |};
     Ingest.awayTeam := {| Ingest.team_id := Py.PInt 20; Ingest.team_name := Some "Away" |};
     Ingest.finished := fin;
     Ingest.scoreStr := Some "1 - 0";
     Ingest.leagueName := Some "Liga Profesional Apertura";
     Ingest.referee_text := Some "Ref";
     Ingest.lineup_homeTeam :=
       {| Ingest.lineup_id := Py.PInt 10; Ingest.starters := home_starters;
          Ingest.subs := [] |};
     Ingest.lineup_awayTeam :=
       {| Ingest.lineup_id := Py.PInt 20; Ingest.starters := []; Ingest.subs := [] |};
     Ingest.playerStats := ∅;
     Ingest.shotmap_shots := [a_raw_shot];
     Ingest.events := [] |}.

(** A carded event of the player 101. *)
Definition a_raw_card (card : string) (desc : option (option string)) (home : bool)
  : Ingest.RawEvent :=
  {| Ingest.ev_card := Some card; Ingest.ev_cardDescription := desc;
     Ingest.ev_player_id := Py.PInt 101; Ingest.ev_player_name := Some "Player";
     Ingest.ev_isHome := home; Ingest.ev_timeStr := Py.PInt 30 |}.

(** The payload [r] with the events [evs]. *)
Definition with_events (r : Ingest.Payload) (evs : list Ingest.RawEvent)
  : Ingest.Payload :=
  {| Ingest.matchTimeUTCDate := Ingest.matchTimeUTCDate r;
     Ingest.leagueRoundName := Ingest.leagueRoundName r;
     Ingest.homeTeam := Ingest.homeTeam r;
     Ingest.awayTeam := Ingest.awayTeam r;
     Ingest.finished := Ingest.finished r;
     Ingest.scoreStr := Ingest.scoreStr r;
     Ingest.leagueName := Ingest.leagueName r;
     Ingest.referee_text := Ingest.referee_text r;
     Ingest.lineup_homeTeam := Ingest.lineup_homeTeam r;
     Ingest.lineup_awayTeam := Ingest.lineup_awayTeam r;
     Ingest.playerStats := Ingest.playerStats r;
     Ingest.shotmap_shots := Ingest.shotmap_shots r;
     Ingest.events := evs |}.

(** An appearance with a position on the board. *)
Definition a_positioned (mid pid team : string) : PlayerRow :=
  {| p_match_id := mid; p_player_id := pid; p_team_id := team;
     p_player_name := None; p_position := "M"; p_shirt_number := Py.PInt 8;
     p_is_starter := true; p_minutes_played := 90; p_rating := None;
     p_role_x := Some (Py.NInt 50); p_role_y := Some (Py.NInt 50);
     p_fouls_committed := 0; p_fouls_received := 0 |}.

(** The sample league with positioned appearances of team A in its two
    finished matches. *)
Definition db_tactics : DB :=
  {| matches := matches Sample.db;
     player_match_details :=
       [a_positioned "1" "10" "A"; a_positioned "2" "10" "A";
        Sample.a_player "2" "30" "C" 0 0];
     shots := shots Sample.db; cards := cards Sample.db;
     shot_seq := 3; card_seq := 1 |}.

End Sample.

(* ===================================================================== *)
(** * Further notions used in the statements *)
(* ===================================================================== *)

Module Props.
Import Schema.

(** Ranks of a league of nominal size: positions 1 to 30. *)
Definition league_ranks (m : gmap string Z) : Prop :=
  forall k r, m !! k = Some r -> 1 <= r <= 30.

(** The prediction seen from the other side: home and away exchanged. *)
Definition swap_sides (res : Prediction.Result) : Prediction.Result :=
  {| Prediction.r_h := Prediction.r_v res;
     Prediction.r_v := Prediction.r_h res;
     Prediction.r_gen := Prediction.r_gen res;
     Prediction.r_rm_h := Prediction.r_rm_v res;
     Prediction.r_ra_h := Prediction.r_ra_v res;
     Prediction.r_rm_v := Prediction.r_rm_h res;
     Prediction.r_ra_v := Prediction.r_ra_h res;
     Prediction.r_ref_rank := Prediction.r_ref_rank res |}.

(** The primary key of an appearance. *)
Definition player_key (p : PlayerRow) : string * string :=
  (p_match_id p, p_player_id p).

(** Every player of a payload: both sides, starters before substitutes. *)
Definition payload_players (r : Ingest.Payload) : list Ingest.RawPlayer :=
  (Ingest.starters (Ingest.lineup_homeTeam r) ++ Ingest.subs (Ingest.lineup_homeTeam r)
   ++ Ingest.starters (Ingest.lineup_awayTeam r)
   ++ Ingest.subs (Ingest.lineup_awayTeam r))%list.

(** The key constraints of the schema: [matches.id] and
    [(match_id, player_id)] are primary keys, [shot_id] and [card_id] are
    AUTOINCREMENT keys, never above the sequence of their table. *)
Definition keys_ok (db : DB) : Prop :=
  List.NoDup (map m_id (matches db))
  /\ List.NoDup (map player_key (player_match_details db))
  /\ List.NoDup (map s_shot_id (shots db))
  /\ List.NoDup (map c_card_id (cards db))
  /\ Forall (fun s => s_shot_id s <= shot_seq db) (shots db)
  /\ Forall (fun c => c_card_id c <= card_seq db) (cards db).

(** The player ids of a payload, as they are stored. *)
Definition payload_ids (r : Ingest.Payload) : list string :=
  map (fun p => Py.str (Ingest.pl_id p)) (payload_players r).

(** No appearance of the match is stored for a player of the payload. *)
Definition not_stored (db : DB) (match_id : string) (r : Ingest.Payload) : Prop :=
  forall q, In q (player_match_details db) -> p_match_id q = match_id ->
            ~ In (p_player_id q) (payload_ids r).

(** The key column of a grouped result. *)
Definition row_key (r : Ranking.StatRow) : option string := fst (fst (fst r)).

(** The events of a count category, as the [made] query selects them. *)
Definition events_of (db : DB) (category filter_type : string) : Z :=
  if String.eqb category "shots" then
    Sql.count (List.filter (Ranking.shot_where filter_type) (shots db))
  else if String.eqb category "headers" then
    Sql.count (List.filter Ranking.is_header (shots db))
  else Sql.count (cards db).

(** Every shot and every card belongs to a stored match. *)
Definition events_have_match (db : DB) : Prop :=
  (forall s, In s (shots db) -> In (s_match_id s) (map m_id (matches db)))
  /\ (forall c, In c (cards db) -> In (c_match_id c) (map m_id (matches db))).

Import Ranking Pages.
(** What [category_ranks] says of one category. *)
Definition agrees_with_ranks (db : DB) (tid : string)
           (c : string * string * string * string) (row : PairStat) : Prop :=
  match c with
  | (cat, filt, label_m, label_a) =>
      label (made row) = label_m /\ label (against row) = label_a
      /\ exists m a,
           get_rankings_from_stats db cat filt "total" = Some (m, a)
           /\ pos (made row) = m !! tid /\ pos (against row) = a !! tid
  end.


(** The appearances, shots and cards stored for a match. *)
Definition rows_of (match_id : string) (db : DB)
  : list PlayerRow * list ShotRow * list CardRow :=
  (List.filter (fun p => String.eqb (p_match_id p) match_id) (player_match_details db),
   List.filter (fun s => String.eqb (s_match_id s) match_id) (shots db),
   List.filter (fun c => String.eqb (c_match_id c) match_id) (cards db)).

(** No appearance, shot or card is stored for a match that is stored as
    not finished. *)
Definition pending_empty (db : DB) : Prop :=
  forall m, In m (matches db) -> m_finished m = false ->
            rows_of (m_id m) db = ([], [], []).

(** Comparison by the first component that differs. *)
Definition lex (c : comparison) (rest : comparison) : comparison :=
  match c with Eq => rest | _ => c end.

(** The team [tid] has a positioned appearance in the finished match
    [m]. *)
Definition has_tactic (db : DB) (tid : string) (m : MatchRow) : Prop :=
  In m (matches db) /\ m_finished m = true
  /\ exists p, In p (player_match_details db) /\ p_match_id p = m_id m
               /\ p_team_id p = tid /\ p_role_x p <> None.

(** The value the last item with key [k] gives, over all the groups of a
    player in order. *)
Definition last_stat (groups : list (list Ingest.StatItem)) (k : string) : option Z :=
  option_map (fun item => default 0 (Ingest.stat_value item))
    (last (List.filter (fun item => Sql.opt_text_eqb (Ingest.stat_key item) (Some k))
                       (concat groups))).

(** What a team did in a category over the whole table: its shots under
    the filter, its headers, its cards, the fouls its players
    committed. *)
Definition volume (db : DB) (category filter_type tid : string) : Z :=
  if String.eqb category "shots" then
    Sql.count (List.filter (fun s => String.eqb (s_team_id s) tid
                                     && Ranking.shot_where filter_type s) (shots db))
  else if String.eqb category "headers" then
    Sql.count (List.filter (fun s => String.eqb (s_team_id s) tid
                                     && Ranking.is_header s) (shots db))
  else if String.eqb category "cards" then
    Sql.count (List.filter (fun c => String.eqb (c_team_id c) tid) (cards db))
  else
    Sql.sum (map p_fouls_committed
                 (List.filter (fun p => String.eqb (p_team_id p) tid)
                              (player_match_details db))).

(** The team [team] played the finished match [match_id]. *)
Definition played_finished (db : DB) (team match_id : string) : Prop :=
  exists m, In m (matches db) /\ m_id m = match_id /\ m_finished m = true
            /\ Ranking.plays team m = true.

(** Every appearance, shot and card belongs to a finished match that its
    team played. *)
Definition rows_in_finished_matches (db : DB) : Prop :=
  (forall p, In p (player_match_details db) ->
             played_finished db (p_team_id p) (p_match_id p))
  /\ (forall s, In s (shots db) -> played_finished db (s_team_id s) (s_match_id s))
  /\ (forall c, In c (cards db) -> played_finished db (c_team_id c) (c_match_id c)).

End Props.

(** Evaluate the month tables at a literal month. *)
Ltac calc_tables :=
  repeat match goal with
         | |- context [Datetime.DAYS_BEFORE_MONTH ?k] =>
             let v := eval vm_compute in (Datetime.DAYS_BEFORE_MONTH k) in
             change (Datetime.DAYS_BEFORE_MONTH k) with v
         | |- context [Datetime.DAYS_IN_MONTH ?k] =>
             let v := eval vm_compute in (Datetime.DAYS_IN_MONTH k) in
             change (Datetime.DAYS_IN_MONTH k) with v
         end.

(* ===================================================================== *)
(** * Properties of the number model *)
(* ===================================================================== *)

Section PercentInt.

Lemma in_zrange (lo n x : Z) :
  lo <= x < lo + n -> In x (Spec.zrange lo n).
Proof.
  intros Hx. unfold Spec.zrange. apply in_map_iff.
  exists (Z.to_nat (x - lo)). split; [lia|].
  apply in_seq. lia.
Qed.

Lemma percent_exact_58 : forallb (Spec.percent_exact 58) (Spec.zrange (-1350) 1496) = true.
Proof. vm_compute. reflexivity. Qed.

Lemma percent_exact_87 : forallb (Spec.percent_exact 87) (Spec.zrange (-1350) 1496) = true.
Proof. vm_compute. reflexivity. Qed.

Lemma percent_exact_gen :
  forallb (Spec.percent_exact Prediction.gen_divisor) (Spec.zrange (-1350) 1496) = true.
Proof. vm_compute. reflexivity. Qed.

Lemma percent_exact_spec (d x : Z) :
  forallb (Spec.percent_exact d) (Spec.zrange (-1350) 1496) = true ->
  -1350 <= x <= 145 ->
  Py.percent_int x d = Some (Z.quot (100 * x) d).
Proof.
  intros Htab Hx.
  rewrite forallb_forall in Htab.
  assert (Hin : In x (Spec.zrange (-1350) 1496)) by (apply in_zrange; lia).
  specialize (Htab x Hin).
  unfold Spec.percent_exact in Htab.
  destruct (Py.percent_int x d) as [z|]; [|discriminate].
  apply Z.eqb_eq in Htab. congruence.
Qed.

(** Between -1350 and 145, the three scores of the
    predictor are the exact quotients, truncated toward zero. *)
Lemma percent_int_58 (x : Z) :
  -1350 <= x <= 145 -> Py.percent_int x 58 = Some (Z.quot (100 * x) 58).
Proof. apply percent_exact_spec, percent_exact_58. Qed.

Lemma percent_int_87 (x : Z) :
  -1350 <= x <= 145 -> Py.percent_int x 87 = Some (Z.quot (100 * x) 87).
Proof. apply percent_exact_spec, percent_exact_87. Qed.

Lemma percent_int_gen (x : Z) :
  -1350 <= x <= 145 ->
  Py.percent_int x Prediction.gen_divisor
  = Some (Z.quot (100 * x) Prediction.gen_divisor).
Proof. apply percent_exact_spec, percent_exact_gen. Qed.

End PercentInt.

(* ===================================================================== *)
(** * Properties of the prediction engine *)
(* ===================================================================== *)

Section PredictionFacts.
Import Prediction.

Lemma default_rank_ok (m : gmap string Z) (k : string) :
  Spec.ranks_ok m -> Spec.rank_ok (default 15 (m !! k)).
Proof.
  intros Hm. destruct (m !! k) as [r|] eqn:E; simpl.
  - exact (Hm k r E).
  - unfold Spec.rank_ok. lia.
Qed.

Lemma ranks_ok_empty : Spec.ranks_ok ∅.
Proof. intros k r H. rewrite lookup_empty in H. discriminate. Qed.

Lemma ranks_ok_insert (m : gmap string Z) (k : string) (r : Z) :
  Spec.rank_ok r -> Spec.ranks_ok m -> Spec.ranks_ok (<[k := r]> m).
Proof.
  intros Hr Hm k' r' H. destruct (decide (k = k')) as [->|Hne].
  - rewrite lookup_insert_eq in H. congruence.
  - rewrite lookup_insert_ne in H by exact Hne. exact (Hm k' r' H).
Qed.

(** The positions [enumerate] hands out stay within the list length. *)
Lemma rank_dict_from_ok (keys : list string) (i : Z) (acc : gmap string Z) :
  0 <= i -> i + Z.of_nat (length keys) <= 300 ->
  Spec.ranks_ok acc -> Spec.ranks_ok (Ranking.rank_dict_from i keys acc).
Proof.
  revert i acc. induction keys as [|k keys IH]; intros i acc Hi Hlen Hacc; simpl.
  - exact Hacc.
  - simpl in Hlen. apply IH; [lia | lia |].
    apply ranks_ok_insert; [unfold Spec.rank_ok; lia | exact Hacc].
Qed.

Lemma rank_dict_ok (keys : list string) :
  (length keys <= 300)%nat -> Spec.ranks_ok (Ranking.rank_dict keys).
Proof.
  intros H. apply rank_dict_from_ok; [lia | lia | apply ranks_ok_empty].
Qed.

(** With the ranks in hand, [get_prediction_logic] is [predict]. *)
Lemma get_prediction_logic_fetch db home away category filter_type referee precalc
      m a rr :
  fetch_ranks db category filter_type precalc = Some (m, a, rr) ->
  get_prediction_logic db home away category filter_type referee precalc
  = predict db home away category referee m a rr.
Proof. intros H. unfold get_prediction_logic. rewrite H. reflexivity. Qed.

(** [predict] reads its two team dictionaries through four lookups only. *)
Lemma predict_ext db home away category referee m a m' a' rr :
  default 15 (m !! home) = default 15 (m' !! home) ->
  default 15 (a !! home) = default 15 (a' !! home) ->
  default 15 (m !! away) = default 15 (m' !! away) ->
  default 15 (a !! away) = default 15 (a' !! away) ->
  predict db home away category referee m a rr
  = predict db home away category referee m' a' rr.
Proof.
  intros H1 H2 H3 H4. unfold predict. rewrite H1, H2, H3, H4. reflexivity.
Qed.

(** The branch without a referee, in exact arithmetic. *)
Lemma predict_two_terms db home away category referee m a rr :
  Py.truthy_str referee && referee_sensitive category = false ->
  Spec.ranks_ok m -> Spec.ranks_ok a ->
  predict db home away category referee m a rr
  = Some {| r_h := Z.quot (100 * ((30 - default 15 (m !! home))
                                  + (30 - default 15 (a !! away)))) 58;
            r_v := Z.quot (100 * ((30 - default 15 (m !! away))
                                  + (30 - default 15 (a !! home)))) 58;
            r_gen := (Z.quot (100 * ((30 - default 15 (m !! home))
                                     + (30 - default 15 (a !! away)))) 58
                      + Z.quot (100 * ((30 - default 15 (m !! away))
                                       + (30 - default 15 (a !! home)))) 58) / 2;
            r_rm_h := default 15 (m !! home); r_ra_h := default 15 (a !! home);
            r_rm_v := default 15 (m !! away); r_ra_v := default 15 (a !! away);
            r_ref_rank := None |}.
Proof.
  intros Hb Hm Ha. unfold predict. rewrite Hb.
  pose proof (default_rank_ok m home Hm) as B1.
  pose proof (default_rank_ok a home Ha) as B2.
  pose proof (default_rank_ok m away Hm) as B3.
  pose proof (default_rank_ok a away Ha) as B4.
  unfold Spec.rank_ok in *.
  rewrite !percent_int_58 by lia. reflexivity.
Qed.

(** The branch with a referee, in exact arithmetic. *)
Lemma predict_three_terms db home away category name m a rr :
  name <> "" -> referee_sensitive category = true ->
  Spec.ranks_ok m -> Spec.ranks_ok a ->
  Spec.rank_ok (default 15 (referee_ranks db category rr !! name)) ->
  predict db home away category (Some name) m a rr
  = let ref_val := default 15 (referee_ranks db category rr !! name) in
    Some {| r_h := Z.quot (100 * ((30 - default 15 (m !! home))
                                  + (30 - default 15 (a !! away))
                                  + (30 - ref_val))) 87;
            r_v := Z.quot (100 * ((30 - default 15 (m !! away))
                                  + (30 - default 15 (a !! home))
                                  + (30 - ref_val))) 87;
            r_gen := Z.quot (100 * ((30 - default 15 (m !! home))
                                    + (30 - default 15 (a !! home))
                                    + (30 - default 15 (m !! away))
                                    + (30 - default 15 (a !! away))
                                    + (30 - ref_val))) gen_divisor;
            r_rm_h := default 15 (m !! home); r_ra_h := default 15 (a !! home);
            r_rm_v := default 15 (m !! away); r_ra_v := default 15 (a !! away);
            r_ref_rank := Some ref_val |}.
Proof.
  intros Hname Hcat Hm Ha Hr. unfold predict.
  assert (Ht : Py.truthy_str (Some name) = true).
  { simpl. apply negb_true_iff. apply String.eqb_neq. exact Hname. }
  rewrite Ht, Hcat. simpl andb. cbv iota. simpl (default "" (Some name)).
  pose proof (default_rank_ok m home Hm) as B1.
  pose proof (default_rank_ok a home Ha) as B2.
  pose proof (default_rank_ok m away Hm) as B3.
  pose proof (default_rank_ok a away Ha) as B4.
  unfold Spec.rank_ok in *.
  rewrite !percent_int_87 by lia.
  rewrite percent_int_gen by lia. reflexivity.
Qed.

(** *** The home score without a referee *)

(** C1, counterexample.  League size 30, home team fifth in the 'made'
    leaderboard, away team tenth in the 'against' one, no referee: the
    home score is 77, whereas [round(100 * 45 / 58)] is 78. *)
Lemma home_score_is_not_rounded :
  exists res,
    get_prediction_logic Schema.empty_db "H" "A" "shots" "all" None
      (Some ({["H" := 5]}, {["A" := 10]}, None)) = Some res
    /\ r_rm_h res = 5 /\ r_ra_v res = 10
    /\ r_h res = 77
    /\ Spec.score_two 30 (r_rm_h res) (r_ra_v res) = 78
    /\ r_h res <> Spec.score_two 30 (r_rm_h res) (r_ra_v res).
Proof.
  eexists. split; [vm_compute; reflexivity|].
  repeat split; try reflexivity. vm_compute. discriminate.
Qed.

(** C1, as amended.  Without a referee folded in, the home score is
    [100 * ((30 - rmH) + (30 - raA)) / (2 * 30 - 2)] truncated toward zero
    (the code applies [int()], not [round()]), where [rmH] is the home
    rank in the 'made' dictionary and [raA] the away rank in the 'against'
    one; for [rmH = 5] and [raA = 10] it is 77. *)
Theorem home_score_truncated db home away category filter_type referee precalc
        m a rr :
  fetch_ranks db category filter_type precalc = Some (m, a, rr) ->
  Py.truthy_str referee && referee_sensitive category = false ->
  Spec.ranks_ok m -> Spec.ranks_ok a ->
  exists res,
    get_prediction_logic db home away category filter_type referee precalc = Some res
    /\ r_rm_h res = default 15 (m !! home)
    /\ r_ra_v res = default 15 (a !! away)
    /\ r_h res = Z.quot (100 * ((30 - r_rm_h res) + (30 - r_ra_v res))) (2 * 30 - 2)
    /\ (r_rm_h res = 5 -> r_ra_v res = 10 -> r_h res = 77).
Proof.
  intros Hf Hb Hm Ha.
  rewrite (get_prediction_logic_fetch _ _ _ _ _ _ _ _ _ _ Hf).
  rewrite (predict_two_terms _ _ _ _ _ _ _ _ Hb Hm Ha).
  eexists. split; [reflexivity|]. simpl.
  repeat split; try reflexivity.
  intros -> ->. reflexivity.
Qed.

Lemma ranks_ok_singleton (k : string) (r : Z) :
  Spec.rank_ok r -> Spec.ranks_ok {[k := r]}.
Proof.
  intros Hr k' r' H. apply lookup_singleton_Some in H as [_ <-]. exact Hr.
Defined.

Lemma home_score_truncated_witness :
  exists res,
    get_prediction_logic Schema.empty_db "H" "A" "shots" "all" None
      (Some ({["H" := 5]}, {["A" := 10]}, None)) = Some res
    /\ r_h res = 77.
Proof.
  destruct (home_score_truncated Schema.empty_db "H" "A" "shots" "all" None
              (Some ({["H" := 5]}, {["A" := 10]}, None))
              {["H" := 5]} {["A" := 10]} None)
    as (res & Hres & H1 & H2 & _ & H77).
  - reflexivity.
  - reflexivity.
  - apply ranks_ok_singleton. unfold Spec.rank_ok. lia.
  - apply ranks_ok_singleton. unfold Spec.rank_ok. lia.
  - exists res. split; [exact Hres|]. apply H77.
    + rewrite H1. reflexivity.
    + rewrite H2. reflexivity.
Defined.

(** *** The combined score with a referee *)

(** C2, counterexample.  Every team rank and the referee rank equal to
    28: the five inverted ranks add up to 10, the code returns
    [int(10 / 143 * 100) = 6], the formula of the claim
    [round(100 * 10 / 145)] gives 7. *)
Lemma combined_score_is_not_rounded :
  exists res,
    get_prediction_logic Schema.empty_db "H" "A" "cards" "all" (Some "R")
      (Some ({["H" := 28; "A" := 28]}, {["H" := 28; "A" := 28]},
             Some {["R" := 28]})) = Some res
    /\ r_gen res = 6
    /\ r_ref_rank res = Some 28
    /\ Spec.combined_five 30 (r_rm_h res) (r_ra_h res) (r_rm_v res) (r_ra_v res) 28 = 7
    /\ r_gen res
       <> Spec.combined_five 30 (r_rm_h res) (r_ra_h res) (r_rm_v res) (r_ra_v res) 28.
Proof.
  eexists. split; [vm_compute; reflexivity|].
  repeat split; try reflexivity. vm_compute. discriminate.
Qed.

(** C2, as amended.  With a referee name and the category 'cards' or
    'fouls', the combined score is 100 times the sum of the five inverted
    ranks divided by the combined-score divisor of the code, truncated
    toward zero (the code applies [int()], not [round()]). *)
Theorem combined_score_truncated db home away category filter_type name precalc
        m a rr :
  fetch_ranks db category filter_type precalc = Some (m, a, rr) ->
  name <> "" -> referee_sensitive category = true ->
  Spec.ranks_ok m -> Spec.ranks_ok a ->
  Spec.ranks_ok (referee_ranks db category rr) ->
  exists res ref_val,
    get_prediction_logic db home away category filter_type (Some name) precalc
    = Some res
    /\ r_ref_rank res = Some ref_val
    /\ ref_val = default 15 (referee_ranks db category rr !! name)
    /\ r_gen res
       = Z.quot (100 * ((30 - r_rm_h res) + (30 - r_ra_h res) + (30 - r_rm_v res)
                        + (30 - r_ra_v res) + (30 - ref_val))) gen_divisor.
Proof.
  intros Hf Hname Hcat Hm Ha Hr.
  rewrite (get_prediction_logic_fetch _ _ _ _ _ _ _ _ _ _ Hf).
  rewrite (predict_three_terms _ _ _ _ _ _ _ _ Hname Hcat Hm Ha
             (default_rank_ok _ name Hr)).
  eexists. eexists. split; [reflexivity|]. simpl.
  repeat split; reflexivity.
Qed.

Lemma combined_score_truncated_witness :
  exists res,
    get_prediction_logic Schema.empty_db "H" "A" "cards" "all" (Some "R")
      (Some ({["H" := 5]}, {["A" := 10]}, Some {["R" := 3]})) = Some res
    /\ r_ref_rank res = Some 3.
Proof.
  destruct (combined_score_truncated Schema.empty_db "H" "A" "cards" "all" "R"
              (Some ({["H" := 5]}, {["A" := 10]}, Some {["R" := 3]}))
              {["H" := 5]} {["A" := 10]} (Some {["R" := 3]}))
    as (res & ref_val & Hres & Href & Hval & _).
  - reflexivity.
  - discriminate.
  - reflexivity.
  - apply ranks_ok_singleton. unfold Spec.rank_ok. lia.
  - apply ranks_ok_singleton. unfold Spec.rank_ok. lia.
  - apply ranks_ok_singleton. unfold Spec.rank_ok. lia.
  - exists res. split; [exact Hres|]. rewrite Href, Hval. reflexivity.
Defined.

(** *** The fallback rank *)

Lemma default_insert_absent (m : gmap string Z) (k k' : string) :
  m !! k = None -> default 15 (<[k := 15]> m !! k') = default 15 (m !! k').
Proof.
  intros Hk. destruct (decide (k = k')) as [<-|Hne].
  - rewrite lookup_insert_eq, Hk. reflexivity.
  - rewrite lookup_insert_ne by exact Hne. reflexivity.
Qed.

(** C8.  A team id absent from the 'made' or from the 'against'
    dictionary takes part in the prediction with rank 15, for each of the
    four contributing ranks: the rank reported is 15, the whole result is
    the one obtained if the id had been listed with rank 15, and the
    scores returned are the score formulas applied to the four ranks
    reported, those of value 15 included. *)
Theorem absent_team_ranks_15 db home away category filter_type referee precalc
        m a rr :
  fetch_ranks db category filter_type precalc = Some (m, a, rr) ->
  Spec.ranks_ok m -> Spec.ranks_ok a ->
  Spec.ranks_ok (referee_ranks db category rr) ->
  exists res,
    get_prediction_logic db home away category filter_type referee precalc = Some res
    /\ (m !! home = None ->
        r_rm_h res = 15
        /\ get_prediction_logic db home away category filter_type referee
             (Some (<[home := 15]> m, a, rr)) = Some res)
    /\ (a !! home = None ->
        r_ra_h res = 15
        /\ get_prediction_logic db home away category filter_type referee
             (Some (m, <[home := 15]> a, rr)) = Some res)
    /\ (m !! away = None ->
        r_rm_v res = 15
        /\ get_prediction_logic db home away category filter_type referee
             (Some (<[away := 15]> m, a, rr)) = Some res)
    /\ (a !! away = None ->
        r_ra_v res = 15
        /\ get_prediction_logic db home away category filter_type referee
             (Some (m, <[away := 15]> a, rr)) = Some res)
    /\ r_rm_h res = default 15 (m !! home) /\ r_ra_h res = default 15 (a !! home)
    /\ r_rm_v res = default 15 (m !! away) /\ r_ra_v res = default 15 (a !! away)
    /\ (Py.truthy_str referee && referee_sensitive category = false ->
        r_h res = Z.quot (100 * ((30 - r_rm_h res) + (30 - r_ra_v res))) 58
        /\ r_v res = Z.quot (100 * ((30 - r_rm_v res) + (30 - r_ra_h res))) 58
        /\ r_gen res = (r_h res + r_v res) / 2)
    /\ (Py.truthy_str referee && referee_sensitive category = true ->
        exists ref_val,
          r_ref_rank res = Some ref_val
          /\ r_h res = Z.quot (100 * ((30 - r_rm_h res) + (30 - r_ra_v res)
                                      + (30 - ref_val))) 87
          /\ r_v res = Z.quot (100 * ((30 - r_rm_v res) + (30 - r_ra_h res)
                                      + (30 - ref_val))) 87
          /\ r_gen res = Z.quot (100 * ((30 - r_rm_h res) + (30 - r_ra_h res)
                                        + (30 - r_rm_v res) + (30 - r_ra_v res)
                                        + (30 - ref_val))) gen_divisor).
Proof.
  intros Hf Hm Ha Hr.
  rewrite (get_prediction_logic_fetch _ _ _ _ _ _ _ _ _ _ Hf).
  assert (Hres : exists res,
             predict db home away category referee m a rr = Some res
             /\ r_rm_h res = default 15 (m !! home)
             /\ r_ra_h res = default 15 (a !! home)
             /\ r_rm_v res = default 15 (m !! away)
             /\ r_ra_v res = default 15 (a !! away)
             /\ (Py.truthy_str referee && referee_sensitive category = false ->
                 r_h res = Z.quot (100 * ((30 - r_rm_h res) + (30 - r_ra_v res))) 58
                 /\ r_v res = Z.quot (100 * ((30 - r_rm_v res) + (30 - r_ra_h res))) 58
                 /\ r_gen res = (r_h res + r_v res) / 2)
             /\ (Py.truthy_str referee && referee_sensitive category = true ->
                 exists ref_val,
                   r_ref_rank res = Some ref_val
                   /\ r_h res = Z.quot (100 * ((30 - r_rm_h res) + (30 - r_ra_v res)
                                               + (30 - ref_val))) 87
                   /\ r_v res = Z.quot (100 * ((30 - r_rm_v res) + (30 - r_ra_h res)
                                               + (30 - ref_val))) 87
                   /\ r_gen res
                      = Z.quot (100 * ((30 - r_rm_h res) + (30 - r_ra_h res)
                                       + (30 - r_rm_v res) + (30 - r_ra_v res)
                                       + (30 - ref_val))) gen_divisor)).
  { destruct (Py.truthy_str referee && referee_sensitive category) eqn:Hb.
    - apply andb_true_iff in Hb as [Ht Hcat].
      destruct referee as [name|]; [|discriminate].
      assert (Hname : name <> "").
      { simpl in Ht. apply negb_true_iff in Ht. apply String.eqb_neq. exact Ht. }
      rewrite (predict_three_terms _ _ _ _ _ _ _ _ Hname Hcat Hm Ha
                 (default_rank_ok _ name Hr)).
      eexists. split; [reflexivity|]. simpl.
      split; [reflexivity|]. split; [reflexivity|]. split; [reflexivity|].
      split; [reflexivity|]. split; [discriminate|].
      intros _. eexists. split; [reflexivity|]. repeat split; reflexivity.
    - rewrite (predict_two_terms _ _ _ _ _ _ _ _ Hb Hm Ha).
      eexists. split; [reflexivity|]. simpl.
      split; [reflexivity|]. split; [reflexivity|]. split; [reflexivity|].
      split; [reflexivity|]. split; [|discriminate].
      intros _. repeat split; reflexivity. }
  destruct Hres as (res & Hres & E1 & E2 & E3 & E4 & S2 & S3).
  assert (Hins : forall m' a',
             default 15 (m' !! home) = default 15 (m !! home) ->
             default 15 (a' !! home) = default 15 (a !! home) ->
             default 15 (m' !! away) = default 15 (m !! away) ->
             default 15 (a' !! away) = default 15 (a !! away) ->
             get_prediction_logic db home away category filter_type referee
               (Some (m', a', rr)) = Some res).
  { intros m' a' H1 H2 H3 H4. unfold get_prediction_logic. simpl. rewrite <- Hres.
    apply predict_ext; assumption. }
  exists res. split; [exact Hres|].
  split; [|split; [|split; [|split]]].
  - intros H. split; [rewrite E1, H; reflexivity|].
    apply Hins; try reflexivity; apply default_insert_absent; exact H.
  - intros H. split; [rewrite E2, H; reflexivity|].
    apply Hins; try reflexivity; apply default_insert_absent; exact H.
  - intros H. split; [rewrite E3, H; reflexivity|].
    apply Hins; try reflexivity; apply default_insert_absent; exact H.
  - intros H. split; [rewrite E4, H; reflexivity|].
    apply Hins; try reflexivity; apply default_insert_absent; exact H.
  - auto 10.
Qed.

(** Home team H is in neither dictionary: it enters with rank 15 twice,
    and the scores are [int(100 * (15 + 20) / 58) = 60] and
    [int(100 * (27 + 15) / 58) = 72]. *)
Lemma absent_team_ranks_15_witness :
  exists res,
    get_prediction_logic Schema.empty_db "H" "A" "shots" "all" None
      (Some ({["A" := 3]}, {["A" := 10]}, None)) = Some res
    /\ r_rm_h res = 15 /\ r_ra_h res = 15 /\ r_h res = 60 /\ r_v res = 72.
Proof.
  destruct (absent_team_ranks_15 Schema.empty_db "H" "A" "shots" "all" None
              (Some ({["A" := 3]}, {["A" := 10]}, None))
              {["A" := 3]} {["A" := 10]} None)
    as (res & Hres & H1 & H2 & _ & _ & E1 & E2 & E3 & E4 & S2 & _).
  - reflexivity.
  - apply ranks_ok_singleton. unfold Spec.rank_ok. lia.
  - apply ranks_ok_singleton. unfold Spec.rank_ok. lia.
  - vm_compute. intros k r H. discriminate.
  - exists res. split; [exact Hres|].
    destruct (S2 eq_refl) as (Sh & Sv & _).
    split; [apply H1; reflexivity|]. split; [apply H2; reflexivity|].
    rewrite Sh, Sv, E1, E2, E3, E4. split; reflexivity.
Defined.

(** *** A referee outside the referee ranking *)

(** C10.  A referee name supplied for 'cards' or 'fouls' that the referee
    dictionary does not list is given rank 15, and the three-term scores
    (divisor 87) are the ones returned: the referee rank of the result is
    15, not missing. *)
Theorem absent_referee_three_terms db home away category filter_type name precalc
        m a rr :
  fetch_ranks db category filter_type precalc = Some (m, a, rr) ->
  name <> "" -> referee_sensitive category = true ->
  referee_ranks db category rr !! name = None ->
  Spec.ranks_ok m -> Spec.ranks_ok a ->
  exists res,
    get_prediction_logic db home away category filter_type (Some name) precalc
    = Some res
    /\ r_ref_rank res = Some 15
    /\ r_h res = Z.quot (100 * ((30 - r_rm_h res) + (30 - r_ra_v res) + (30 - 15))) 87
    /\ r_v res = Z.quot (100 * ((30 - r_rm_v res) + (30 - r_ra_h res) + (30 - 15))) 87
    /\ r_rm_h res = default 15 (m !! home) /\ r_ra_h res = default 15 (a !! home)
    /\ r_rm_v res = default 15 (m !! away) /\ r_ra_v res = default 15 (a !! away).
Proof.
  intros Hf Hname Hcat Habs Hm Ha.
  rewrite (get_prediction_logic_fetch _ _ _ _ _ _ _ _ _ _ Hf).
  assert (Hr : Spec.rank_ok (default 15 (referee_ranks db category rr !! name))).
  { rewrite Habs. unfold Spec.rank_ok. simpl. lia. }
  rewrite (predict_three_terms _ _ _ _ _ _ _ _ Hname Hcat Hm Ha Hr).
  rewrite Habs. simpl.
  eexists. split; [reflexivity|]. simpl. repeat split; reflexivity.
Qed.

Lemma absent_referee_three_terms_witness :
  exists res,
    get_prediction_logic Schema.empty_db "H" "A" "fouls" "all" (Some "R")
      (Some ({["H" := 5]}, {["A" := 10]}, None)) = Some res
    /\ r_ref_rank res = Some 15 /\ r_h res = 68.
Proof.
  destruct (absent_referee_three_terms Schema.empty_db "H" "A" "fouls" "all" "R"
              (Some ({["H" := 5]}, {["A" := 10]}, None))
              {["H" := 5]} {["A" := 10]} None)
    as (res & Hres & Href & Hh & _ & E1 & _ & _ & E4).
  - reflexivity.
  - discriminate.
  - reflexivity.
  - reflexivity.
  - apply ranks_ok_singleton. unfold Spec.rank_ok. lia.
  - apply ranks_ok_singleton. unfold Spec.rank_ok. lia.
  - exists res. split; [exact Hres|]. split; [exact Href|].
    rewrite Hh, E1, E4. reflexivity.
Defined.

End PredictionFacts.

(* ===================================================================== *)
(** * Properties of the ranking engine *)
(* ===================================================================== *)

Section SortFacts.
Context {A : Type} (lt : A -> A -> bool).

Lemma insert_desc_perm (x : A) (l : list A) :
  Permutation (Sql.insert_desc lt x l) (x :: l).
Proof.
  induction l as [|y l IH]; simpl.
  - reflexivity.
  - destruct (lt x y).
    + rewrite IH. apply perm_swap.
    + reflexivity.
Qed.

Lemma sort_desc_perm (l : list A) : Permutation (Sql.sort_desc lt l) l.
Proof.
  induction l as [|x l IH]; simpl.
  - reflexivity.
  - rewrite insert_desc_perm. apply perm_skip. exact IH.
Qed.

Lemma sort_desc_In (x : A) (l : list A) : In x (Sql.sort_desc lt l) <-> In x l.
Proof.
  split; apply Permutation_in; [|symmetry]; apply sort_desc_perm.
Qed.

Lemma sort_desc_length (l : list A) : length (Sql.sort_desc lt l) = length l.
Proof. apply Permutation_length, sort_desc_perm. Qed.

Lemma order_groups_desc_perm (l : list A) :
  Permutation (Sql.order_groups_desc lt l) l.
Proof.
  unfold Sql.order_groups_desc. rewrite sort_desc_perm.
  symmetry. apply Permutation_rev.
Qed.

Lemma order_groups_desc_In (x : A) (l : list A) :
  In x (Sql.order_groups_desc lt l) <-> In x l.
Proof.
  split; apply Permutation_in; [|symmetry]; apply order_groups_desc_perm.
Qed.

Lemma order_groups_desc_length (l : list A) :
  length (Sql.order_groups_desc lt l) = length l.
Proof. apply Permutation_length, order_groups_desc_perm. Qed.

End SortFacts.

(** The order of the BINARY collation is a strict total order. *)
Section TextOrder.

Lemma ascii_compare_lt_trans (a b c : ascii) :
  Ascii.compare a b = Lt -> Ascii.compare b c = Lt -> Ascii.compare a c = Lt.
Proof.
  unfold Ascii.compare. rewrite !N.compare_lt_iff. apply N.lt_trans.
Qed.

Lemma string_compare_lt_trans (a b c : string) :
  String.compare a b = Lt -> String.compare b c = Lt -> String.compare a c = Lt.
Proof.
  revert b c. induction a as [|x a IH]; intros [|y b] [|z c]; simpl;
    try discriminate; try reflexivity.
  destruct (Ascii.compare x y) eqn:Exy; try discriminate;
    destruct (Ascii.compare y z) eqn:Eyz; try discriminate; intros H1 H2.
  - apply Ascii.compare_eq_iff in Exy, Eyz. subst.
    assert (Ascii.compare z z = Eq) as ->.
    { unfold Ascii.compare. apply N.compare_refl. }
    exact (IH _ _ H1 H2).
  - apply Ascii.compare_eq_iff in Exy. subst. rewrite Eyz. reflexivity.
  - apply Ascii.compare_eq_iff in Eyz. subst. rewrite Exy. reflexivity.
  - rewrite (ascii_compare_lt_trans _ _ _ Exy Eyz). reflexivity.
Qed.

Lemma text_ltb_asym (x y : string) :
  Sql.text_ltb x y = true -> Sql.text_ltb y x = false.
Proof.
  unfold Sql.text_ltb. rewrite (String.compare_antisym x y).
  destruct (String.compare y x); simpl; intros H; try discriminate; reflexivity.
Qed.

Lemma text_nlt_trans (x y z : string) :
  Sql.text_ltb x y = false -> Sql.text_ltb y z = false -> Sql.text_ltb x z = false.
Proof.
  unfold Sql.text_ltb. intros Hxy Hyz.
  destruct (String.compare x z) eqn:Exz; try reflexivity. exfalso.
  destruct (String.compare x y) eqn:Exy; try discriminate.
  - apply String.compare_eq_iff in Exy. subst. rewrite Exz in Hyz. discriminate.
  - assert (Eyx : String.compare y x = Lt).
    { rewrite String.compare_antisym, Exy. reflexivity. }
    rewrite (string_compare_lt_trans _ _ _ Eyx Exz) in Hyz. discriminate.
Qed.

Lemma opt_text_ltb_asym (x y : option string) :
  Sql.opt_text_ltb x y = true -> Sql.opt_text_ltb y x = false.
Proof.
  destruct x, y; simpl; try discriminate; try reflexivity. apply text_ltb_asym.
Qed.

Lemma opt_text_nlt_trans (x y z : option string) :
  Sql.opt_text_ltb x y = false -> Sql.opt_text_ltb y z = false ->
  Sql.opt_text_ltb x z = false.
Proof.
  destruct x, y, z; simpl; try discriminate; try reflexivity. apply text_nlt_trans.
Qed.

End TextOrder.

(** [sort_desc] sorts, for an order that is asymmetric and whose
    complement is transitive. *)
Section Sorted.
Context {A : Type} (lt : A -> A -> bool).
Hypothesis lt_asym : forall x y, lt x y = true -> lt y x = false.
Hypothesis nlt_trans :
  forall x y z, lt x y = false -> lt y z = false -> lt x z = false.

Lemma insert_desc_sorted (x : A) (l : list A) :
  StronglySorted (fun x y => lt x y = false) l -> StronglySorted (fun x y => lt x y = false) (Sql.insert_desc lt x l).
Proof.
  induction l as [|y l IH]; intros Hs; simpl.
  - constructor; constructor.
  - apply StronglySorted_inv in Hs as [Hs Hy].
    destruct (lt x y) eqn:E.
    + constructor; [exact (IH Hs)|].
      rewrite List.Forall_forall in *. intros z Hz.
      apply (Permutation_in _ (insert_desc_perm lt x l)) in Hz.
      destruct Hz as [<-|Hz]; [exact (lt_asym _ _ E) | exact (Hy z Hz)].
    + constructor; [constructor; assumption|].
      constructor; [exact E|].
      rewrite List.Forall_forall in *. intros z Hz.
      exact (nlt_trans _ _ _ E (Hy z Hz)).
Qed.

Lemma sort_desc_sorted (l : list A) : StronglySorted (fun x y => lt x y = false) (Sql.sort_desc lt l).
Proof.
  induction l as [|x l IH]; simpl; [constructor|].
  apply insert_desc_sorted. exact IH.
Qed.

Lemma sorted_app_geq (l1 l2 : list A) :
  StronglySorted (fun x y => lt x y = false) (l1 ++ l2) ->
  forall x y, In x l1 -> In y l2 -> lt x y = false.
Proof.
  induction l1 as [|a l1 IH]; simpl; intros Hs x y Hx Hy; [contradiction|].
  apply StronglySorted_inv in Hs as [Hs Ha].
  destruct Hx as [<-|Hx].
  - rewrite List.Forall_forall in Ha. apply Ha. apply in_or_app. right. exact Hy.
  - exact (IH Hs x y Hx Hy).
Qed.

(** The first [n] rows of the sorted list dominate the others. *)
Lemma limit_sort_desc (n : Z) (l : list A) :
  exists rest,
    Permutation (Sql.limit n (Sql.sort_desc lt l) ++ rest) l
    /\ (0 <= n -> Z.of_nat (length (Sql.limit n (Sql.sort_desc lt l))) <= n)
    /\ forall x y, In x (Sql.limit n (Sql.sort_desc lt l)) -> In y rest ->
                   lt x y = false.
Proof.
  unfold Sql.limit. destruct (n <? 0) eqn:En.
  - exists []. rewrite app_nil_r. split; [apply sort_desc_perm|].
    split; [lia|]. intros x y _ [].
  - exists (skipn (Z.to_nat n) (Sql.sort_desc lt l)).
    rewrite firstn_skipn. split; [apply sort_desc_perm|]. split.
    + intros _. rewrite length_firstn. lia.
    + apply sorted_app_geq. rewrite firstn_skipn. apply sort_desc_sorted.
Qed.

Lemma order_groups_desc_sorted (l : list A) :
  StronglySorted (fun x y => lt x y = false) (Sql.order_groups_desc lt l).
Proof. apply sort_desc_sorted. Qed.

Lemma limit_order_groups_desc (n : Z) (l : list A) :
  exists rest,
    Permutation (Sql.limit n (Sql.order_groups_desc lt l) ++ rest) l
    /\ (0 <= n -> Z.of_nat (length (Sql.limit n (Sql.order_groups_desc lt l))) <= n)
    /\ forall x y, In x (Sql.limit n (Sql.order_groups_desc lt l)) -> In y rest ->
                   lt x y = false.
Proof.
  destruct (limit_sort_desc n (rev l)) as (rest & P & Hlen & Hmax).
  exists rest. split; [|split; assumption].
  rewrite P. symmetry. apply Permutation_rev.
Qed.

End Sorted.

Section WindowFacts.
Import Schema Ranking.

(** The ids of a window are ids of finished matches. *)
Lemma last_matches_stored db tid n mid :
  In mid (last_matches db tid n) ->
  exists m, In m (matches db) /\ m_finished m = true /\ m_id m = mid.
Proof.
  unfold last_matches. intros H. apply in_map_iff in H as (m & E & Hm).
  exists m. cut (In m (matches db) /\ m_finished m = true); [tauto|].
  assert (Hs : In m (Sql.sort_desc date_lt
                       (List.filter (fun m => plays tid m && m_finished m)
                                    (matches db)))).
  { unfold Sql.limit in Hm. destruct (n <? 0); [exact Hm|].
    rewrite <- (firstn_skipn (Z.to_nat n)). apply in_or_app. left. exact Hm. }
  apply sort_desc_In in Hs. apply filter_In in Hs as [Hin Hb].
  apply andb_true_iff in Hb. tauto.
Qed.

Lemma plain_window db tid n :
  Spec.plain_ids db -> spliced (last_matches db tid n) = true.
Proof.
  intros Hp. unfold spliced. apply forallb_forall. intros mid Hin.
  destruct (last_matches_stored db tid n mid Hin) as (m & Hm & Hf & <-).
  exact (Hp m Hm Hf).
Qed.

Lemma known_total_made db category filter_type tid W :
  Spec.known_category category -> spliced W = true ->
  exists t, total_made db category filter_type tid W = Some t.
Proof.
  intros [-> | [-> | [-> | ->]]] HW; unfold total_made; rewrite HW; simpl;
    eexists; reflexivity.
Qed.

Lemma known_total_against db category filter_type tid W :
  Spec.known_category category -> spliced W = true ->
  exists t, total_against db category filter_type tid W = Some t.
Proof.
  intros [-> | [-> | [-> | ->]]] HW; unfold total_against; rewrite HW; simpl;
    eexists; reflexivity.
Qed.

(** The guard [pj > 0] keeps the division away from zero. *)
Lemma window_avg_defined (total pj : Z) :
  0 <= pj -> exists v, window_avg total pj = Some v.
Proof.
  intros Hpj. unfold window_avg, Py.truediv.
  destruct (pj >? 0) eqn:E.
  - assert ((pj =? 0) = false) as -> by lia. eexists; reflexivity.
  - eexists; reflexivity.
Qed.

Lemma team_window_known db category filter_type n tm tid :
  Spec.known_category category -> Spec.plain_ids db ->
  exists em ea,
    team_window db category filter_type n tm tid = Some (em, ea)
    /\ e_id em = tid /\ e_id ea = tid.
Proof.
  intros Hk Hp. unfold team_window.
  destruct (Z.of_nat (length (last_matches db tid n)) =? 0) eqn:E.
  - do 2 eexists. split; [reflexivity|]. split; reflexivity.
  - destruct (known_total_made db category filter_type tid
                (last_matches db tid n) Hk (plain_window db tid n Hp)) as [tm_ ->].
    destruct (known_total_against db category filter_type tid
                (last_matches db tid n) Hk (plain_window db tid n Hp)) as [ta_ ->].
    destruct (window_avg_defined tm_ (Z.of_nat (length (last_matches db tid n)))
                ltac:(lia)) as [vm ->].
    destruct (window_avg_defined ta_ (Z.of_nat (length (last_matches db tid n)))
                ltac:(lia)) as [va ->].
    do 2 eexists. split; [reflexivity|]. split; reflexivity.
Qed.

(** What the loop returns, team by team. *)
Lemma window_loop_known db category filter_type n tm ids :
  Spec.known_category category -> Spec.plain_ids db ->
  exists made against,
    window_loop db category filter_type n tm ids = Some (made, against)
    /\ (forall tid, In tid ids ->
          exists em ea, team_window db category filter_type n tm tid = Some (em, ea)
                        /\ In em made /\ In ea against)
    /\ (forall em, In em made ->
          exists ea, In (e_id em) ids
                     /\ team_window db category filter_type n tm (e_id em)
                        = Some (em, ea))
    /\ (forall ea, In ea against ->
          exists em, In (e_id ea) ids
                     /\ team_window db category filter_type n tm (e_id ea)
                        = Some (em, ea)).
Proof.
  intros Hk Hp. induction ids as [|tid ids IH]; simpl.
  - exists [], []. split; [reflexivity|]. repeat split; intros ? [].
  - destruct (team_window_known db category filter_type n tm tid Hk Hp)
      as (em & ea & Htw & Hem & Hea).
    destruct IH as (made & against & Hloop & Hall & Hmade & Hagainst).
    rewrite Htw, Hloop.
    exists (em :: made), (ea :: against). split; [reflexivity|]. repeat split.
    + intros t [<-|Hin].
      * exists em, ea. split; [exact Htw|]. split; left; reflexivity.
      * destruct (Hall t Hin) as (em' & ea' & H1 & H2 & H3).
        exists em', ea'. split; [exact H1|]. split; right; assumption.
    + intros e [<-|Hin].
      * exists ea. rewrite Hem. split; [left; reflexivity | exact Htw].
      * destruct (Hmade e Hin) as (ea' & H1 & H2).
        exists ea'. split; [right; exact H1 | exact H2].
    + intros e [<-|Hin].
      * exists em. rewrite Hea. split; [left; reflexivity | exact Htw].
      * destruct (Hagainst e Hin) as (em' & H1 & H2).
        exists em'. split; [right; exact H1 | exact H2].
Qed.

(** The windowed call, for a known category, never raises; its two lists
    hold exactly the per-team entries. *)
Lemma stats_windowed_known db category filter_type order_by n :
  Spec.known_category category -> Spec.plain_ids db ->
  exists made against,
    stats_windowed db category filter_type order_by n = Some (made, against)
    /\ (forall tid, In tid (team_ids db) ->
          exists em ea,
            team_window db category filter_type n (teams_map db) tid = Some (em, ea)
            /\ In em made /\ In ea against)
    /\ (forall em, In em made ->
          exists ea, In (e_id em) (team_ids db)
                     /\ team_window db category filter_type n (teams_map db) (e_id em)
                        = Some (em, ea))
    /\ (forall ea, In ea against ->
          exists em, In (e_id ea) (team_ids db)
                     /\ team_window db category filter_type n (teams_map db) (e_id ea)
                        = Some (em, ea)).
Proof.
  intros Hk Hp. unfold stats_windowed.
  destruct (window_loop_known db category filter_type n (teams_map db)
              (team_ids db) Hk Hp) as (made & against & -> & Hall & Hmade & Hagainst).
  do 2 eexists. split; [reflexivity|]. repeat split.
  - intros tid Hin. destruct (Hall tid Hin) as (em & ea & H1 & H2 & H3).
    exists em, ea. split; [exact H1|]. split; apply sort_desc_In; assumption.
  - intros em Hin. apply sort_desc_In in Hin. exact (Hmade em Hin).
  - intros ea Hin. apply sort_desc_In in Hin. exact (Hagainst ea Hin).
Qed.

Lemma get_team_stats_core_windowed db category filter_type order_by n :
  n <> 0 ->
  get_team_stats_core db category filter_type order_by (Some n)
  = stats_windowed db category filter_type order_by n.
Proof.
  intros Hn. unfold get_team_stats_core, limit_falsy.
  assert ((n =? 0) = false) as -> by lia. reflexivity.
Qed.


(** *** Window isolation *)

Lemma filter_and {A} (P Q : A -> bool) (l : list A) :
  List.filter (fun x => P x && Q x) l = List.filter P (List.filter Q l).
Proof.
  induction l as [|x l IH]; simpl; [reflexivity|].
  destruct (Q x); simpl.
  - rewrite andb_true_r. destruct (P x); [f_equal|]; exact IH.
  - rewrite andb_false_r. exact IH.
Qed.











End WindowFacts.

(** ** The 'against' direction *)

Section AgainstFacts.
Import Schema Ranking.

Lemma in_join {A B} (on : A -> B -> bool) (a : list A) (b : list B) (x : A) (y : B) :
  In (x, y) (Sql.join on a b) <-> In x a /\ In y b /\ on x y = true.
Proof.
  unfold Sql.join. rewrite in_flat_map. split.
  - intros (x' & Hx & Hin). apply in_map_iff in Hin as (y' & E & Hy).
    injection E as <- <-. apply filter_In in Hy as [Hy Hon]. auto.
  - intros (Hx & Hy & Hon). exists x. split; [exact Hx|].
    apply in_map_iff. exists y. split; [reflexivity|].
    apply filter_In. auto.
Qed.

Lemma distinct_In {A} (eqb : A -> A -> bool) (x : A) (l : list A) :
  In x (Sql.distinct eqb l) -> In x l.
Proof.
  induction l as [|y l IH]; simpl; [tauto|].
  intros [<-|H]; [left; reflexivity|].
  apply filter_In in H as [H _]. right. exact (IH H).
Qed.

(** A group holds the rows of its key, and its key is the key of a row. *)
Lemma group_by_In {A} (key : A -> option string) (rows : list A)
      (g : option string * list A) :
  In g (Sql.group_by key rows) ->
  snd g = List.filter (fun r => Sql.opt_text_eqb (key r) (fst g)) rows
  /\ In (fst g) (map key rows).
Proof.
  unfold Sql.group_by. intros H. apply in_map_iff in H as (k & <- & Hk).
  simpl. split; [reflexivity|].
  apply sort_desc_In in Hk. exact (distinct_In _ _ _ Hk).
Qed.

Lemma structure_In tm ob (rows : list StatRow) (e : Entry) :
  In e (structure tm (order_stats ob rows)) ->
  exists k total pj avg,
    In (k, total, pj, avg) rows /\ e_id e = str_opt k /\ e_total e = total.
Proof.
  unfold structure, order_stats. intros H.
  apply in_map_iff in H as ([[[k total] pj] avg] & <- & Hin).
  apply order_groups_desc_In in Hin. exists k, total, pj, avg. auto.
Qed.

(** The total of an entry of a counting query is the number of rows of
    its key. *)
Lemma count_groups_total {A} (key : A -> string) (mid : A -> string)
      (rows : list A) tm ob (e : Entry) :
  In e (structure tm (order_stats ob (count_groups (fun r => Some (key r)) mid rows))) ->
  e_total e = Sql.count (List.filter (fun r => String.eqb (key r) (e_id e)) rows).
Proof.
  intros H. apply structure_In in H as (k & total & pj & avg & Hin & Hid & Ht).
  unfold count_groups in Hin. apply in_map_iff in Hin as (g & E & Hg).
  injection E as <- <- _ _.
  apply group_by_In in Hg as [Hrows Hkey].
  apply in_map_iff in Hkey as (r0 & Hk & _).
  rewrite Ht, Hrows, Hid, <- Hk. reflexivity.
Qed.

(** The total of an entry of a summing query is the sum over the rows of
    its key. *)
Lemma sum_groups_total {A} (key : A -> string) (mid : A -> string) (col : A -> Z)
      (rows : list A) tm ob (e : Entry) :
  In e (structure tm (order_stats ob (sum_groups (fun r => Some (key r)) mid col rows))) ->
  e_total e
  = Sql.sum (map col (List.filter (fun r => String.eqb (key r) (e_id e)) rows)).
Proof.
  intros H. apply structure_In in H as (k & total & pj & avg & Hin & Hid & Ht).
  unfold sum_groups in Hin. apply in_map_iff in Hin as (g & E & Hg).
  injection E as <- <- _ _.
  apply group_by_In in Hg as [Hrows Hkey].
  apply in_map_iff in Hkey as (r0 & Hk & _).
  rewrite Ht, Hrows, Hid, <- Hk. reflexivity.
Qed.

(** On a match with two distinct sides, for an event of one of them,
    "the other side is [tid]" says that [tid] played the match and the
    event is not its own. *)
Lemma other_side_opponent (tid team : string) (m : MatchRow) :
  m_id_home_team m <> m_id_away_team m ->
  team = m_id_home_team m \/ team = m_id_away_team m ->
  String.eqb (other_side team m) tid = Spec.opponent_of tid team m.
Proof.
  intros Hne Hside. unfold other_side, Spec.opponent_of, plays.
  destruct (String.eqb_spec team (m_id_home_team m)) as [Eh|Nh].
  - subst team.
    destruct (String.eqb_spec (m_id_away_team m) tid) as [Ea|Na].
    + subst tid.
      destruct (String.eqb_spec (m_id_home_team m) (m_id_away_team m));
        [contradiction|reflexivity].
    + destruct (String.eqb_spec (m_id_home_team m) tid); reflexivity.
  - destruct Hside as [?|Ea]; [contradiction|]. subst team.
    destruct (String.eqb_spec (m_id_home_team m) tid) as [Eh|Nh'].
    + subst tid.
      destruct (String.eqb_spec (m_id_away_team m) (m_id_home_team m));
        [congruence|reflexivity].
    + destruct (String.eqb_spec (m_id_away_team m) tid); reflexivity.
Qed.

Lemma filter_false {A} (f : A -> bool) (l : list A) :
  (forall x, In x l -> f x = false) -> List.filter f l = [].
Proof.
  induction l as [|x l IH]; simpl; intros H; [reflexivity|].
  rewrite (H x (or_introl eq_refl)). apply IH. intros y Hy. apply H. right. exact Hy.
Qed.

(** On the rows of the join, the test of the code and the description of
    the specification select the same shots and cards. *)
Lemma shot_pair_opponent db tid (sm : ShotRow * MatchRow) :
  Spec.sides_ok db ->
  In sm (Sql.join shot_match (shots db) (matches db)) ->
  String.eqb (other_side (s_team_id (fst sm)) (snd sm)) tid
  = Spec.opponent_of tid (s_team_id (fst sm)) (snd sm).
Proof.
  intros (Hne & Hs & _) Hin. destruct sm as [sh m]. simpl.
  apply in_join in Hin as (H1 & H2 & H3).
  apply String.eqb_eq in H3.
  apply other_side_opponent; [exact (Hne m H2) | exact (Hs sh m H1 H2 H3)].
Qed.

Lemma card_pair_opponent db tid (cm : CardRow * MatchRow) :
  Spec.sides_ok db ->
  In cm (Sql.join card_match (cards db) (matches db)) ->
  String.eqb (other_side (c_team_id (fst cm)) (snd cm)) tid
  = Spec.opponent_of tid (c_team_id (fst cm)) (snd cm).
Proof.
  intros (Hne & _ & Hc) Hin. destruct cm as [c m]. simpl.
  apply in_join in Hin as (H1 & H2 & H3).
  apply String.eqb_eq in H3.
  apply other_side_opponent; [exact (Hne m H2) | exact (Hc c m H1 H2 H3)].
Qed.

(** The 'against' total of one team inside a set of matches. *)
Lemma total_against_count db category filter_type n tid :
  Spec.sides_ok db -> Spec.count_category category -> n <> 0 ->
  spliced (last_matches db tid n) = true ->
  total_against db category filter_type tid (last_matches db tid n)
  = Some (Spec.events_against db category filter_type (Some n) tid).
Proof.
  intros Hok Hc Hn Hsp. unfold total_against, Spec.events_against, Spec.in_scope.
  rewrite Hsp. cbn [negb].
  assert (limit_falsy (Some n) = false) as ->.
  { unfold limit_falsy. lia. }
  simpl (default 0 (Some n)).
  destruct Hc as [-> | [-> | ->]]; simpl; f_equal; f_equal;
    apply filter_ext_in; intros sm Hin.
  - rewrite (shot_pair_opponent db tid sm Hok Hin).
    destruct (Spec.opponent_of tid (s_team_id (fst sm)) (snd sm)),
             (Sql.text_in (s_match_id (fst sm)) (last_matches db tid n)),
             (shot_where filter_type (fst sm)); reflexivity.
  - rewrite (shot_pair_opponent db tid sm Hok Hin).
    destruct (Spec.opponent_of tid (s_team_id (fst sm)) (snd sm)),
             (Sql.text_in (s_match_id (fst sm)) (last_matches db tid n)),
             (is_header (fst sm)); reflexivity.
  - rewrite (card_pair_opponent db tid sm Hok Hin).
    destruct (Spec.opponent_of tid (c_team_id (fst sm)) (snd sm)),
             (Sql.text_in (c_match_id (fst sm)) (last_matches db tid n));
      reflexivity.
Qed.

(** With an empty window nothing is in scope. *)
Lemma events_against_empty db category filter_type n tid :
  n <> 0 -> last_matches db tid n = [] ->
  Spec.events_against db category filter_type (Some n) tid = 0.
Proof.
  intros Hn HW. unfold Spec.events_against, Spec.in_scope.
  assert (limit_falsy (Some n) = false) as ->.
  { unfold limit_falsy. lia. }
  simpl (default 0 (Some n)). rewrite HW. simpl Sql.text_in.
  destruct (String.eqb category "cards").
  - rewrite filter_false; [reflexivity|]. intros x _. reflexivity.
  - rewrite filter_false; [reflexivity|]. intros x _.
    rewrite andb_false_r. reflexivity.
Qed.

Lemma fouls_received_empty db n tid :
  n <> 0 -> last_matches db tid n = [] ->
  Spec.fouls_received_by db (Some n) tid = 0.
Proof.
  intros Hn HW. unfold Spec.fouls_received_by, Spec.in_scope.
  assert (limit_falsy (Some n) = false) as ->.
  { unfold limit_falsy. lia. }
  simpl (default 0 (Some n)). rewrite HW. simpl Sql.text_in.
  rewrite filter_false; [reflexivity|]. intros x _. apply andb_false_r.
Qed.

Lemma length_zero_nil {A} (l : list A) :
  (Z.of_nat (length l) =? 0) = true -> l = [].
Proof. destruct l; simpl; [reflexivity|lia]. Qed.

(** The entry the windowed loop builds for a team, 'against' side. *)
Lemma team_window_against db category filter_type n tm tid em ea :
  Spec.sides_ok db -> n <> 0 -> spliced (last_matches db tid n) = true ->
  team_window db category filter_type n tm tid = Some (em, ea) ->
  (Spec.count_category category ->
   e_total ea = Spec.events_against db category filter_type (Some n) tid)
  /\ (category = "fouls" -> e_total ea = Spec.fouls_received_by db (Some n) tid).
Proof.
  intros Hok Hn Hsp Htw. unfold team_window in Htw.
  destruct (Z.of_nat (length (last_matches db tid n)) =? 0) eqn:E.
  - apply length_zero_nil in E. injection Htw as <- <-. simpl. split; intros Hc.
    + symmetry. apply events_against_empty; assumption.
    + symmetry. apply fouls_received_empty; assumption.
  - destruct (total_made db category filter_type tid (last_matches db tid n))
      as [total_m|]; [|discriminate].
    destruct (total_against db category filter_type tid (last_matches db tid n))
      as [total_a|] eqn:Eta; [|discriminate].
    destruct (window_avg total_m _) as [avg_m|]; [|discriminate].
    destruct (window_avg total_a _) as [avg_a|]; [|discriminate].
    injection Htw as <- <-. simpl. split; intros Hc.
    + rewrite (total_against_count db category filter_type n tid Hok Hc Hn Hsp)
        in Eta.
      congruence.
    + subst category. unfold total_against in Eta. rewrite Hsp in Eta.
      simpl in Eta.
      injection Eta as <-. unfold Spec.fouls_received_by, Spec.in_scope.
      assert (limit_falsy (Some n) = false) as ->.
      { unfold limit_falsy. lia. }
      reflexivity.
Qed.

(** The entries of the unlimited 'against' query. *)
Lemma stats_unlimited_against db category filter_type order_by made against e :
  Spec.sides_ok db ->
  stats_unlimited db category filter_type order_by = Some (made, against) ->
  In e against ->
  (Spec.count_category category ->
   e_total e = Spec.events_against db category filter_type None (e_id e))
  /\ (category = "fouls" -> e_total e = Spec.fouls_received_by db None (e_id e)).
Proof.
  intros Hok Hres Hin. unfold stats_unlimited in Hres.
  destruct (made_q db category filter_type (sort_metric order_by)) as [rm|];
    [|discriminate].
  destruct (against_q db category filter_type (sort_metric order_by)) as [ra|] eqn:Eq;
    [|discriminate].
  injection Hres as <- <-.
  unfold Spec.events_against, Spec.fouls_received_by, Spec.in_scope. simpl limit_falsy.
  cbv iota.
  split; intros Hc.
  - destruct Hc as [-> | [-> | ->]]; unfold against_q in Eq; simpl in Eq;
      injection Eq as <-.
    + apply (count_groups_total
               (fun sm : ShotRow * MatchRow => other_side (s_team_id (fst sm)) (snd sm)))
        in Hin.
      rewrite Hin. simpl. f_equal. rewrite <- filter_and.
      apply filter_ext_in. intros sm Hsm.
      rewrite (shot_pair_opponent db (e_id e) sm Hok Hsm).
      destruct (Spec.opponent_of (e_id e) (s_team_id (fst sm)) (snd sm)),
               (shot_where filter_type (fst sm)); reflexivity.
    + apply (count_groups_total
               (fun sm : ShotRow * MatchRow => other_side (s_team_id (fst sm)) (snd sm)))
        in Hin.
      rewrite Hin. simpl. f_equal. rewrite <- filter_and.
      apply filter_ext_in. intros sm Hsm.
      rewrite (shot_pair_opponent db (e_id e) sm Hok Hsm).
      destruct (Spec.opponent_of (e_id e) (s_team_id (fst sm)) (snd sm)),
               (is_header (fst sm)); reflexivity.
    + apply (count_groups_total
               (fun cm : CardRow * MatchRow => other_side (c_team_id (fst cm)) (snd cm)))
        in Hin.
      rewrite Hin. simpl. f_equal.
      apply filter_ext_in. intros cm Hcm.
      rewrite (card_pair_opponent db (e_id e) cm Hok Hcm). reflexivity.
  - subst category. unfold against_q in Eq; simpl in Eq. injection Eq as <-.
    apply (sum_groups_total p_team_id) in Hin. rewrite Hin.
    f_equal. f_equal. apply filter_ext. intros p0. rewrite andb_true_r. reflexivity.
Qed.

(** What the loop returned, read backwards. *)
Lemma window_loop_inv db category filter_type n tm ids made against :
  window_loop db category filter_type n tm ids = Some (made, against) ->
  forall ea, In ea against ->
    exists tid em, team_window db category filter_type n tm tid = Some (em, ea).
Proof.
  revert made against. induction ids as [|tid ids IH]; simpl; intros made against H.
  - injection H as <- <-. intros ea [].
  - destruct (team_window db category filter_type n tm tid) as [[em0 ea0]|] eqn:Etw;
      [|discriminate].
    destruct (window_loop db category filter_type n tm ids) as [[ms as_]|];
      [|discriminate].
    injection H as <- <-. intros ea [<-|Hin].
    + exists tid, em0. exact Etw.
    + exact (IH ms as_ eq_refl ea Hin).
Qed.

Lemma team_window_id db category filter_type n tm tid em ea :
  team_window db category filter_type n tm tid = Some (em, ea) ->
  e_id em = tid /\ e_id ea = tid.
Proof.
  unfold team_window. intros H.
  destruct (Z.of_nat (length (last_matches db tid n)) =? 0).
  - injection H as <- <-. split; reflexivity.
  - destruct (total_made _ _ _ _ _); [|discriminate].
    destruct (total_against _ _ _ _ _); [|discriminate].
    destruct (window_avg _ _); [|discriminate].
    destruct (window_avg _ _); [|discriminate].
    injection H as <- <-. split; reflexivity.
Qed.

Lemma events_against_unlimited db category filter_type limit tid :
  limit_falsy limit = true ->
  Spec.events_against db category filter_type limit tid
  = Spec.events_against db category filter_type None tid.
Proof.
  intros H. unfold Spec.events_against, Spec.in_scope. rewrite H. reflexivity.
Qed.

Lemma fouls_received_unlimited db limit tid :
  limit_falsy limit = true ->
  Spec.fouls_received_by db limit tid = Spec.fouls_received_by db None tid.
Proof.
  intros H. unfold Spec.fouls_received_by, Spec.in_scope. rewrite H. reflexivity.
Qed.

(** C4, counterexample.  In the sample league team A played match 1
    against B, whose player committed two fouls there; the 'against'
    total of A for fouls is nevertheless 0, the fouls received recorded on
    A's own appearances, with or without a window. *)
Lemma fouls_against_is_not_opponent_fouls :
  Spec.fouls_against Sample.db "A" = 2
  /\ (exists made against e,
        get_team_stats_core Sample.db "fouls" "all" "total" None
        = Some (made, against)
        /\ In e against /\ e_id e = "A" /\ e_total e = 0)
  /\ (exists made against e,
        get_team_stats_core Sample.db "fouls" "all" "total" (Some 5)
        = Some (made, against)
        /\ In e against /\ e_id e = "A" /\ e_total e = 0).
Proof.
  split; [vm_compute; reflexivity|]. split.
  - eexists _, _, _. split; [vm_compute; reflexivity|].
    split; [right; left; reflexivity|]. split; reflexivity.
  - eexists _, _, _. split; [vm_compute; reflexivity|].
    split; [left; reflexivity|]. split; reflexivity.
Qed.

(** C4, as amended.  For shots, headers and cards the 'against' total of
    an entity counts the events of that type made by its opponents in
    the matches in scope that the entity played, each event joined to its
    match to find the other side.  For fouls no join takes place: the
    'against' total is the sum of the fouls received recorded on the
    entity's own appearances in the matches in scope.  With a window the
    match ids are plain, so that the list of ids written into the queries
    is the window; without one no id is written into a query. *)
Theorem against_direction db category filter_type order_by limit made against e :
  Spec.sides_ok db ->
  (limit_falsy limit = false -> Spec.plain_ids db) ->
  get_team_stats_core db category filter_type order_by limit = Some (made, against) ->
  In e against ->
  (Spec.count_category category ->
   e_total e = Spec.events_against db category filter_type limit (e_id e))
  /\ (category = "fouls" -> e_total e = Spec.fouls_received_by db limit (e_id e)).
Proof.
  intros Hok Hp Hres Hin. unfold get_team_stats_core in Hres.
  destruct (limit_falsy limit) eqn:El.
  - rewrite (events_against_unlimited _ _ _ _ _ El), (fouls_received_unlimited _ _ _ El).
    exact (stats_unlimited_against _ _ _ _ _ _ _ Hok Hres Hin).
  - destruct limit as [n|]; [|discriminate]. simpl in Hres, El.
    assert (Hn : n <> 0) by lia.
    unfold stats_windowed in Hres.
    destruct (window_loop db category filter_type n (teams_map db) (team_ids db))
      as [[ms as_]|] eqn:Eloop; [|discriminate].
    injection Hres as <- <-. apply sort_desc_In in Hin.
    destruct (window_loop_inv _ _ _ _ _ _ _ _ Eloop e Hin) as (tid & em & Htw).
    destruct (team_window_id _ _ _ _ _ _ _ _ Htw) as [_ Hid]. rewrite Hid.
    exact (team_window_against _ _ _ _ _ _ _ _ Hok Hn
             (plain_window db tid n (Hp eq_refl)) Htw).
Qed.

Lemma sample_sides_ok : Spec.sides_ok Sample.db.
Proof.
  split; [|split].
  - intros m [<-|[<-|[<-|[]]]]; discriminate.
  - intros s m [<-|[<-|[<-|[]]]] [<-|[<-|[<-|[]]]]; simpl; intros H;
      try discriminate; auto.
  - intros c m [<-|[]] [<-|[<-|[<-|[]]]]; simpl; intros H;
      try discriminate; auto.
Defined.

Lemma sample_plain : Spec.plain_ids Sample.db.
Proof. intros m [<-|[<-|[<-|[]]]] _; reflexivity. Defined.

(** Over its last finished match, match 2, team A has one shot against,
    the shot of C there; the shot of B in match 1 is out of scope. *)
Lemma against_direction_witness :
  exists made against e,
    get_team_stats_core Sample.db "shots" "all" "total" (Some 1)
    = Some (made, against)
    /\ In e against /\ e_id e = "A" /\ e_total e = 1
    /\ e_total e = Spec.events_against Sample.db "shots" "all" (Some 1) "A".
Proof.
  eexists _, _, {| e_id := "A"; e_name := Some "A"; e_total := 1; e_pj := 1;
                   e_avg := Py.NFloat 1 |}.
  split; [vm_compute; reflexivity|].
  split; [left; reflexivity|]. split; [reflexivity|]. split; [reflexivity|].
  refine (proj1 (against_direction Sample.db "shots" "all" "total" (Some 1) _ _ _
                   sample_sides_ok (fun _ => sample_plain) eq_refl _) _).
  - left. reflexivity.
  - left. reflexivity.
Defined.

End AgainstFacts.

(** ** The properties of the window on the sample league *)

Section WindowExamples.
Import Schema Ranking.



End WindowExamples.

(* ===================================================================== *)
(** * Properties of the ingestion *)
(* ===================================================================== *)

Section IngestFacts.
Import Schema Ingest.

Lemma filter_id_other (match_id : string) (l : list MatchRow) :
  List.filter (fun m => String.eqb (m_id m) match_id)
    (List.filter (fun m => negb (String.eqb (m_id m) match_id)) l) = [].
Proof.
  apply filter_false. intros m Hm. apply filter_In in Hm as [_ Hm].
  apply negb_true_iff in Hm. exact Hm.
Qed.

Lemma filter_other_idem (match_id : string) (l : list MatchRow) :
  List.filter (fun m => negb (String.eqb (m_id m) match_id))
    (List.filter (fun m => negb (String.eqb (m_id m) match_id)) l)
  = List.filter (fun m => negb (String.eqb (m_id m) match_id)) l.
Proof.
  rewrite <- filter_and. apply filter_ext. intros m. apply andb_diag.
Qed.

(** C7.  Ingesting a payload that reports the match as not finished
    leaves the appearance, shot and card tables as they were; afterwards
    the match table holds exactly one row for the match id, the row built
    from the payload, and its rows for other ids are unchanged. *)
Theorem pending_match_only_upserts db match_id r :
  finished r = false ->
  player_match_details (load_match_directly match_id (Some r) db)
  = player_match_details db
  /\ shots (load_match_directly match_id (Some r) db) = shots db
  /\ cards (load_match_directly match_id (Some r) db) = cards db
  /\ List.filter (fun m => String.eqb (m_id m) match_id)
       (matches (load_match_directly match_id (Some r) db))
     = [match_row match_id r]
  /\ List.filter (fun m => negb (String.eqb (m_id m) match_id))
       (matches (load_match_directly match_id (Some r) db))
     = List.filter (fun m => negb (String.eqb (m_id m) match_id)) (matches db).
Proof.
  intros Hfin. unfold load_match_directly, load_body, bind, upsert_match, ret.
  rewrite Hfin. simpl.
  split; [reflexivity|]. split; [reflexivity|]. split; [reflexivity|].
  rewrite !List.filter_app. simpl. rewrite String.eqb_refl. simpl.
  rewrite filter_id_other, filter_other_idem, app_nil_r. split; reflexivity.
Qed.

Lemma pending_match_only_upserts_witness :
  let db' := load_match_directly "1" (Some (Sample.a_payload false [])) Sample.db in
  player_match_details db' = player_match_details Sample.db
  /\ shots db' = shots Sample.db
  /\ cards db' = cards Sample.db
  /\ length (matches db') = 3%nat.
Proof.
  destruct (pending_match_only_upserts Sample.db "1" (Sample.a_payload false []))
    as (Hp & Hs & Hc & _).
  - reflexivity.
  - cbv zeta. split; [exact Hp|]. split; [exact Hs|]. split; [exact Hc|].
    vm_compute. reflexivity.
Defined.

(** *** Re-ingesting a finished match *)

Lemma insert_player_rows_app (rows table table' : list PlayerRow) :
  insert_player_rows rows table = Some table' -> table' = (table ++ rows)%list.
Proof.
  revert table. induction rows as [|r0 rows IH]; simpl; intros table H.
  - injection H as <-. rewrite app_nil_r. reflexivity.
  - destruct (existsb (player_key_eqb r0) table); [discriminate|].
    rewrite (IH _ H), <- app_assoc. reflexivity.
Qed.

Lemma player_key_eqb_refl (r0 : PlayerRow) : player_key_eqb r0 r0 = true.
Proof. unfold player_key_eqb. rewrite !String.eqb_refl. reflexivity. Qed.

(** A batch whose rows are already in the table is rejected. *)
Lemma insert_player_rows_again (rows table : list PlayerRow) :
  rows <> [] -> insert_player_rows rows (table ++ rows)%list = None.
Proof.
  destruct rows as [|r0 rows]; [congruence|]. intros _. simpl.
  assert (existsb (player_key_eqb r0) (table ++ r0 :: rows)%list = true) as ->.
  { apply existsb_exists. exists r0. split; [|apply player_key_eqb_refl].
    apply in_or_app. right. left. reflexivity. }
  reflexivity.
Qed.

(** The child tables after the ingestion of a finished match. *)
Lemma load_finished_children db match_id r :
  finished r = true ->
  Spec.children (load_match_directly match_id (Some r) db)
  = match (if is_nil (player_rows match_id r) then Some (player_match_details db)
           else insert_player_rows (player_rows match_id r) (player_match_details db))
    with
    | None => Spec.children db
    | Some table =>
        (table,
         (shots db ++ number_shots (shot_seq db) (shot_rows match_id r))%list,
         (cards db ++ number_cards (card_seq db) (card_rows match_id r))%list)
    end.
Proof.
  intros Hfin. unfold Spec.children, load_match_directly, load_body, bind, upsert_match.
  rewrite Hfin. simpl negb. cbv iota.
  destruct (is_nil (player_rows match_id r)) eqn:Enil.
  - unfold ret at 1. cbv beta iota.
    destruct (shot_rows match_id r) as [|s0 ss] eqn:Es;
      destruct (card_rows match_id r) as [|c0 cs] eqn:Ec; simpl;
      rewrite ?app_nil_r; reflexivity.
  - unfold append_players. simpl.
    destruct (insert_player_rows (player_rows match_id r) (player_match_details db))
      as [table|]; [|reflexivity].
    destruct (shot_rows match_id r) as [|s0 ss] eqn:Es;
      destruct (card_rows match_id r) as [|c0 cs] eqn:Ec; simpl;
      rewrite ?app_nil_r; reflexivity.
Qed.

Lemma is_nil_false {A} (l : list A) : l <> [] -> is_nil l = false.
Proof. destruct l; [congruence|reflexivity]. Qed.

(** A second ingestion of a finished match with a lineup, or without any
    shot and card, leaves the three child tables as the first one left
    them. *)
Lemma reingest_children db match_id r :
  finished r = true ->
  player_rows match_id r <> []
  \/ (shot_rows match_id r = [] /\ card_rows match_id r = []) ->
  Spec.children (load_match_directly match_id (Some r)
              (load_match_directly match_id (Some r) db))
  = Spec.children (load_match_directly match_id (Some r) db).
Proof.
  intros Hfin Hcase.
  rewrite (load_finished_children (load_match_directly match_id (Some r) db) _ _ Hfin).
  pose proof (load_finished_children db match_id r Hfin) as H1.
  destruct (player_rows match_id r) as [|r0 rows] eqn:Erows.
  - destruct Hcase as [?|[Es Ec]]; [congruence|].
    simpl is_nil in *. cbv iota in *. rewrite Es, Ec in *. simpl.
    rewrite !app_nil_r. reflexivity.
  - simpl is_nil in *. cbv iota in *.
    destruct (insert_player_rows (r0 :: rows) (player_match_details db))
      as [table|] eqn:Eins.
    + apply insert_player_rows_app in Eins. subst table.
      assert (Hp : player_match_details (load_match_directly match_id (Some r) db)
                   = (player_match_details db ++ r0 :: rows)%list).
      { unfold Spec.children in H1. congruence. }
      rewrite Hp, insert_player_rows_again by discriminate. reflexivity.
    + assert (Hp : player_match_details (load_match_directly match_id (Some r) db)
                   = player_match_details db).
      { unfold Spec.children in H1. congruence. }
      rewrite Hp, Eins. reflexivity.
Qed.

(** C3, counterexample.  A finished match whose payload has a shot but
    no lineup yet: one ingestion stores one shot, a second ingestion of
    the same payload stores it again. *)
Lemma reingest_duplicates_shots :
  finished (Sample.a_payload true []) = true
  /\ length (shots (load_match_directly "7" (Some (Sample.a_payload true []))
                     empty_db)) = 1%nat
  /\ length (shots (load_match_directly "7" (Some (Sample.a_payload true []))
                     (load_match_directly "7" (Some (Sample.a_payload true []))
                        empty_db))) = 2%nat.
Proof. repeat split; vm_compute; reflexivity. Qed.

(** C3, as amended.  For every finished-match payload whose lineup yields
    at least one appearance row (or that yields no shot and no card row),
    running the ingestion twice with the same match id leaves the same
    number of rows in the appearance, shot and card tables as running it
    once: the repeated bulk insert of the appearances violates the primary
    key [(match_id, player_id)] and aborts the second run before any shot
    or card is appended. *)
Theorem reingest_same_counts db match_id r :
  finished r = true ->
  player_rows match_id r <> []
  \/ (shot_rows match_id r = [] /\ card_rows match_id r = []) ->
  length (player_match_details
            (load_match_directly match_id (Some r)
               (load_match_directly match_id (Some r) db)))
  = length (player_match_details (load_match_directly match_id (Some r) db))
  /\ length (shots (load_match_directly match_id (Some r)
                      (load_match_directly match_id (Some r) db)))
     = length (shots (load_match_directly match_id (Some r) db))
  /\ length (cards (load_match_directly match_id (Some r)
                      (load_match_directly match_id (Some r) db)))
     = length (cards (load_match_directly match_id (Some r) db)).
Proof.
  intros Hfin Hcase. pose proof (reingest_children db match_id r Hfin Hcase) as H.
  pose proof (f_equal (fun t => fst (fst t)) H) as Hp.
  pose proof (f_equal (fun t => snd (fst t)) H) as Hs.
  pose proof (f_equal snd H) as Hc.
  cbv beta delta [Spec.children fst snd] iota in Hp, Hs, Hc.
  rewrite Hp, Hs, Hc. repeat split; reflexivity.
Qed.

Lemma reingest_same_counts_witness :
  let p := Sample.a_payload true [Sample.a_raw_player 101] in
  length (player_match_details (load_match_directly "7" (Some p) empty_db)) = 1%nat
  /\ length (shots (load_match_directly "7" (Some p) empty_db)) = 1%nat
  /\ length (shots (load_match_directly "7" (Some p)
                      (load_match_directly "7" (Some p) empty_db))) = 1%nat.
Proof.
  destruct (reingest_same_counts empty_db "7"
              (Sample.a_payload true [Sample.a_raw_player 101]))
    as (Hp & Hs & Hc).
  - reflexivity.
  - left. vm_compute. discriminate.
  - cbv zeta. split; [vm_compute; reflexivity|]. split; [vm_compute; reflexivity|].
    rewrite Hs. vm_compute. reflexivity.
Defined.

(** X28.  Without a lineup nothing stops the second run: every shot and card
    row of the payload is stored once more. *)
Lemma reingest_without_lineup db match_id r :
  finished r = true -> player_rows match_id r = [] ->
  length (shots (load_match_directly match_id (Some r)
                   (load_match_directly match_id (Some r) db)))
  = (length (shots db) + 2 * length (shot_rows match_id r))%nat
  /\ length (cards (load_match_directly match_id (Some r)
                      (load_match_directly match_id (Some r) db)))
     = (length (cards db) + 2 * length (card_rows match_id r))%nat.
Proof.
  intros Hfin Hrows.
  pose proof (load_finished_children
                (load_match_directly match_id (Some r) db) match_id r Hfin) as H2.
  pose proof (load_finished_children db match_id r Hfin) as H1.
  rewrite Hrows in H1, H2. simpl is_nil in H1, H2. cbv iota in H1, H2.
  pose proof (f_equal (fun t => snd (fst t)) H2) as Hs2.
  pose proof (f_equal snd H2) as Hc2.
  pose proof (f_equal (fun t => snd (fst t)) H1) as Hs1.
  pose proof (f_equal snd H1) as Hc1.
  cbv beta delta [Spec.children fst snd] iota in Hs1, Hs2, Hc1, Hc2.
  rewrite Hs2, Hc2, Hs1, Hc1.
  unfold number_shots, number_cards.
  rewrite !length_app, !length_map, !length_combine, !length_seq, !Nat.min_id.
  split; lia.
Qed.

End IngestFacts.

(* ===================================================================== *)
(** * Properties of the calendar and of [adjust_utc_to_arg] *)
(* ===================================================================== *)

Section CalendarFacts.
Import Datetime.

Lemma month_day_table :
  forallb (Spec.month_day_ok true) (Spec.zrange 0 366)
  && forallb (Spec.month_day_ok false) (Spec.zrange 0 365) = true.
Proof. vm_compute. reflexivity. Qed.

Lemma month_day_spec (leap : bool) (n : Z) :
  0 <= n < 365 + (if leap then 1 else 0) ->
  let m := fst (month_day leap n) in
  let d := snd (month_day leap n) in
  1 <= m <= 12
  /\ 1 <= d <= DAYS_IN_MONTH m + (if (m =? 2) && leap then 1 else 0)
  /\ DAYS_BEFORE_MONTH m + (if (2 <? m) && leap then 1 else 0) + d = n + 1.
Proof.
  intros Hn. pose proof month_day_table as T.
  apply andb_true_iff in T as [Tt Tf].
  rewrite forallb_forall in Tt, Tf.
  assert (Hok : Spec.month_day_ok leap n = true).
  { destruct leap; [apply Tt | apply Tf]; apply in_zrange; lia. }
  unfold Spec.month_day_ok in Hok. cbv zeta.
  repeat (apply andb_true_iff in Hok as [Hok ?]). lia.
Qed.

Lemma days_in_month_table (y m : Z) :
  1 <= m <= 12 ->
  days_in_month y m = DAYS_IN_MONTH m + (if (m =? 2) && is_leap y then 1 else 0).
Proof.
  intros Hm.
  assert (Hc : m = 1 \/ m = 2 \/ m = 3 \/ m = 4 \/ m = 5 \/ m = 6 \/ m = 7
               \/ m = 8 \/ m = 9 \/ m = 10 \/ m = 11 \/ m = 12) by lia.
  unfold days_in_month.
  repeat (destruct Hc as [->|Hc]); try subst m; simpl;
    destruct (is_leap y); reflexivity.
Qed.

Lemma days_before_month_bound (y m d : Z) :
  1 <= m <= 12 -> 1 <= d <= days_in_month y m ->
  1 <= days_before_month y m + d <= 365 + (if is_leap y then 1 else 0).
Proof.
  intros Hm.
  assert (Hc : m = 1 \/ m = 2 \/ m = 3 \/ m = 4 \/ m = 5 \/ m = 6 \/ m = 7
               \/ m = 8 \/ m = 9 \/ m = 10 \/ m = 11 \/ m = 12) by lia.
  unfold days_before_month, days_in_month.
  repeat (destruct Hc as [->|Hc]); try subst m; simpl;
    destruct (is_leap y); simpl; calc_tables; lia.
Qed.

(** A year has 365 days, a leap year one more. *)
Lemma days_before_year_succ (y : Z) :
  days_before_year (y + 1)
  = days_before_year y + 365 + (if is_leap y then 1 else 0).
Proof.
  unfold days_before_year, is_leap.
  destruct (y mod 4 =? 0) eqn:E4; destruct (y mod 100 =? 0) eqn:E100;
    destruct (y mod 400 =? 0) eqn:E400; simpl;
    Z.to_euclidean_division_equations; lia.
Qed.

Lemma days_before_year_mono (y y' : Z) :
  y <= y' -> days_before_year y <= days_before_year y'.
Proof.
  unfold days_before_year. intros H. Z.to_euclidean_division_equations; lia.
Qed.

(** The ordinal of a valid date lies in [1 .. MAXORDINAL]. *)
Lemma ymd2ord_range (y m d : Z) :
  1 <= y <= 9999 -> 1 <= m <= 12 -> 1 <= d <= days_in_month y m ->
  1 <= ymd2ord y m d <= MAXORDINAL.
Proof.
  intros Hy Hm Hd. unfold ymd2ord, MAXORDINAL.
  pose proof (days_before_month_bound y m d Hm Hd) as Hb.
  pose proof (days_before_year_succ y) as Hs.
  pose proof (days_before_year_mono 1 y ltac:(lia)) as H1.
  pose proof (days_before_year_mono (y + 1) 10000 ltac:(lia)) as H2.
  change (days_before_year 1) with 0 in H1.
  change (days_before_year 10000) with 3652059 in H2.
  lia.
Qed.

(** The leap test of [_ord2ymd] is [_is_leap] (the assertion in the
    Python source). *)
Lemma is_leap_cycles (a b c e : Z) :
  0 <= a -> 0 <= b <= 3 -> 0 <= c <= 24 -> 0 <= e <= 3 ->
  is_leap (a * 400 + 1 + b * 100 + c * 4 + e)
  = (e =? 3) && (negb (c =? 24) || (b =? 3)).
Proof.
  intros Ha Hb Hc He. unfold is_leap.
  destruct (e =? 3) eqn:E3; destruct (c =? 24) eqn:E24; destruct (b =? 3) eqn:Eb;
    destruct ((a * 400 + 1 + b * 100 + c * 4 + e) mod 4 =? 0) eqn:M4;
    destruct ((a * 400 + 1 + b * 100 + c * 4 + e) mod 100 =? 0) eqn:M100;
    destruct ((a * 400 + 1 + b * 100 + c * 4 + e) mod 400 =? 0) eqn:M400;
    simpl; try reflexivity; exfalso;
    Z.to_euclidean_division_equations; lia.
Qed.

(** [_ord2ymd] returns a valid date, and [_ymd2ord] takes it back. *)
Lemma ord2ymd_ymd2ord (n : Z) :
  1 <= n <= MAXORDINAL ->
  let y := fst (fst (ord2ymd n)) in
  let m := snd (fst (ord2ymd n)) in
  let d := snd (ord2ymd n) in
  1 <= y <= 9999 /\ 1 <= m <= 12 /\ 1 <= d <= days_in_month y m
  /\ ymd2ord y m d = n.
Proof.
  unfold MAXORDINAL. intros Hn. unfold ord2ymd.
  set (a := (n - 1) / 146097).
  set (r1 := (n - 1) mod 146097).
  set (b := r1 / 36524).
  set (r2 := r1 mod 36524).
  set (c := r2 / 1461).
  set (r3 := r2 mod 1461).
  set (e := r3 / 365).
  set (r4 := r3 mod 365).
  assert (F : n - 1 = 146097 * a + 36524 * b + 1461 * c + 365 * e + r4
              /\ 0 <= a /\ 0 <= b <= 4 /\ 0 <= c <= 24 /\ 0 <= e <= 4
              /\ 0 <= r4 < 365
              /\ (b = 4 -> c = 0 /\ e = 0 /\ r4 = 0)
              /\ (e = 4 -> r4 = 0 /\ c <= 23)).
  { subst a r1 b r2 c r3 e r4. Z.to_euclidean_division_equations; lia. }
  clearbody a r1 b r2 c r3 e r4.
  destruct F as (Fn & Fa & Fb & Fc & Fe & Fr & Fb4 & Fe4).
  destruct ((e =? 4) || (b =? 4)) eqn:E; cbv zeta; simpl fst; simpl snd.
  - assert (Hl : is_leap (a * 400 + 1 + b * 100 + c * 4 + e - 1) = true).
    { unfold is_leap. apply orb_true_iff in E.
      apply andb_true_iff. split.
      - apply Z.eqb_eq. destruct E as [E|E]; apply Z.eqb_eq in E;
          Z.to_euclidean_division_equations; lia.
      - apply orb_true_iff. destruct E as [E|E]; apply Z.eqb_eq in E.
        + left. apply negb_true_iff, Z.eqb_neq.
          Z.to_euclidean_division_equations; lia.
        + right. apply Z.eqb_eq. Z.to_euclidean_division_equations; lia. }
    split; [|split; [lia|split]].
    + apply orb_true_iff in E. destruct E as [E|E]; apply Z.eqb_eq in E; lia.
    + unfold days_in_month. simpl. lia.
    + unfold ymd2ord, days_before_month. rewrite Hl. simpl. calc_tables.
      unfold days_before_year.
      apply orb_true_iff in E. destruct E as [E|E]; apply Z.eqb_eq in E;
        Z.to_euclidean_division_equations; lia.
  - apply orb_false_iff in E as [E1 E2]. apply Z.eqb_neq in E1, E2.
    assert (Hl := is_leap_cycles a b c e Fa ltac:(lia) Fc ltac:(lia)).
    set (L := (e =? 3) && (negb (c =? 24) || (b =? 3))) in *.
    pose proof (month_day_spec L r4 ltac:(destruct L; lia)) as (Hm & Hd & Hsum).
    cbv zeta in Hm, Hd, Hsum.
    set (m := fst (month_day L r4)) in *. set (d := snd (month_day L r4)) in *.
    clearbody m d.
    split; [lia|]. split; [exact Hm|]. split.
    + rewrite (days_in_month_table _ m Hm), Hl. exact Hd.
    + unfold ymd2ord, days_before_month. rewrite Hl.
      assert (Hy : days_before_year (a * 400 + 1 + b * 100 + c * 4 + e)
                   = 146097 * a + 36524 * b + 1461 * c + 365 * e).
      { unfold days_before_year. Z.to_euclidean_division_equations; lia. }
      rewrite Hy. lia.
Qed.

(** [dt - timedelta(hours=h)]: the value [h] hours earlier on the time
    line when there is one, [OverflowError] when that would fall before
    0001-01-01 00:00:00. *)
Lemma sub_hours_spec (dt : datetime) (h : Z) :
  valid dt -> 0 <= h ->
  (Spec.MIN_TIMELINE <= timeline dt - h * 3600 ->
   exists r, sub_hours dt h = Some r /\ valid r
             /\ timeline r = timeline dt - h * 3600
             /\ microsecond r = microsecond dt /\ tzinfo r = tzinfo dt)
  /\ (timeline dt - h * 3600 < Spec.MIN_TIMELINE -> sub_hours dt h = None).
Proof.
  intros (Hy & Hm & Hd & Hh & Hmi & Hs & Hus) Hpos.
  pose proof (ymd2ord_range _ _ _ Hy Hm Hd) as Hord.
  unfold Spec.MIN_TIMELINE, timeline, sub_hours, toordinal, time_of_day, MAXORDINAL in *.
  set (o := ymd2ord (year dt) (month dt) (day dt)) in *. clearbody o.
  set (total := hour dt * 3600 + minute dt * 60 + second dt - h * 3600).
  assert (Ht : total < 86400) by (subst total; lia).
  split.
  - intros Hmin.
    assert (Hdays : 1 <= o + total / 86400 <= 3652059).
    { Z.to_euclidean_division_equations; lia. }
    assert ((0 <? o + total / 86400) && (o + total / 86400 <=? 3652059) = true) as ->.
    { apply andb_true_iff. split; lia. }
    pose proof (ord2ymd_ymd2ord (o + total / 86400) Hdays) as (Ry & Rm & Rd & Rord).
    cbv zeta in Ry, Rm, Rd, Rord.
    destruct (ord2ymd (o + total / 86400)) as [[y m] d]. simpl in Ry, Rm, Rd, Rord.
    eexists. split; [reflexivity|]. unfold valid. simpl.
    repeat split; try lia; Z.to_euclidean_division_equations; lia.
  - intros Hmin.
    assert ((0 <? o + total / 86400) = false) as ->.
    { apply Z.ltb_ge. Z.to_euclidean_division_equations; lia. }
    reflexivity.
Qed.

End CalendarFacts.

Section AdjustFacts.
Import Datetime Ingest.

(** Any implementation of [datetime.fromisoformat]; all that is used is
    that a value it returns passed the range checks of the constructor. *)
Variable parse : string -> option datetime.
Hypothesis parse_valid : forall s dt, parse s = Some dt -> valid dt.

(** C9, as amended.  [adjust_utc_to_arg] returns its argument unchanged
    when the string, with every [Z] replaced by [+00:00], does not parse.
    When it parses to a value at or after 0001-01-01 03:00:00, the result
    is the value exactly three hours earlier on the time line (same
    microseconds, same zone), formatted as [%Y-%m-%d %H:%M:%S].  When it
    parses to a value within the first three hours of year 1, the
    subtraction overflows and the argument comes back unchanged. *)
Theorem adjust_utc_to_arg_cases (utc_str : string) :
  (parse (replace_Z utc_str) = None ->
   adjust_utc_to_arg_with parse utc_str = utc_str)
  /\ (forall dt, parse (replace_Z utc_str) = Some dt ->
        (Spec.MIN_TIMELINE <= timeline dt - 3 * 3600 ->
         exists r, valid r /\ timeline r = timeline dt - 3 * 3600
                   /\ microsecond r = microsecond dt /\ tzinfo r = tzinfo dt
                   /\ adjust_utc_to_arg_with parse utc_str = strftime r)
        /\ (timeline dt - 3 * 3600 < Spec.MIN_TIMELINE ->
            adjust_utc_to_arg_with parse utc_str = utc_str)).
Proof.
  unfold adjust_utc_to_arg_with, adjust_try. split.
  - intros ->. reflexivity.
  - intros dt Hp. rewrite Hp.
    destruct (sub_hours_spec dt 3 (parse_valid _ _ Hp) ltac:(lia)) as [Hok Hov].
    split; intros Ht.
    + destruct (Hok Ht) as (r & -> & Hv & Htl & Hus & Htz). exists r. auto.
    + rewrite (Hov Ht). reflexivity.
Qed.

End AdjustFacts.

Section AdjustExamples.
Import Datetime Ingest.

(** What [fromisoformat] returns passed [validb]. *)
Lemma fromisoformat_valid (s : string) (dt : datetime) :
  fromisoformat s = Some dt -> valid dt.
Proof.
  unfold fromisoformat. intros H.
  repeat match type of H with
         | (if validb ?d then _ else _) = Some _ =>
             destruct (validb d) eqn:Ev; try discriminate
         | match ?x with _ => _ end = Some _ => destruct x; try discriminate
         end.
  injection H as <-. unfold validb in Ev. unfold valid.
  repeat (apply andb_true_iff in Ev as [Ev ?]). lia.
Qed.

(** C9, counterexample.  Midnight of 0001-01-01 parses, but three hours
    earlier is out of range: the argument comes back as it was, which is
    not a [%Y-%m-%d %H:%M:%S] rendering of any value. *)
Lemma first_hours_of_year_one_unchanged :
  (exists dt, fromisoformat (replace_Z "0001-01-01T00:00:00Z") = Some dt)
  /\ adjust_utc_to_arg (Some "0001-01-01T00:00:00Z") = Some "0001-01-01T00:00:00Z"
  /\ forall r, adjust_utc_to_arg_str "0001-01-01T00:00:00Z" <> strftime r.
Proof.
  split; [eexists; vm_compute; reflexivity|].
  split; [vm_compute; reflexivity|].
  intros r H.
  assert (E : adjust_utc_to_arg_str "0001-01-01T00:00:00Z" = "0001-01-01T00:00:00Z")
    by (vm_compute; reflexivity).
  rewrite E in H. apply (f_equal String.length) in H.
  unfold strftime, year_str, pad4, pad2 in H.
  destruct (year r <? 10); [simpl in H; discriminate|].
  destruct (year r <? 100); [simpl in H; discriminate|].
  destruct (year r <? 1000); simpl in H; discriminate.
Qed.

Lemma adjust_utc_to_arg_cases_witness :
  adjust_utc_to_arg_with fromisoformat "not a date" = "not a date"
  /\ exists r,
      valid r
      /\ timeline r
         = timeline {| year := 2025; month := 3; day := 1; hour := 1; minute := 30;
                       second := 5; microsecond := 0; tzinfo := Some 0 |} - 3 * 3600
      /\ microsecond r = 0 /\ tzinfo r = Some 0
      /\ adjust_utc_to_arg_with fromisoformat "2025-03-01T01:30:05.000Z" = strftime r.
Proof.
  split.
  - apply (adjust_utc_to_arg_cases fromisoformat fromisoformat_valid "not a date").
    reflexivity.
  - destruct (adjust_utc_to_arg_cases fromisoformat fromisoformat_valid
                "2025-03-01T01:30:05.000Z") as [_ H].
    destruct (H {| year := 2025; month := 3; day := 1; hour := 1; minute := 30;
                   second := 5; microsecond := 0; tzinfo := Some 0 |} eq_refl)
      as [Hok _].
    apply Hok. vm_compute. discriminate.
Defined.

(** The kick-off of the sample payload, and a date that crosses the end
    of February. *)
Example adjust_utc_to_arg_examples :
  adjust_utc_to_arg (Some "2025-01-24T20:00:00.000Z") = Some "2025-01-24 17:00:00"
  /\ adjust_utc_to_arg (Some "2025-03-01T01:30:05.000Z") = Some "2025-02-28 22:30:05"
  /\ adjust_utc_to_arg (Some "2024-03-01T01:30:05Z") = Some "2024-02-29 22:30:05"
  /\ adjust_utc_to_arg None = None.
Proof. repeat split; vm_compute; reflexivity. Qed.

End AdjustExamples.

(** ** Referees without a finished match *)

Section RefereeFacts.
Import Schema Ranking.

Lemma in_left_join {A B} (on : A -> B -> bool) (a : list A) (b : list B)
      (x : A) (oy : option B) :
  In (x, oy) (Sql.left_join on a b) -> In x a.
Proof.
  unfold Sql.left_join. rewrite in_flat_map. intros (x' & Hx & Hin).
  destruct (List.filter (on x') b) as [|y ys].
  - destruct Hin as [E|[]]. injection E as <- _. exact Hx.
  - apply in_map_iff in Hin as (y' & E & _). injection E as <- _. exact Hx.
Qed.

Lemma ref_dict_from_lookup (keys : list (option string)) (i : Z)
      (acc : gmap string Z) (name : string) :
  ~ In (Some name) keys -> ref_dict_from i keys acc !! name = acc !! name.
Proof.
  revert i acc. induction keys as [|k keys IH]; intros i acc Hn; simpl.
  - reflexivity.
  - destruct k as [k|].
    + rewrite IH by (intros H; apply Hn; right; exact H).
      apply lookup_insert_ne. intros ->. apply Hn. left. reflexivity.
    + apply IH. intros H. apply Hn. right. exact H.
Qed.

(** The keys of a grouped and sorted query are keys of its rows. *)
Lemma grouped_keys {A B} (key : A -> option string) (agg : list A -> B)
      (lt : option string * B -> option string * B -> bool) (rows : list A)
      (k : option string) :
  In k (map fst (Sql.order_groups_desc lt (map (fun g => (fst g, agg (snd g)))
                                               (Sql.group_by key rows)))) ->
  In k (map key rows).
Proof.
  intros H. apply in_map_iff in H as ([k' v] & <- & Hin).
  apply order_groups_desc_In in Hin. apply in_map_iff in Hin as (g & E & Hg).
  injection E as <- _. exact (proj2 (group_by_In key rows g Hg)).
Qed.

(** X27.  A referee who has no finished match is in neither dictionary of
    [get_referee_rankings]. *)
Lemma referee_without_finished_match db name :
  (forall m, In m (matches db) -> m_finished m = true -> m_referee m <> Some name) ->
  fst (get_referee_rankings db) !! name = None
  /\ snd (get_referee_rankings db) !! name = None.
Proof.
  intros Hnone. unfold get_referee_rankings. simpl.
  split; rewrite ref_dict_from_lookup; try apply lookup_empty; intros Hin.
  - unfold ref_cards in Hin.
    apply (grouped_keys (fun mc : MatchRow * option CardRow => m_referee (fst mc))
             (fun l => Sql.count
                         (List.filter (fun mc : MatchRow * option CardRow =>
                                         match snd mc with
                                         | Some _ => true
                                         | None => false
                                         end) l))) in Hin.
    apply in_map_iff in Hin as ([m oc] & Hk & Hj). simpl in Hk.
    apply in_left_join in Hj. apply filter_In in Hj as [Hm Hf].
    exact (Hnone m Hm Hf Hk).
  - unfold ref_fouls in Hin.
    apply (grouped_keys (fun mp : MatchRow * option PlayerRow => m_referee (fst mp))
             (fun l => sum_nullable
                         (map (fun mp : MatchRow * option PlayerRow =>
                                 option_map p_fouls_committed (snd mp)) l))) in Hin.
    apply in_map_iff in Hin as ([m op] & Hk & Hj). simpl in Hk.
    apply in_left_join in Hj. apply filter_In in Hj as [Hm Hf].
    exact (Hnone m Hm Hf Hk).
Qed.

End RefereeFacts.

(** ** The teams of the windowed ranking *)

Section TeamsFacts.
Import Schema Ranking.

Lemma pair_eqb_eq (a b : string * option string) : pair_eqb a b = true <-> a = b.
Proof.
  destruct a as [a1 a2], b as [b1 b2]. unfold pair_eqb. simpl.
  rewrite andb_true_iff, String.eqb_eq. split.
  - intros [-> H]. f_equal. destruct a2, b2; simpl in H; try discriminate.
    + apply String.eqb_eq in H. congruence.
    + reflexivity.
  - intros E. injection E as -> ->. split; [reflexivity|].
    destruct b2; simpl; [apply String.eqb_refl | reflexivity].
Qed.

Lemma In_distinct {A} (eqb : A -> A -> bool) (x : A) (l : list A) :
  (forall a b, eqb a b = true <-> a = b) ->
  In x l -> In x (Sql.distinct eqb l).
Proof.
  intros Heq. induction l as [|y l IH]; simpl; [tauto|].
  intros [->|Hin]; [left; reflexivity|].
  destruct (eqb y x) eqn:E.
  - left. apply Heq. exact E.
  - right. apply filter_In. split; [exact (IH Hin)|]. rewrite E. reflexivity.
Qed.

Lemma dict_set_keys (k k' : string) (v : option string)
      (d : list (string * option string)) :
  In k' (map fst (dict_set k v d)) <-> k' = k \/ In k' (map fst d).
Proof.
  induction d as [|[k0 v0] d IH]; simpl.
  - intuition congruence.
  - destruct (String.eqb_spec k k0) as [->|Hne]; simpl.
    + intuition congruence.
    + rewrite IH. intuition congruence.
Qed.

Lemma dict_keys_fold (pairs d : list (string * option string)) (k : string) :
  In k (map fst (fold_left (fun d r => dict_set (fst r) (snd r) d) pairs d))
  <-> In k (map fst pairs) \/ In k (map fst d).
Proof.
  revert d. induction pairs as [|[k0 v0] pairs IH]; intros d; simpl.
  - tauto.
  - rewrite IH, dict_set_keys. intuition congruence.
Qed.

(** The teams the windowed ranking runs over are the teams that are the
    home side of some match, finished or not. *)
Lemma team_ids_home db tid :
  In tid (team_ids db) <-> exists m, In m (matches db) /\ m_id_home_team m = tid.
Proof.
  unfold team_ids, teams_map. rewrite dict_keys_fold. simpl. split.
  - intros [H|[]]. apply in_map_iff in H as ([k v] & <- & Hin).
    apply distinct_In in Hin. apply in_map_iff in Hin as (m & E & Hm).
    injection E as <- _. exists m. auto.
  - intros (m & Hm & <-). left. apply in_map_iff.
    exists (m_id_home_team m, m_home_team m). split; [reflexivity|].
    apply In_distinct; [exact pair_eqb_eq|].
    apply in_map_iff. exists m. auto.
Qed.

(** The rank dictionaries computed from the database hold positions
    [1 .. length], so a league of at most 300 ranked teams meets the
    bound under which the scores are proved. *)
Lemma get_rankings_from_stats_ok db category filter_type order_by made against m a :
  get_team_stats_core db category filter_type order_by None = Some (made, against) ->
  get_rankings_from_stats db category filter_type order_by = Some (m, a) ->
  (length made <= 300)%nat -> (length against <= 300)%nat ->
  Spec.ranks_ok m /\ Spec.ranks_ok a.
Proof.
  unfold get_rankings_from_stats. intros -> E Hm Ha. injection E as <- <-.
  split; apply rank_dict_ok; rewrite length_map; assumption.
Qed.

End TeamsFacts.

(* ===================================================================== *)
(** * Teams without a finished match in the windowed ranking *)
(* ===================================================================== *)

Section ZeroMatches.
Import Schema Ranking.




End ZeroMatches.


(** ** The divisor of the combined score *)

Section DivisorFacts.
Import Prediction.

(** The two per-side divisors are 2 and 3 times [L - 1 = 29]; the
    combined divisor is not 5 times 29. *)
Lemma gen_divisor_value : gen_divisor = 143 /\ gen_divisor <> 5 * 30 - 5.
Proof. split; [reflexivity | discriminate]. Qed.

(** With every team first and the strictest referee, both sides score
    100 and the combined score is 101. *)
Lemma combined_score_best_case :
  exists res,
    get_prediction_logic Schema.empty_db "H" "A" "cards" "all" (Some "R")
      (Some ({["H" := 1; "A" := 1]}, {["H" := 1; "A" := 1]}, Some {["R" := 1]}))
    = Some res
    /\ r_h res = 100 /\ r_v res = 100 /\ r_gen res = 101.
Proof. eexists. split; [vm_compute; reflexivity|]. repeat split; reflexivity. Qed.

End DivisorFacts.


(* ===================================================================== *)
(** * Further properties of the prediction engine *)
(* ===================================================================== *)

Section PredictionMore.
Import Prediction.

Lemma league_ranks_ok (m : gmap string Z) : Props.league_ranks m -> Spec.ranks_ok m.
Proof. intros H k r E. specialize (H k r E). unfold Spec.rank_ok. lia. Qed.

Lemma default_league_rank (m : gmap string Z) (k : string) :
  Props.league_ranks m -> 1 <= default 15 (m !! k) <= 30.
Proof.
  intros Hm. destruct (m !! k) as [r|] eqn:E; simpl; [exact (Hm k r E) | lia].
Qed.

Lemma quot_percent_bounds (x d : Z) :
  0 < d -> 0 <= x <= d -> 0 <= Z.quot (100 * x) d <= 100.
Proof.
  intros Hd Hx. rewrite Z.quot_div_nonneg by lia. split.
  - apply Z.div_pos; lia.
  - apply Z.div_le_upper_bound; lia.
Qed.

(** X1.  Scores stay percentages for ranks within the league: each side's
    score lies between 0 and 100; the combined score lies between 0 and
    100 without a referee, and between 0 and 101 with one, since its
    divisor is 143 for a sum of at most 145. *)
Theorem scores_within_bounds db home away category filter_type referee precalc
        m a rr :
  fetch_ranks db category filter_type precalc = Some (m, a, rr) ->
  Props.league_ranks m -> Props.league_ranks a ->
  Props.league_ranks (referee_ranks db category rr) ->
  exists res,
    get_prediction_logic db home away category filter_type referee precalc = Some res
    /\ 0 <= r_h res <= 100 /\ 0 <= r_v res <= 100
    /\ 0 <= r_gen res <= 101
    /\ (r_ref_rank res = None -> r_gen res <= 100).
Proof.
  intros Hf Hm Ha Hr.
  rewrite (get_prediction_logic_fetch _ _ _ _ _ _ _ _ _ _ Hf).
  pose proof (default_league_rank m home Hm) as B1.
  pose proof (default_league_rank a home Ha) as B2.
  pose proof (default_league_rank m away Hm) as B3.
  pose proof (default_league_rank a away Ha) as B4.
  destruct (Py.truthy_str referee && referee_sensitive category) eqn:Hb.
  - apply andb_true_iff in Hb as [Ht Hcat].
    destruct referee as [name|]; [|discriminate].
    assert (Hname : name <> "").
    { simpl in Ht. apply negb_true_iff in Ht. apply String.eqb_neq. exact Ht. }
    pose proof (default_league_rank _ name Hr) as B5.
    rewrite (predict_three_terms _ _ _ _ _ _ _ _ Hname Hcat
               (league_ranks_ok _ Hm) (league_ranks_ok _ Ha)
               (default_rank_ok _ name (league_ranks_ok _ Hr))).
    eexists. split; [reflexivity|]. simpl.
    split; [apply quot_percent_bounds; lia|].
    split; [apply quot_percent_bounds; lia|].
    split; [|discriminate].
    unfold gen_divisor. rewrite Z.quot_div_nonneg by lia.
    Z.to_euclidean_division_equations; lia.
  - rewrite (predict_two_terms _ _ _ _ _ _ _ _ Hb
               (league_ranks_ok _ Hm) (league_ranks_ok _ Ha)).
    eexists. split; [reflexivity|]. simpl.
    assert (Bh : 0 <= Z.quot (100 * ((30 - default 15 (m !! home))
                                     + (30 - default 15 (a !! away)))) 58 <= 100)
      by (apply quot_percent_bounds; lia).
    assert (Bv : 0 <= Z.quot (100 * ((30 - default 15 (m !! away))
                                     + (30 - default 15 (a !! home)))) 58 <= 100)
      by (apply quot_percent_bounds; lia).
    split; [exact Bh|]. split; [exact Bv|].
    split; [|intros _]; Z.to_euclidean_division_equations; lia.
Qed.

Lemma league_ranks_singleton (k : string) (r : Z) :
  1 <= r <= 30 -> Props.league_ranks {[k := r]}.
Proof.
  intros Hr k' r' H. apply lookup_singleton_Some in H as [_ <-]. exact Hr.
Defined.

Lemma scores_within_bounds_witness :
  exists res,
    get_prediction_logic Schema.empty_db "H" "A" "cards" "all" (Some "R")
      (Some ({["H" := 1]}, {["A" := 1]}, Some {["R" := 1]})) = Some res
    /\ 0 <= r_h res <= 100 /\ 0 <= r_gen res <= 101.
Proof.
  destruct (scores_within_bounds Schema.empty_db "H" "A" "cards" "all" (Some "R")
              (Some ({["H" := 1]}, {["A" := 1]}, Some {["R" := 1]}))
              {["H" := 1]} {["A" := 1]} (Some {["R" := 1]}))
    as (res & Hres & Hh & _ & Hg & _).
  - reflexivity.
  - apply league_ranks_singleton. lia.
  - apply league_ranks_singleton. lia.
  - apply league_ranks_singleton. lia.
  - exists res. auto.
Defined.

(** X2.  Exchanging home and away exchanges the two side scores and the rank
    pairs, and leaves the combined score and the referee rank as they
    are. *)
Theorem prediction_swaps_with_sides db home away category filter_type referee precalc :
  get_prediction_logic db away home category filter_type referee precalc
  = option_map Props.swap_sides
      (get_prediction_logic db home away category filter_type referee precalc).
Proof.
  unfold get_prediction_logic.
  destruct (fetch_ranks db category filter_type precalc) as [[[m a] rr]|];
    [|reflexivity].
  unfold predict.
  destruct (Py.truthy_str referee && referee_sensitive category).
  - set (rv := default 15 (referee_ranks db category rr !! default "" referee)).
    replace (30 - default 15 (m !! away) + (30 - default 15 (a !! away))
             + (30 - default 15 (m !! home)) + (30 - default 15 (a !! home))
             + (30 - rv))
      with (30 - default 15 (m !! home) + (30 - default 15 (a !! home))
            + (30 - default 15 (m !! away)) + (30 - default 15 (a !! away))
            + (30 - rv)) by lia.
    destruct (Py.percent_int (30 - default 15 (m !! away)
                              + (30 - default 15 (a !! home)) + (30 - rv)) 87);
      destruct (Py.percent_int (30 - default 15 (m !! home)
                                + (30 - default 15 (a !! away)) + (30 - rv)) 87);
      try reflexivity.
    destruct (Py.percent_int _ gen_divisor); reflexivity.
  - destruct (Py.percent_int (30 - default 15 (m !! away)
                              + (30 - default 15 (a !! home))) 58) as [v|];
      destruct (Py.percent_int (30 - default 15 (m !! home)
                                + (30 - default 15 (a !! away))) 58) as [h|];
      try reflexivity.
    simpl. unfold Props.swap_sides. simpl. rewrite (Z.add_comm v h). reflexivity.
Qed.

(** X3.  Better places never lower a score: if each of the four ranks looked
    up for the two teams is at least as good (as small) under [m'], [a']
    as under [m], [a], then the home score, the away score and the
    combined score are at least as high. *)
Theorem better_ranks_never_lower_scores db home away category filter_type referee
        m a m' a' rr :
  Spec.ranks_ok m -> Spec.ranks_ok a -> Spec.ranks_ok m' -> Spec.ranks_ok a' ->
  Spec.ranks_ok (referee_ranks db category rr) ->
  default 15 (m' !! home) <= default 15 (m !! home) ->
  default 15 (a' !! home) <= default 15 (a !! home) ->
  default 15 (m' !! away) <= default 15 (m !! away) ->
  default 15 (a' !! away) <= default 15 (a !! away) ->
  exists res res',
    get_prediction_logic db home away category filter_type referee
      (Some (m, a, rr)) = Some res
    /\ get_prediction_logic db home away category filter_type referee
         (Some (m', a', rr)) = Some res'
    /\ r_h res <= r_h res' /\ r_v res <= r_v res' /\ r_gen res <= r_gen res'.
Proof.
  intros Hm Ha Hm' Ha' Hr L1 L2 L3 L4. unfold get_prediction_logic. simpl.
  destruct (Py.truthy_str referee && referee_sensitive category) eqn:Hb.
  - apply andb_true_iff in Hb as [Ht Hcat].
    destruct referee as [name|]; [|discriminate].
    assert (Hname : name <> "").
    { simpl in Ht. apply negb_true_iff in Ht. apply String.eqb_neq. exact Ht. }
    rewrite (predict_three_terms _ _ _ _ _ _ _ _ Hname Hcat Hm Ha
               (default_rank_ok _ name Hr)).
    rewrite (predict_three_terms _ _ _ _ _ _ _ _ Hname Hcat Hm' Ha'
               (default_rank_ok _ name Hr)).
    do 2 eexists. split; [reflexivity|]. split; [reflexivity|]. simpl.
    repeat split; apply Z.quot_le_mono; unfold gen_divisor; lia.
  - rewrite (predict_two_terms _ _ _ _ _ _ _ _ Hb Hm Ha).
    rewrite (predict_two_terms _ _ _ _ _ _ _ _ Hb Hm' Ha').
    do 2 eexists. split; [reflexivity|]. split; [reflexivity|]. simpl.
    assert (Hh : Z.quot (100 * (30 - default 15 (m !! home)
                                + (30 - default 15 (a !! away)))) 58
                 <= Z.quot (100 * (30 - default 15 (m' !! home)
                                   + (30 - default 15 (a' !! away)))) 58)
      by (apply Z.quot_le_mono; lia).
    assert (Hv : Z.quot (100 * (30 - default 15 (m !! away)
                                + (30 - default 15 (a !! home)))) 58
                 <= Z.quot (100 * (30 - default 15 (m' !! away)
                                   + (30 - default 15 (a' !! home)))) 58)
      by (apply Z.quot_le_mono; lia).
    split; [exact Hh|]. split; [exact Hv|].
    apply Z.div_le_mono; lia.
Qed.

Lemma better_ranks_never_lower_scores_witness :
  exists res res',
    get_prediction_logic Schema.empty_db "H" "A" "shots" "all" None
      (Some ({["H" := 9]}, {["A" := 10]}, None)) = Some res
    /\ get_prediction_logic Schema.empty_db "H" "A" "shots" "all" None
         (Some ({["H" := 2]}, {["A" := 10]}, None)) = Some res'
    /\ r_h res <= r_h res' /\ r_gen res <= r_gen res'.
Proof.
  destruct (better_ranks_never_lower_scores Schema.empty_db "H" "A" "shots" "all" None
              {["H" := 9]} {["A" := 10]} {["H" := 2]} {["A" := 10]} None)
    as (res & res' & H1 & H2 & Hh & _ & Hg).
  - apply ranks_ok_singleton. unfold Spec.rank_ok. lia.
  - apply ranks_ok_singleton. unfold Spec.rank_ok. lia.
  - apply ranks_ok_singleton. unfold Spec.rank_ok. lia.
  - apply ranks_ok_singleton. unfold Spec.rank_ok. lia.
  - vm_compute. intros k r H. discriminate.
  - vm_compute. discriminate.
  - vm_compute. discriminate.
  - vm_compute. discriminate.
  - vm_compute. discriminate.
  - exists res, res'. auto.
Defined.

(** The referee dictionary in force is the one of the category, whether
    the caller hands it in or not. *)
Lemma referee_ranks_precalc db category :
  referee_ranks db category
    (Some (if String.eqb category "cards"
           then fst (Ranking.get_referee_rankings db)
           else snd (Ranking.get_referee_rankings db)))
  = referee_ranks db category None.
Proof.
  unfold referee_ranks. simpl dict_falsy at 2. cbv iota.
  destruct (Ranking.get_referee_rankings db) as [rc rf]. simpl fst. simpl snd.
  destruct (dict_falsy _); reflexivity.
Qed.

(** X4.  Precomputed ranks are an optimisation only: handing in the
    dictionaries of [get_rankings_from_stats] (ordered by total), with or
    without the referee dictionary of the category taken from
    [get_referee_rankings], gives the result of the call that computes
    them itself. *)
Theorem precalc_ranks_are_transparent db home away category filter_type referee m a :
  Ranking.get_rankings_from_stats db category filter_type "total" = Some (m, a) ->
  get_prediction_logic db home away category filter_type referee (Some (m, a, None))
  = get_prediction_logic db home away category filter_type referee None
  /\ get_prediction_logic db home away category filter_type referee
       (Some (m, a,
              Some (if String.eqb category "cards"
                    then fst (Ranking.get_referee_rankings db)
                    else snd (Ranking.get_referee_rankings db))))
     = get_prediction_logic db home away category filter_type referee None.
Proof.
  intros Hr. unfold get_prediction_logic, fetch_ranks. rewrite Hr.
  split; [reflexivity|].
  unfold predict. rewrite referee_ranks_precalc. reflexivity.
Qed.

Lemma precalc_ranks_are_transparent_witness :
  get_prediction_logic Sample.db "A" "B" "cards" "all" (Some "Ref")
    (Some (Ranking.rank_dict ["A"], Ranking.rank_dict ["B"],
           Some (fst (Ranking.get_referee_rankings Sample.db))))
  = get_prediction_logic Sample.db "A" "B" "cards" "all" (Some "Ref") None.
Proof.
  exact (proj2 (precalc_ranks_are_transparent Sample.db "A" "B" "cards" "all"
                  (Some "Ref") (Ranking.rank_dict ["A"]) (Ranking.rank_dict ["B"])
                  eq_refl)).
Defined.

End PredictionMore.

(* ===================================================================== *)
(** * Further properties of the ingestion *)
(* ===================================================================== *)

Section IngestMore.
Import Schema Ingest.

(** The database after [load_match_directly] on a non-empty response. *)
Lemma load_cases db match_id r :
  load_match_directly match_id (Some r) db
  = let ms := (List.filter (fun m => negb (String.eqb (m_id m) match_id)) (matches db)
               ++ [match_row match_id r])%list in
    let unchanged :=
      {| matches := ms; player_match_details := player_match_details db;
         shots := shots db; cards := cards db;
         shot_seq := shot_seq db; card_seq := card_seq db |} in
    if negb (finished r) then unchanged
    else
      match (if is_nil (player_rows match_id r) then Some (player_match_details db)
             else insert_player_rows (player_rows match_id r) (player_match_details db))
      with
      | None => unchanged
      | Some table =>
          {| matches := ms; player_match_details := table;
             shots := (shots db ++ number_shots (shot_seq db) (shot_rows match_id r))%list;
             cards := (cards db ++ number_cards (card_seq db) (card_rows match_id r))%list;
             shot_seq := shot_seq db + Z.of_nat (length (shot_rows match_id r));
             card_seq := card_seq db + Z.of_nat (length (card_rows match_id r)) |}
      end.
Proof.
  unfold load_match_directly, load_body, bind, upsert_match. cbv zeta. simpl m_id.
  destruct (finished r); simpl negb; cbv iota; [|reflexivity].
  destruct (is_nil (player_rows match_id r)) eqn:Enil.
  - unfold ret at 1. cbv beta iota.
    destruct (shot_rows match_id r) as [|s0 ss];
      destruct (card_rows match_id r) as [|c0 cs]; simpl;
      rewrite ?app_nil_r, ?Z.add_0_r; reflexivity.
  - unfold append_players. simpl.
    destruct (insert_player_rows (player_rows match_id r) (player_match_details db))
      as [table|]; [|reflexivity].
    destruct (shot_rows match_id r) as [|s0 ss];
      destruct (card_rows match_id r) as [|c0 cs]; simpl;
      rewrite ?app_nil_r, ?Z.add_0_r; reflexivity.
Qed.

Lemma load_matches db match_id r :
  matches (load_match_directly match_id (Some r) db)
  = (List.filter (fun m => negb (String.eqb (m_id m) match_id)) (matches db)
     ++ [match_row match_id r])%list.
Proof.
  rewrite load_cases. cbv zeta.
  destruct (negb (finished r)); [reflexivity|].
  destruct (if is_nil (player_rows match_id r) then _ else _); reflexivity.
Qed.

(** X5.  The match row is written whatever happens afterwards: for every
    non-empty response, finished or not, and also when the insertion of
    the appearances raises, the match table ends with exactly one row for
    the match id, the one built from the payload, and keeps its rows for
    other ids. *)
Theorem match_row_always_upserted db match_id r :
  List.filter (fun m => String.eqb (m_id m) match_id)
    (matches (load_match_directly match_id (Some r) db))
  = [match_row match_id r]
  /\ List.filter (fun m => negb (String.eqb (m_id m) match_id))
       (matches (load_match_directly match_id (Some r) db))
     = List.filter (fun m => negb (String.eqb (m_id m) match_id)) (matches db).
Proof.
  rewrite load_matches, !List.filter_app. simpl. rewrite String.eqb_refl. simpl.
  rewrite filter_id_other, filter_other_idem, app_nil_r. split; reflexivity.
Qed.

Lemma number_shots_match_id seq match_id (raw : list RawShot) :
  Forall (fun s => s_match_id s = match_id)
         (number_shots seq (map (shot_row match_id) raw)).
Proof.
  unfold number_shots. apply List.Forall_forall. intros s Hs.
  apply in_map_iff in Hs as ([i f] & <- & Hin). simpl.
  apply in_combine_r in Hin. apply in_map_iff in Hin as (x & <- & _). reflexivity.
Qed.

Lemma number_cards_fields seq match_id h a (raw : list RawEvent) :
  Forall (fun c => c_match_id c = match_id
                   /\ exists ev, In ev raw /\ c_card_type c = default "" (ev_card ev)
                                 /\ c_team_id c = (if ev_isHome ev then h else a))
         (number_cards seq (map (card_row match_id h a) raw)).
Proof.
  unfold number_cards. apply List.Forall_forall. intros c Hc.
  apply in_map_iff in Hc as ([i f] & <- & Hin). simpl.
  apply in_combine_r in Hin. apply in_map_iff in Hin as (ev & <- & Hev).
  split; [reflexivity|]. exists ev. auto.
Qed.

Lemma insert_player_rows_some rows table :
  insert_player_rows rows table = None
  \/ insert_player_rows rows table = Some (table ++ rows)%list.
Proof.
  destruct (insert_player_rows rows table) as [t|] eqn:E; [right|left; reflexivity].
  rewrite (insert_player_rows_app _ _ _ E). reflexivity.
Qed.

(** X6.  Ingestion only ever appends to the child tables, and what it appends
    belongs to the match being ingested: the appearances, shots and cards
    present before are all still there, in place, and every added row
    carries the match id. *)
Theorem ingestion_appends_rows_of_its_match db match_id response :
  exists ps ss cs,
    player_match_details (load_match_directly match_id response db)
    = (player_match_details db ++ ps)%list
    /\ shots (load_match_directly match_id response db) = (shots db ++ ss)%list
    /\ cards (load_match_directly match_id response db) = (cards db ++ cs)%list
    /\ Forall (fun p => p_match_id p = match_id) ps
    /\ Forall (fun s => s_match_id s = match_id) ss
    /\ Forall (fun c => c_match_id c = match_id) cs.
Proof.
  destruct response as [r|].
  2:{ exists [], [], []. simpl. rewrite !app_nil_r. repeat split; constructor. }
  rewrite load_cases. cbv zeta.
  destruct (negb (finished r)).
  { exists [], [], []. simpl. rewrite !app_nil_r. repeat split; constructor. }
  destruct (is_nil (player_rows match_id r)) eqn:Enil.
  - exists [], (number_shots (shot_seq db) (shot_rows match_id r)),
      (number_cards (card_seq db) (card_rows match_id r)).
    simpl. rewrite app_nil_r. repeat split; try constructor.
    + apply number_shots_match_id.
    + eapply List.Forall_impl; [|apply number_cards_fields]. intros c [H _]. exact H.
  - destruct (insert_player_rows_some (player_rows match_id r)
                (player_match_details db)) as [-> | ->].
    + exists [], [], []. simpl. rewrite !app_nil_r. repeat split; constructor.
    + exists (player_rows match_id r),
        (number_shots (shot_seq db) (shot_rows match_id r)),
        (number_cards (card_seq db) (card_rows match_id r)).
      simpl. repeat split.
      * unfold player_rows, side_rows. apply List.Forall_forall. intros p0 Hp.
        repeat (apply in_app_or in Hp as [Hp|Hp]);
          apply in_map_iff in Hp as (x & <- & _); reflexivity.
      * apply number_shots_match_id.
      * eapply List.Forall_impl; [|apply number_cards_fields]. intros c [H _]. exact H.
Qed.

Lemma player_key_eqb_eq (a b : PlayerRow) :
  player_key_eqb a b = true <-> Props.player_key a = Props.player_key b.
Proof.
  unfold player_key_eqb, Props.player_key. rewrite andb_true_iff, !String.eqb_eq.
  split; [intros [-> ->]; reflexivity | intros H; injection H; auto].
Qed.

Lemma existsb_player_key (p : PlayerRow) (table : list PlayerRow) :
  existsb (player_key_eqb p) table = true
  <-> In (Props.player_key p) (map Props.player_key table).
Proof.
  rewrite existsb_exists, in_map_iff. split.
  - intros (q & Hq & E). exists q. apply player_key_eqb_eq in E. auto.
  - intros (q & E & Hq). exists q. split; [exact Hq|]. apply player_key_eqb_eq. auto.
Qed.

(** The insertion of the appearances succeeds exactly when the new rows
    have distinct keys, none of them in the table. *)
Lemma insert_player_rows_iff (rows table : list PlayerRow) :
  insert_player_rows rows table <> None
  <-> List.NoDup (map Props.player_key rows)
      /\ (forall k, In k (map Props.player_key rows) ->
                    ~ In k (map Props.player_key table)).
Proof.
  revert table. induction rows as [|p rows IH]; intros table; simpl.
  - split; [intros _; split; [constructor | intros k []] | discriminate].
  - destruct (existsb (player_key_eqb p) table) eqn:E.
    + split; [congruence|]. intros [_ H]. exfalso.
      apply (H (Props.player_key p)); [left; reflexivity|].
      apply existsb_player_key. exact E.
    + assert (Hp : ~ In (Props.player_key p) (map Props.player_key table)).
      { rewrite <- existsb_player_key, E. discriminate. }
      rewrite IH, map_app. simpl. split.
      * intros [Hnd Hfresh]. split; [constructor; [|exact Hnd]|].
        -- intros Hin. apply (Hfresh _ Hin). apply in_or_app. right. left. reflexivity.
        -- intros k [<- | Hk]; [exact Hp|].
           intros Hin. apply (Hfresh _ Hk). apply in_or_app. left. exact Hin.
      * intros [Hcons Hfresh]. inversion Hcons as [|? ? Hnp Hnd]; subst.
        split; [exact Hnd|].
        intros k Hk Hin. apply in_app_or in Hin as [Hin | [<- | []]].
        -- apply (Hfresh k); [right; exact Hk | exact Hin].
        -- exact (Hnp Hk).
Qed.

Lemma player_rows_ids match_id r :
  map p_player_id (player_rows match_id r) = Props.payload_ids r.
Proof.
  unfold player_rows, side_rows, Props.payload_ids, Props.payload_players.
  rewrite !map_app, !map_map, <- !app_assoc. reflexivity.
Qed.

Lemma player_rows_keys match_id r :
  map Props.player_key (player_rows match_id r)
  = map (fun i => (match_id, i)) (Props.payload_ids r).
Proof.
  rewrite <- (player_rows_ids match_id), map_map.
  apply map_ext_in. intros p Hp. unfold Props.player_key. f_equal.
  unfold player_rows, side_rows in Hp.
  repeat (apply in_app_or in Hp as [Hp | Hp]);
    apply in_map_iff in Hp as (x & <- & _); reflexivity.
Qed.

Lemma player_rows_length match_id r :
  length (player_rows match_id r) = length (Props.payload_players r).
Proof.
  rewrite <- (length_map p_player_id), player_rows_ids.
  unfold Props.payload_ids. apply length_map.
Qed.

Lemma pair_keys_nodup (match_id : string) (ids : list string) :
  List.NoDup (map (fun i => (match_id, i)) ids) <-> List.NoDup ids.
Proof.
  split.
  - apply NoDup_map_inv.
  - intros H. induction H as [|i ids Hi Hnd IH]; simpl; constructor; [|exact IH].
    rewrite in_map_iff. intros (j & E & Hj). injection E as ->. exact (Hi Hj).
Qed.

(** Whether the appearances of a payload can be inserted. *)
Lemma insert_payload_iff db match_id r :
  insert_player_rows (player_rows match_id r) (player_match_details db) <> None
  <-> List.NoDup (Props.payload_ids r) /\ Props.not_stored db match_id r.
Proof.
  rewrite insert_player_rows_iff, player_rows_keys, pair_keys_nodup.
  unfold Props.not_stored. split; intros [Hnd H]; (split; [exact Hnd|]).
  - intros q Hq Hm Hin. apply (H (match_id, p_player_id q)).
    + apply in_map_iff. exists (p_player_id q). auto.
    + apply in_map_iff. exists q. split; [|exact Hq].
      unfold Props.player_key. rewrite Hm. reflexivity.
  - intros k Hk Hin. apply in_map_iff in Hk as (i & <- & Hi).
    apply in_map_iff in Hin as (q & E & Hq). unfold Props.player_key in E.
    injection E as Em Ei. apply (H q Hq Em). rewrite Ei. exact Hi.
Qed.

Lemma number_shots_length seq (rows : list (Z -> ShotRow)) :
  length (number_shots seq rows) = length rows.
Proof.
  unfold number_shots. rewrite length_map, length_combine, length_seq. lia.
Qed.

Lemma number_cards_length seq (rows : list (Z -> CardRow)) :
  length (number_cards seq rows) = length rows.
Proof.
  unfold number_cards. rewrite length_map, length_combine, length_seq. lia.
Qed.

(** X7.  A finished match none of whose players is stored yet, with distinct
    player ids in the payload, is stored in full: one appearance per
    player of the two line-ups (home starters, home substitutes, away
    starters, away substitutes, in this order), one shot per entry of the
    shot map, one card per event that passes the card test. *)
Theorem fresh_finished_match_is_stored_in_full db match_id r :
  finished r = true ->
  List.NoDup (Props.payload_ids r) ->
  Props.not_stored db match_id r ->
  player_match_details (load_match_directly match_id (Some r) db)
  = (player_match_details db ++ player_rows match_id r)%list
  /\ map p_player_id (player_rows match_id r) = Props.payload_ids r
  /\ length (shots (load_match_directly match_id (Some r) db))
     = (length (shots db) + length (shotmap_shots r))%nat
  /\ length (cards (load_match_directly match_id (Some r) db))
     = (length (cards db) + length (List.filter is_card (events r)))%nat.
Proof.
  intros Hfin Hnd Hfresh.
  assert (Hins : insert_player_rows (player_rows match_id r) (player_match_details db)
                 = Some (player_match_details db ++ player_rows match_id r)%list).
  { destruct (insert_player_rows_some (player_rows match_id r)
                (player_match_details db)) as [E | E]; [|exact E].
    exfalso. revert E. apply insert_payload_iff. split; assumption. }
  rewrite load_cases. cbv zeta. rewrite Hfin. simpl negb. cbv iota.
  split; [|split; [apply player_rows_ids|]].
  - destruct (player_rows match_id r) as [|p0 ps] eqn:E.
    + simpl. rewrite app_nil_r. reflexivity.
    + simpl is_nil. cbv iota. rewrite Hins. reflexivity.
  - assert (Hsome : exists table,
               (if is_nil (player_rows match_id r) then Some (player_match_details db)
                else insert_player_rows (player_rows match_id r)
                       (player_match_details db)) = Some table).
    { destruct (is_nil (player_rows match_id r)); eauto. }
    destruct Hsome as [table ->]. simpl.
    rewrite !length_app, number_shots_length, number_cards_length.
    unfold shot_rows, card_rows. rewrite !length_map. split; reflexivity.
Qed.

(** X8.  If the payload of a finished match has players but its appearances
    cannot all be inserted (a player id occurs twice in the payload, or a
    player of the payload already has an appearance stored for the
    match), nothing is added to any child table: the shots and cards of
    the payload are dropped with the appearances. *)
Theorem failed_appearances_drop_shots_and_cards db match_id r :
  finished r = true ->
  ~ (List.NoDup (Props.payload_ids r) /\ Props.not_stored db match_id r) ->
  Spec.children (load_match_directly match_id (Some r) db) = Spec.children db.
Proof.
  intros Hfin Hbad. rewrite load_finished_children by exact Hfin.
  destruct (is_nil (player_rows match_id r)) eqn:Enil.
  - exfalso. apply Hbad. apply insert_payload_iff.
    destruct (player_rows match_id r); [discriminate | discriminate].
  - destruct (insert_player_rows (player_rows match_id r) (player_match_details db))
      eqn:E; [|reflexivity].
    exfalso. apply Hbad. apply insert_payload_iff. rewrite E. discriminate.
Qed.

End IngestMore.

Section IngestKeys.
Import Schema Ingest.

Lemma fresh_finished_match_is_stored_in_full_witness :
  let r := Sample.a_payload true [Sample.a_raw_player 101; Sample.a_raw_player 102] in
  map p_player_id
      (player_match_details (load_match_directly "7" (Some r) Sample.db))
  = ["10"; "20"; "101"; "102"]
  /\ length (shots (load_match_directly "7" (Some r) Sample.db)) = 4%nat.
Proof.
  destruct (fresh_finished_match_is_stored_in_full Sample.db "7"
              (Sample.a_payload true [Sample.a_raw_player 101; Sample.a_raw_player 102]))
    as (Hp & Hids & Hs & _).
  - reflexivity.
  - vm_compute. repeat constructor; simpl; intuition discriminate.
  - intros q [<- | [<- | []]]; discriminate.
  - cbv zeta. split; [rewrite Hp, map_app, Hids; vm_compute; reflexivity | exact Hs].
Defined.

Lemma failed_appearances_drop_shots_and_cards_witness :
  Spec.children (load_match_directly "1"
                   (Some (Sample.a_payload true [Sample.a_raw_player 10])) Sample.db)
  = Spec.children Sample.db.
Proof.
  apply failed_appearances_drop_shots_and_cards; [reflexivity|].
  intros [_ H]. apply (H (Sample.a_player "1" "10" "A" 1 0)).
  - left. reflexivity.
  - reflexivity.
  - vm_compute. left. reflexivity.
Defined.

Lemma nodup_map_filter {A B} (f : A -> B) (p : A -> bool) (l : list A) :
  List.NoDup (map f l) -> List.NoDup (map f (List.filter p l)).
Proof.
  induction l as [|a l IH]; simpl; [auto|]. intros H.
  inversion H as [|? ? Hn Hnd]; subst.
  destruct (p a); simpl; [constructor|]; auto.
  intros Hin. apply Hn. apply in_map_iff in Hin as (x & E & Hx).
  apply filter_In in Hx as [Hx _]. apply in_map_iff. eauto.
Qed.

Lemma nodup_snoc {A} (l : list A) (a : A) :
  List.NoDup l -> ~ In a l -> List.NoDup (l ++ [a]).
Proof.
  induction l as [|b l IH]; simpl; intros H Hn.
  - constructor; [intros []|constructor].
  - inversion H as [|? ? Hb Hnd]; subst. constructor.
    + intros Hin. apply in_app_or in Hin as [Hin | [-> | []]]; [exact (Hb Hin)|].
      apply Hn. left. reflexivity.
    + apply IH; [exact Hnd|]. intros Hin. apply Hn. right. exact Hin.
Qed.

Lemma nodup_app_disjoint {A} (l1 l2 : list A) :
  List.NoDup l1 -> List.NoDup l2 -> (forall a, In a l1 -> ~ In a l2) ->
  List.NoDup (l1 ++ l2).
Proof.
  induction l1 as [|b l IH]; simpl; intros H1 H2 Hd; [exact H2|].
  inversion H1 as [|? ? Hb Hnd]; subst. constructor.
  - intros Hin. apply in_app_or in Hin as [Hin | Hin]; [exact (Hb Hin)|].
    exact (Hd b (or_introl eq_refl) Hin).
  - apply IH; auto.
Qed.

Lemma upsert_keeps_ids_distinct (ms : list MatchRow) (row : MatchRow) :
  List.NoDup (map m_id ms) ->
  List.NoDup (map m_id (List.filter (fun m => negb (String.eqb (m_id m) (m_id row))) ms
                        ++ [row])).
Proof.
  intros H. rewrite map_app. apply nodup_snoc.
  - apply nodup_map_filter. exact H.
  - intros Hin. apply in_map_iff in Hin as (x & E & Hx).
    apply filter_In in Hx as [_ Hx]. rewrite E, String.eqb_refl in Hx. discriminate.
Qed.

Lemma insert_player_rows_keys (rows table table' : list PlayerRow) :
  insert_player_rows rows table = Some table' ->
  List.NoDup (map Props.player_key table) ->
  List.NoDup (map Props.player_key table').
Proof.
  intros E Hnd.
  assert (Hok : insert_player_rows rows table <> None) by (rewrite E; discriminate).
  apply insert_player_rows_iff in Hok as [Hrows Hfresh].
  rewrite (insert_player_rows_app _ _ _ E), map_app.
  apply nodup_app_disjoint; [exact Hnd | exact Hrows|].
  intros k Hk Hk'. exact (Hfresh k Hk' Hk).
Qed.

(** The ids the table gives to appended rows. *)
Lemma numbered_ids {R} (id : R -> Z) (seq : Z) (rows : list (Z -> R)) (start : nat) :
  (forall f i, In f rows -> id (f i) = i) ->
  map id (map (fun ir : nat * (Z -> R) => snd ir (seq + 1 + Z.of_nat (fst ir)))
              (combine (List.seq start (length rows)) rows))
  = map (fun i => seq + 1 + Z.of_nat i) (List.seq start (length rows)).
Proof.
  revert start. induction rows as [|f rows IH]; intros start H; simpl; [reflexivity|].
  rewrite (H f _ (or_introl eq_refl)). f_equal. apply IH.
  intros g i Hg. apply H. right. exact Hg.
Qed.

Lemma fresh_ids (seq : Z) (n : nat) (old : list Z) :
  List.NoDup old -> Forall (fun i => i <= seq) old ->
  List.NoDup (old ++ map (fun i => seq + 1 + Z.of_nat i) (List.seq 0 n))
  /\ Forall (fun i => i <= seq + Z.of_nat n)
            (old ++ map (fun i => seq + 1 + Z.of_nat i) (List.seq 0 n)).
Proof.
  intros Hnd Hle. split.
  - apply nodup_app_disjoint; [exact Hnd| |].
    + generalize (seq_NoDup n 0). generalize (List.seq 0 n). intros l Hl.
      induction Hl as [|i l Hi Hl IH]; simpl; constructor; [|exact IH].
      rewrite in_map_iff. intros (j & E & Hj).
      assert (j = i) by lia. subst. exact (Hi Hj).
    + intros a Ha Hin. apply in_map_iff in Hin as (j & E & _).
      rewrite List.Forall_forall in Hle. specialize (Hle a Ha). lia.
  - apply Forall_app. split.
    + eapply List.Forall_impl; [|exact Hle]. simpl. intros; lia.
    + apply List.Forall_forall. intros a Hin.
      apply in_map_iff in Hin as (j & E & Hj). apply in_seq in Hj. lia.
Qed.

Lemma shot_ids_after db match_id r :
  map s_shot_id (shots db ++ number_shots (shot_seq db) (shot_rows match_id r))%list
  = (map s_shot_id (shots db)
     ++ map (fun i => shot_seq db + 1 + Z.of_nat i)
            (List.seq 0 (length (shot_rows match_id r))))%list.
Proof.
  rewrite map_app. f_equal. unfold number_shots. apply numbered_ids.
  intros f i Hf. unfold shot_rows in Hf. apply in_map_iff in Hf as (x & <- & _).
  reflexivity.
Qed.

Lemma card_ids_after db match_id r :
  map c_card_id (cards db ++ number_cards (card_seq db) (card_rows match_id r))%list
  = (map c_card_id (cards db)
     ++ map (fun i => card_seq db + 1 + Z.of_nat i)
            (List.seq 0 (length (card_rows match_id r))))%list.
Proof.
  rewrite map_app. f_equal. unfold number_cards. apply numbered_ids.
  intros f i Hf. unfold card_rows in Hf. apply in_map_iff in Hf as (x & <- & _).
  reflexivity.
Qed.

Lemma forall_map_iff {A B} (f : A -> B) (P : B -> Prop) (l : list A) :
  Forall P (map f l) <-> Forall (fun x => P (f x)) l.
Proof.
  rewrite !List.Forall_forall. split.
  - intros H x Hx. apply H. apply in_map. exact Hx.
  - intros H y Hy. apply in_map_iff in Hy as (x & <- & Hx). auto.
Qed.

(** X9.  Ingestion preserves the key constraints of the schema: whatever the
    response, match ids and appearance keys stay unique, and the shots and
    cards it adds get fresh ids above every id in use. *)
Theorem ingestion_preserves_keys db match_id response :
  Props.keys_ok db -> Props.keys_ok (load_match_directly match_id response db).
Proof.
  intros (Hm & Hp & Hs & Hc & Hsb & Hcb).
  destruct response as [r|]; [|repeat split; assumption].
  assert (Hm' : List.NoDup (map m_id
                  (List.filter (fun m => negb (String.eqb (m_id m) match_id)) (matches db)
                   ++ [match_row match_id r]))).
  { apply (upsert_keeps_ids_distinct (matches db) (match_row match_id r)). exact Hm. }
  assert (Hsame : Props.keys_ok
            {| matches := (List.filter (fun m => negb (String.eqb (m_id m) match_id))
                             (matches db) ++ [match_row match_id r])%list;
               player_match_details := player_match_details db;
               shots := shots db; cards := cards db;
               shot_seq := shot_seq db; card_seq := card_seq db |}).
  { repeat split; assumption. }
  rewrite load_cases. cbv zeta.
  destruct (negb (finished r)); [exact Hsame|].
  destruct (if is_nil (player_rows match_id r) then Some (player_match_details db)
            else insert_player_rows (player_rows match_id r) (player_match_details db))
    as [table|] eqn:E; [|exact Hsame].
  assert (Ht : List.NoDup (map Props.player_key table)).
  { destruct (is_nil (player_rows match_id r)).
    - injection E as <-. exact Hp.
    - eapply insert_player_rows_keys; eauto. }
  apply (proj2 (forall_map_iff s_shot_id (fun i => i <= shot_seq db) _)) in Hsb.
  apply (proj2 (forall_map_iff c_card_id (fun i => i <= card_seq db) _)) in Hcb.
  destruct (fresh_ids (shot_seq db) (length (shot_rows match_id r)) _ Hs Hsb)
    as [Hs1 Hs2].
  destruct (fresh_ids (card_seq db) (length (card_rows match_id r)) _ Hc Hcb)
    as [Hc1 Hc2].
  rewrite <- shot_ids_after in Hs1, Hs2. rewrite <- card_ids_after in Hc1, Hc2.
  apply (proj1 (forall_map_iff s_shot_id _ _)) in Hs2.
  apply (proj1 (forall_map_iff c_card_id _ _)) in Hc2.
  repeat split; assumption.
Qed.

Lemma sample_keys_ok : Props.keys_ok Sample.db.
Proof.
  unfold Props.keys_ok. simpl.
  repeat split; repeat constructor; simpl; try lia; intuition discriminate.
Defined.

Lemma ingestion_preserves_keys_witness :
  Props.keys_ok (load_match_directly "7"
                   (Some (Sample.a_payload true [Sample.a_raw_player 101])) Sample.db).
Proof.
  apply ingestion_preserves_keys. exact sample_keys_ok.
Defined.

(** X10.  A stored card comes from a carded event on the pitch: every card in
    the table after an ingestion either was there before, or belongs to
    the match, has the non-empty card type of one of the payload's events
    whose description is not [not_on_pitch], and is booked to the home or
    the away side of the payload. *)
Theorem stored_cards_are_on_pitch_cards db match_id r (c : CardRow) :
  In c (cards (load_match_directly match_id (Some r) db)) ->
  In c (cards db)
  \/ (c_match_id c = match_id
      /\ c_card_type c <> ""
      /\ (c_team_id c = Py.str (team_id (homeTeam r))
          \/ c_team_id c = Py.str (team_id (awayTeam r)))
      /\ exists ev, In ev (events r)
                    /\ ev_card ev = Some (c_card_type c)
                    /\ ev_cardDescription ev <> Some (Some "not_on_pitch")).
Proof.
  rewrite load_cases. cbv zeta.
  destruct (negb (finished r)); [left; assumption|].
  destruct (if is_nil (player_rows match_id r) then _ else _); [|left; assumption].
  simpl. intros Hin. apply in_app_or in Hin as [Hin | Hin]; [left; exact Hin | right].
  pose proof (number_cards_fields (card_seq db) match_id
                (Py.str (team_id (homeTeam r))) (Py.str (team_id (awayTeam r)))
                (List.filter is_card (events r))) as H.
  rewrite List.Forall_forall in H. destruct (H c Hin) as (Hm & ev & Hev & Ht & Hteam).
  apply filter_In in Hev as [Hev Hcard]. unfold is_card in Hcard.
  apply andb_true_iff in Hcard as [Htruthy Hdesc].
  destruct (ev_card ev) as [s|] eqn:Es; [|discriminate]. simpl in Ht, Htruthy.
  split; [exact Hm|]. split; [|split].
  - rewrite Ht. intros ->. discriminate.
  - rewrite Hteam. destruct (ev_isHome ev); auto.
  - exists ev. split; [exact Hev|]. split; [rewrite Es, Ht; reflexivity|].
    intros Ed. rewrite Ed in Hdesc. discriminate.
Qed.

Lemma stored_cards_are_on_pitch_cards_witness :
  let r := Sample.with_events (Sample.a_payload true [])
             [Sample.a_raw_card "Red" (Some (Some "not_on_pitch")) false;
              Sample.a_raw_card "Yellow" None true] in
  let c := nth 0 (cards (load_match_directly "7" (Some r) empty_db))
               (Sample.a_card 0 "" "") in
  c_match_id c = "7" /\ c_card_type c = "Yellow" /\ c_team_id c = "10".
Proof.
  cbv zeta.
  destruct (stored_cards_are_on_pitch_cards empty_db "7"
              (Sample.with_events (Sample.a_payload true [])
                 [Sample.a_raw_card "Red" (Some (Some "not_on_pitch")) false;
                  Sample.a_raw_card "Yellow" None true])
              (nth 0 (cards (load_match_directly "7"
                               (Some (Sample.with_events (Sample.a_payload true [])
                                        [Sample.a_raw_card "Red"
                                           (Some (Some "not_on_pitch")) false;
                                         Sample.a_raw_card "Yellow" None true]))
                               empty_db))
                   (Sample.a_card 0 "" "")))
    as [H | (Hm & _)].
  - vm_compute. left. reflexivity.
  - destruct H.
  - split; [exact Hm|]. vm_compute. split; reflexivity.
Defined.

End IngestKeys.

(* ===================================================================== *)
(** * Further properties of the leaderboards *)
(* ===================================================================== *)

Section LeaderboardFacts.
Import Schema Ranking.

Lemma opt_text_eqb_eq (a b : option string) :
  Sql.opt_text_eqb a b = true <-> a = b.
Proof.
  destruct a as [x|], b as [y|]; simpl; try (split; [discriminate | congruence]).
  - rewrite String.eqb_eq. split; congruence.
  - split; reflexivity.
Qed.

Lemma distinct_NoDup {A} (eqb : A -> A -> bool) (l : list A) :
  (forall a b, eqb a b = true <-> a = b) -> List.NoDup (Sql.distinct eqb l).
Proof.
  intros Heq. induction l as [|x l IH]; simpl; constructor.
  - intros Hin. apply filter_In in Hin as [_ H].
    rewrite (proj2 (Heq x x) eq_refl) in H. discriminate.
  - apply List.NoDup_filter. exact IH.
Qed.

Lemma distinct_length {A} (eqb : A -> A -> bool) (l : list A) :
  (length (Sql.distinct eqb l) <= length l)%nat.
Proof.
  induction l as [|x l IH]; simpl; [lia|].
  pose proof (List.filter_length_le (fun y => negb (eqb x y)) (Sql.distinct eqb l)). lia.
Qed.

Lemma dict_set_nodup (k : string) (v : option string)
      (d : list (string * option string)) :
  List.NoDup (map fst d) -> List.NoDup (map fst (dict_set k v d)).
Proof.
  induction d as [|[k' v'] d IH]; simpl; intros H.
  - constructor; [intros []|constructor].
  - inversion H as [|? ? Hn Hd]; subst.
    destruct (String.eqb k k') eqn:E; simpl; constructor; auto.
    rewrite dict_set_keys. intros [-> | Hin]; [|exact (Hn Hin)].
    rewrite String.eqb_refl in E. discriminate.
Qed.

(** The keys of [teams_map] are distinct, as those of any dict. *)
Lemma team_ids_nodup db : List.NoDup (team_ids db).
Proof.
  unfold team_ids, teams_map.
  generalize (Sql.distinct pair_eqb
                (map (fun m => (m_id_home_team m, m_home_team m)) (matches db))).
  intros pairs.
  assert (H : forall d, List.NoDup (map fst d) ->
                        List.NoDup (map fst (fold_left
                           (fun d r => dict_set (fst r) (snd r) d) pairs d))).
  { induction pairs as [|p pairs IH]; simpl; intros d Hd; [exact Hd|].
    apply IH. apply dict_set_nodup. exact Hd. }
  apply H. constructor.
Qed.

Lemma team_window_pj db category filter_type n tm tid em ea :
  team_window db category filter_type n tm tid = Some (em, ea) ->
  e_pj em = Z.of_nat (length (last_matches db tid n))
  /\ e_pj ea = Z.of_nat (length (last_matches db tid n))
  /\ e_name em = team_name tm tid /\ e_name ea = team_name tm tid.
Proof.
  unfold team_window. cbv zeta.
  destruct (Z.of_nat (length (last_matches db tid n)) =? 0) eqn:E.
  - apply Z.eqb_eq in E. intros H. injection H as <- <-. simpl. rewrite E. auto.
  - destruct (total_made _ _ _ _ _); [|discriminate].
    destruct (total_against _ _ _ _ _); [|discriminate].
    destruct (window_avg _ _); [|discriminate].
    destruct (window_avg _ _); [|discriminate].
    intros H. injection H as <- <-. simpl. auto.
Qed.

Lemma window_loop_ids db category filter_type n tm ids made against :
  window_loop db category filter_type n tm ids = Some (made, against) ->
  map e_id made = ids /\ map e_id against = ids.
Proof.
  revert made against. induction ids as [|tid ids IH]; simpl; intros made against H.
  - injection H as <- <-. auto.
  - destruct (team_window db category filter_type n tm tid) as [[em ea]|] eqn:E;
      [|discriminate].
    destruct (window_loop db category filter_type n tm ids) as [[ms as_]|];
      [|discriminate].
    injection H as <- <-. destruct (IH _ _ eq_refl) as [Hm Ha].
    destruct (team_window_id _ _ _ _ _ _ _ _ E) as [Hi Hj].
    simpl. rewrite Hm, Ha, Hi, Hj. auto.
Qed.

Lemma window_loop_pj db category filter_type n tm ids made against :
  window_loop db category filter_type n tm ids = Some (made, against) ->
  forall e, In e made \/ In e against ->
            e_pj e = Z.of_nat (length (last_matches db (e_id e) n)).
Proof.
  revert made against. induction ids as [|tid ids IH]; simpl; intros made against H.
  - injection H as <- <-. intros e [[] | []].
  - destruct (team_window db category filter_type n tm tid) as [[em ea]|] eqn:E;
      [|discriminate].
    destruct (window_loop db category filter_type n tm ids) as [[ms as_]|];
      [|discriminate].
    injection H as <- <-.
    destruct (team_window_id _ _ _ _ _ _ _ _ E) as [Hm Ha].
    destruct (team_window_pj _ _ _ _ _ _ _ _ E) as (Pm & Pa & _).
    intros e [[<- | He] | [<- | He]].
    + rewrite Hm. exact Pm.
    + apply (IH _ _ eq_refl). left. exact He.
    + rewrite Ha. exact Pa.
    + apply (IH _ _ eq_refl). right. exact He.
Qed.

Lemma last_matches_length db tid n :
  0 < n ->
  Z.of_nat (length (last_matches db tid n)) <= n
  /\ (length (last_matches db tid n) <= length (Spec.own_finished db tid))%nat.
Proof.
  intros Hn. unfold last_matches, Sql.limit, Spec.own_finished.
  destruct (n <? 0) eqn:E; [apply Z.ltb_lt in E; lia|].
  rewrite length_map, length_firstn, sort_desc_length. split; lia.
Qed.

(** X11.  With a window, the two leaderboards hold exactly one entry for each
    team that is the home side of some stored match, whatever it did in
    the window, and no entry for any other team; the entry's [pj] is the
    number of matches of the window, never more than the limit. *)
Theorem windowed_one_entry_per_home_team db category filter_type order_by n
        made against :
  0 < n ->
  get_team_stats_core db category filter_type order_by (Some n)
  = Some (made, against) ->
  (forall tid, In tid (map e_id made)
               <-> exists m, In m (matches db) /\ m_id_home_team m = tid)
  /\ List.NoDup (map e_id made)
  /\ Permutation (map e_id against) (map e_id made)
  /\ forall e, In e made \/ In e against -> 0 <= e_pj e <= n.
Proof.
  intros Hn H. rewrite get_team_stats_core_windowed in H by lia.
  unfold stats_windowed in H.
  destruct (window_loop db category filter_type n (teams_map db) (team_ids db))
    as [[ms as_]|] eqn:E; [|discriminate].
  injection H as <- <-.
  destruct (window_loop_ids _ _ _ _ _ _ _ _ E) as [Hm Ha].
  assert (Pm : Permutation (map e_id (Sql.sort_desc (entry_lt order_by) ms))
                           (team_ids db)).
  { rewrite <- Hm. apply Permutation_map. apply sort_desc_perm. }
  assert (Pa : Permutation (map e_id (Sql.sort_desc (entry_lt order_by) as_))
                           (team_ids db)).
  { rewrite <- Ha. apply Permutation_map. apply sort_desc_perm. }
  split; [|split; [|split]].
  - intros tid. rewrite <- team_ids_home. split; apply Permutation_in;
      [exact Pm | symmetry; exact Pm].
  - eapply Permutation_NoDup; [symmetry; exact Pm | apply team_ids_nodup].
  - rewrite Pa, Pm. reflexivity.
  - intros e He.
    assert (He' : In e ms \/ In e as_).
    { destruct He as [He | He]; [left | right];
        apply (proj1 (sort_desc_In (entry_lt order_by) _ _)) in He; exact He. }
    rewrite (window_loop_pj _ _ _ _ _ _ _ _ E e He').
    pose proof (last_matches_length db (e_id e) n Hn). lia.
Qed.

Lemma windowed_one_entry_per_home_team_witness :
  exists made against,
    get_team_stats_core Sample.db "shots" "all" "total" (Some 1) = Some (made, against)
    /\ List.NoDup (map e_id made)
    /\ forall e, In e made -> 0 <= e_pj e <= 1.
Proof.
  destruct (get_team_stats_core Sample.db "shots" "all" "total" (Some 1))
    as [[made against]|] eqn:E; [|vm_compute in E; discriminate].
  exists made, against. split; [reflexivity|].
  destruct (windowed_one_entry_per_home_team Sample.db "shots" "all" "total" 1
              made against ltac:(lia) E) as (_ & Hnd & _ & Hpj).
  split; [exact Hnd|]. intros e He. apply Hpj. left. exact He.
Defined.

(** ** Order of the leaderboards *)

Lemma sorted_map {A B} (f : A -> B) (R : A -> A -> Prop) (S : B -> B -> Prop)
      (l : list A) :
  (forall x y, R x y -> S (f x) (f y)) ->
  StronglySorted R l -> StronglySorted S (map f l).
Proof.
  intros HRS H. induction H as [|x l Hs IH Hx]; simpl; constructor; [exact IH|].
  rewrite List.Forall_forall in *. intros y Hy.
  apply in_map_iff in Hy as (z & <- & Hz). apply HRS. exact (Hx z Hz).
Qed.

Lemma order_stats_total_sorted tm (rows : list StatRow) :
  StronglySorted (fun a b => e_total b <= e_total a)
                 (structure tm (order_stats "total" rows)).
Proof.
  unfold structure, order_stats.
  apply (sorted_map _ (fun x y => stat_lt "total" x y = false)).
  - intros [[[k t] p] v] [[[k' t'] p'] v']. simpl. intros H.
    apply Z.ltb_ge in H. exact H.
  - apply sort_desc_sorted.
    + intros [[[k t] p] v] [[[k' t'] p'] v']. simpl. rewrite Z.ltb_lt, Z.ltb_ge. lia.
    + intros [[[k t] p] v] [[[k' t'] p'] v'] [[[k2 t2] p2] v2]. simpl.
      rewrite !Z.ltb_ge. lia.
Qed.

Lemma entries_total_sorted (l : list Entry) :
  StronglySorted (fun a b => e_total b <= e_total a)
                 (Sql.sort_desc (entry_lt "total") l).
Proof.
  rewrite <- (List.map_id (Sql.sort_desc (entry_lt "total") l)).
  apply (sorted_map (fun e => e) (fun x y => entry_lt "total" x y = false)).
  - intros x y. unfold entry_lt. simpl. apply Z.ltb_ge.
  - apply sort_desc_sorted; unfold entry_lt; simpl.
    + intros x y. rewrite Z.ltb_lt, Z.ltb_ge. lia.
    + intros x y z. rewrite !Z.ltb_ge. lia.
Qed.

Lemma made_q_total_sorted db category filter_type tm rows :
  made_q db category filter_type "total" = Some rows ->
  StronglySorted (fun a b => e_total b <= e_total a) (structure tm rows).
Proof.
  unfold made_q. intros H.
  repeat match type of H with
         | (if ?c then _ else _) = _ => destruct c
         end; try discriminate; injection H as <-; apply order_stats_total_sorted.
Qed.

Lemma against_q_total_sorted db category filter_type tm rows :
  against_q db category filter_type "total" = Some rows ->
  StronglySorted (fun a b => e_total b <= e_total a) (structure tm rows).
Proof.
  unfold against_q. intros H.
  repeat match type of H with
         | (if ?c then _ else _) = _ => destruct c
         end; try discriminate; injection H as <-; apply order_stats_total_sorted.
Qed.

Lemma stats_unlimited_total_sorted db category filter_type made against :
  stats_unlimited db category filter_type "total" = Some (made, against) ->
  StronglySorted (fun a b => e_total b <= e_total a) made
  /\ StronglySorted (fun a b => e_total b <= e_total a) against.
Proof.
  unfold stats_unlimited. change (sort_metric "total") with "total".
  destruct (made_q db category filter_type "total") as [rm|] eqn:Em; [|discriminate].
  destruct (against_q db category filter_type "total") as [ra|] eqn:Ea;
    [|discriminate].
  intros H. injection H as <- <-. split.
  - eapply made_q_total_sorted; eauto.
  - eapply against_q_total_sorted; eauto.
Qed.

(** X12.  Ordered by total, both leaderboards are in descending order of the
    total, with or without a window: no entry has a smaller total than an
    entry after it. *)
Theorem leaderboards_descend_by_total db category filter_type limit made against :
  get_team_stats_core db category filter_type "total" limit = Some (made, against) ->
  StronglySorted (fun a b => e_total b <= e_total a) made
  /\ StronglySorted (fun a b => e_total b <= e_total a) against.
Proof.
  unfold get_team_stats_core. destruct (limit_falsy limit).
  - apply stats_unlimited_total_sorted.
  - unfold stats_windowed.
    destruct (window_loop _ _ _ _ _ _) as [[ms as_]|]; [|discriminate].
    intros H. injection H as <- <-. split; apply entries_total_sorted.
Qed.

Lemma leaderboards_descend_by_total_witness :
  exists made against,
    get_team_stats_core Sample.db "shots" "all" "total" None = Some (made, against)
    /\ StronglySorted (fun a b => e_total b <= e_total a) made.
Proof.
  destruct (get_team_stats_core Sample.db "shots" "all" "total" None)
    as [[made against]|] eqn:E; [|vm_compute in E; discriminate].
  exists made, against. split; [reflexivity|].
  exact (proj1 (leaderboards_descend_by_total Sample.db "shots" "all" None
                  made against E)).
Defined.

(** ** Ranks are positions *)

Lemma rank_dict_from_notin (keys : list string) (i : Z) (acc : gmap string Z)
      (k : string) :
  ~ In k keys -> rank_dict_from i keys acc !! k = acc !! k.
Proof.
  revert i acc. induction keys as [|k0 keys IH]; simpl; intros i acc Hn; [reflexivity|].
  rewrite IH by tauto. apply lookup_insert_ne. intros ->. apply Hn. left. reflexivity.
Qed.

Lemma rank_dict_from_nth (keys : list string) (i : Z) (acc : gmap string Z)
      (j : nat) (k : string) :
  List.NoDup keys -> nth_error keys j = Some k ->
  rank_dict_from i keys acc !! k = Some (i + 1 + Z.of_nat j).
Proof.
  revert i acc j. induction keys as [|k0 keys IH]; intros i acc j Hnd Hj.
  - destruct j; discriminate.
  - inversion Hnd as [|? ? Hn Hnd']; subst. destruct j as [|j]; simpl in *.
    + injection Hj as ->. rewrite rank_dict_from_notin by exact Hn.
      rewrite lookup_insert_eq. f_equal. lia.
    + rewrite (IH _ _ j Hnd' Hj). f_equal. lia.
Qed.

Lemma opt_keys_nodup (ks : list (option string)) :
  List.NoDup ks -> (forall k, In k ks -> k <> None) ->
  List.NoDup (map str_opt ks).
Proof.
  induction ks as [|k ks IH]; simpl; intros Hnd Hsome; [constructor|].
  inversion Hnd as [|? ? Hn Hnd']; subst. constructor; [|apply IH; auto].
  intros Hin. apply in_map_iff in Hin as (k' & E & Hk'). apply Hn.
  destruct k as [x|]; [|exfalso; apply (Hsome None); auto].
  destruct k' as [y|]; [|exfalso; apply (Hsome None); auto].
  simpl in E. subst. exact Hk'.
Qed.

Lemma group_by_keys {A} (key : A -> option string) (rows : list A) :
  List.NoDup (map fst (Sql.group_by key rows))
  /\ forall k, In k (map fst (Sql.group_by key rows)) <-> In k (map key rows).
Proof.
  unfold Sql.group_by. rewrite map_map. simpl. rewrite List.map_id.
  pose proof (sort_desc_perm (fun a b => Sql.opt_text_ltb b a)
                (Sql.distinct Sql.opt_text_eqb (map key rows))) as P.
  split.
  - eapply Permutation_NoDup; [symmetry; exact P|].
    apply distinct_NoDup. apply opt_text_eqb_eq.
  - intros k. rewrite sort_desc_In. split.
    + apply distinct_In.
    + apply In_distinct. apply opt_text_eqb_eq.
Qed.

Lemma structure_ids tm (data : list StatRow) :
  map e_id (structure tm data) = map str_opt (map Props.row_key data).
Proof.
  unfold structure. rewrite !map_map. apply map_ext. intros [[[k t] p] v]. reflexivity.
Qed.

Lemma grouped_ids_nodup tm ob (data : list StatRow) :
  List.NoDup (map Props.row_key data) ->
  (forall k, In k (map Props.row_key data) -> k <> None) ->
  List.NoDup (map e_id (structure tm (order_stats ob data))).
Proof.
  intros Hnd Hsome. rewrite structure_ids.
  assert (P : Permutation (map Props.row_key (order_stats ob data)) (map Props.row_key data)).
  { apply Permutation_map. apply order_groups_desc_perm. }
  apply opt_keys_nodup.
  - eapply Permutation_NoDup; [symmetry; exact P | exact Hnd].
  - intros k Hk. apply Hsome. eapply Permutation_in; [exact P | exact Hk].
Qed.

Lemma count_groups_keys {A} (key : A -> option string) (mid : A -> string)
      (rows : list A) :
  map Props.row_key (count_groups key mid rows) = map fst (Sql.group_by key rows).
Proof. unfold count_groups. rewrite map_map. reflexivity. Qed.

Lemma sum_groups_keys {A} (key : A -> option string) (mid : A -> string)
      (col : A -> Z) (rows : list A) :
  map Props.row_key (sum_groups key mid col rows) = map fst (Sql.group_by key rows).
Proof. unfold sum_groups. rewrite map_map. reflexivity. Qed.

Lemma count_groups_ids {A} (key : A -> string) (mid : A -> string) (rows : list A)
      tm ob :
  List.NoDup (map e_id (structure tm (order_stats ob
                          (count_groups (fun r => Some (key r)) mid rows)))).
Proof.
  apply grouped_ids_nodup; rewrite count_groups_keys.
  - apply group_by_keys.
  - intros k Hk. apply (proj1 (proj2 (group_by_keys _ _) k)) in Hk.
    apply in_map_iff in Hk as (r & <- & _). discriminate.
Qed.

Lemma sum_groups_ids {A} (key : A -> string) (mid : A -> string) (col : A -> Z)
      (rows : list A) tm ob :
  List.NoDup (map e_id (structure tm (order_stats ob
                          (sum_groups (fun r => Some (key r)) mid col rows)))).
Proof.
  apply grouped_ids_nodup; rewrite sum_groups_keys.
  - apply group_by_keys.
  - intros k Hk. apply (proj1 (proj2 (group_by_keys _ _) k)) in Hk.
    apply in_map_iff in Hk as (r & <- & _). discriminate.
Qed.

(** Without a window no team has two entries in a leaderboard. *)
Lemma stats_unlimited_ids db category filter_type order_by made against :
  stats_unlimited db category filter_type order_by = Some (made, against) ->
  List.NoDup (map e_id made) /\ List.NoDup (map e_id against).
Proof.
  unfold stats_unlimited, made_q, against_q. intros H.
  repeat match type of H with
         | context [if ?c then _ else _] => destruct c
         end; try discriminate; injection H as <- <-;
    split; first [apply count_groups_ids | apply sum_groups_ids].
Qed.

Lemma rank_dict_position (l : list Entry) :
  List.NoDup (map e_id l) ->
  (forall i e, nth_error l i = Some e ->
               rank_dict (map e_id l) !! e_id e = Some (Z.of_nat i + 1))
  /\ (forall k, ~ In k (map e_id l) -> rank_dict (map e_id l) !! k = None).
Proof.
  intros Hnd. split.
  - intros i e Hi. unfold rank_dict.
    rewrite (rank_dict_from_nth _ 0 ∅ i (e_id e) Hnd).
    + f_equal. lia.
    + rewrite nth_error_map, Hi. reflexivity.
  - intros k Hk. unfold rank_dict. rewrite rank_dict_from_notin by exact Hk.
    apply lookup_empty.
Qed.

(** X13.  The rank of a team is its position in the leaderboard without
    window, counted from 1, and a team without entry has no rank: the
    dictionaries of [get_rankings_from_stats] map the id of the entry at
    index [i] to [i + 1] and hold no other key. *)
Theorem rank_is_leaderboard_position db category filter_type order_by made against :
  get_team_stats_core db category filter_type order_by None = Some (made, against) ->
  exists m a,
    get_rankings_from_stats db category filter_type order_by = Some (m, a)
    /\ (forall i e, nth_error made i = Some e -> m !! e_id e = Some (Z.of_nat i + 1))
    /\ (forall k, ~ In k (map e_id made) -> m !! k = None)
    /\ (forall i e, nth_error against i = Some e -> a !! e_id e = Some (Z.of_nat i + 1))
    /\ (forall k, ~ In k (map e_id against) -> a !! k = None).
Proof.
  intros H. unfold get_rankings_from_stats. rewrite H.
  destruct (stats_unlimited_ids _ _ _ _ _ _ H) as [Hm Ha].
  destruct (rank_dict_position made Hm) as [Hm1 Hm2].
  destruct (rank_dict_position against Ha) as [Ha1 Ha2].
  eexists _, _. split; [reflexivity|]. auto.
Qed.

(** With its two shots team B leads the shots of the larger sample
    league alone; team D has no shot and no rank. *)
Lemma rank_is_leaderboard_position_witness :
  exists m a,
    get_rankings_from_stats Sample.db_more "shots" "all" "total" = Some (m, a)
    /\ m !! "B" = Some 1 /\ m !! "D" = None.
Proof.
  destruct (get_team_stats_core Sample.db_more "shots" "all" "total" None)
    as [[made against]|] eqn:E; [|vm_compute in E; discriminate].
  destruct (rank_is_leaderboard_position Sample.db_more "shots" "all" "total"
              made against E) as (m & a & Hr & Hpos & Hnone & _).
  exists m, a. split; [exact Hr|].
  vm_compute in E. injection E as <- <-. split.
  - exact (Hpos 0%nat _ eq_refl).
  - apply Hnone. simpl. intuition discriminate.
Defined.

Lemma sorted_nth {A} (R : A -> A -> Prop) (l : list A) (i j : nat) (x y : A) :
  StronglySorted R l -> (i < j)%nat ->
  nth_error l i = Some x -> nth_error l j = Some y -> R x y.
Proof.
  intros Hs. revert i j. induction Hs as [|a l Hs IH Ha]; intros i j Hij Hi Hj.
  - destruct i; discriminate.
  - destruct j as [|j]; [lia|]. simpl in Hj. destruct i as [|i]; simpl in Hi.
    + injection Hi as ->. rewrite List.Forall_forall in Ha. apply Ha.
      eapply nth_error_In. exact Hj.
    + apply (IH i j); [lia | exact Hi | exact Hj].
Qed.

Lemma ranks_follow_totals (l : list Entry) (x y : Entry) :
  List.NoDup (map e_id l) ->
  StronglySorted (fun a b => e_total b <= e_total a) l ->
  In x l -> In y l -> e_total y < e_total x ->
  exists rx ry,
    rank_dict (map e_id l) !! e_id x = Some rx
    /\ rank_dict (map e_id l) !! e_id y = Some ry /\ rx < ry.
Proof.
  intros Hnd Hs Hx Hy Hlt.
  destruct (rank_dict_position l Hnd) as [Hpos _].
  apply In_nth_error in Hx as [i Hi]. apply In_nth_error in Hy as [j Hj].
  exists (Z.of_nat i + 1), (Z.of_nat j + 1).
  split; [exact (Hpos _ _ Hi)|]. split; [exact (Hpos _ _ Hj)|].
  destruct (Nat.lt_trichotomy i j) as [Hij | [-> | Hji]]; [lia | |].
  - rewrite Hi in Hj. injection Hj as ->. lia.
  - pose proof (sorted_nth _ _ _ _ _ _ Hs Hji Hj Hi) as Hle. simpl in Hle. lia.
Qed.

(** X14.  More events, better rank: in both dictionaries of ranks the
    predictor reads (ordered by total, no window), the 'made' and the
    'against' one, a team whose total in the leaderboard is strictly
    greater than another's has a strictly smaller rank number. *)
Theorem more_events_better_rank db category filter_type made against :
  get_team_stats_core db category filter_type "total" None = Some (made, against) ->
  exists m a,
    get_rankings_from_stats db category filter_type "total" = Some (m, a)
    /\ (forall x y, In x made -> In y made -> e_total y < e_total x ->
          exists rx ry,
            m !! e_id x = Some rx /\ m !! e_id y = Some ry /\ rx < ry)
    /\ (forall x y, In x against -> In y against -> e_total y < e_total x ->
          exists rx ry,
            a !! e_id x = Some rx /\ a !! e_id y = Some ry /\ rx < ry).
Proof.
  intros H.
  destruct (stats_unlimited_ids _ _ _ _ _ _ H) as [Hndm Hnda].
  destruct (stats_unlimited_total_sorted _ _ _ _ _ H) as [Hsm Hsa].
  exists (rank_dict (map e_id made)), (rank_dict (map e_id against)).
  split; [unfold get_rankings_from_stats; rewrite H; reflexivity|].
  split; intros x y Hx Hy Hlt.
  - exact (ranks_follow_totals made x y Hndm Hsm Hx Hy Hlt).
  - exact (ranks_follow_totals against x y Hnda Hsa Hx Hy Hlt).
Qed.

(** In the larger sample league B made two shots and C one; A had three
    shots against and C one. *)
Lemma more_events_better_rank_witness :
  exists m a,
    get_rankings_from_stats Sample.db_more "shots" "all" "total" = Some (m, a)
    /\ (exists rx ry, m !! "B" = Some rx /\ m !! "C" = Some ry /\ rx < ry)
    /\ (exists rx ry, a !! "A" = Some rx /\ a !! "C" = Some ry /\ rx < ry).
Proof.
  destruct (get_team_stats_core Sample.db_more "shots" "all" "total" None)
    as [[made against]|] eqn:E; [|vm_compute in E; discriminate].
  pose proof E as E'. vm_compute in E'. injection E' as Hm Ha.
  pose (d := zero_entry [] "").
  destruct (more_events_better_rank Sample.db_more "shots" "all" made against E)
    as (m & a & Hr & Hmade & Hagainst).
  exists m, a. split; [exact Hr|].
  pose proof (Hmade (nth 0 made d) (nth 1 made d)) as H1.
  pose proof (Hagainst (nth 0 against d) (nth 1 against d)) as H2.
  subst made against. simpl in H1, H2.
  split; [apply H1 | apply H2]; auto; lia.
Defined.

(** Teams with equal totals: in the sample league A, B and C made one
    shot each, and the list without window names them C, B, A. *)
Example tied_teams_by_descending_id :
  option_map (fun r => map e_id (fst r))
             (get_team_stats_core Sample.db "shots" "all" "total" None)
  = Some ["C"; "B"; "A"].
Proof. vm_compute. reflexivity. Qed.

End LeaderboardFacts.

(* ===================================================================== *)
(** * Totals of the leaderboards without window *)
(* ===================================================================== *)

Section LeaderboardTotals.
Import Schema Ranking.

Lemma group_nonempty {A} (key : A -> option string) (rows : list A)
      (g : option string * list A) :
  In g (Sql.group_by key rows) -> snd g <> [].
Proof.
  intros Hg. apply group_by_In in Hg as [-> Hk].
  apply in_map_iff in Hk as (r & E & Hr). intros Hnil.
  assert (Hin : In r (List.filter (fun r => Sql.opt_text_eqb (key r) (fst g)) rows)).
  { apply filter_In. split; [exact Hr|]. apply opt_text_eqb_eq. exact E. }
  rewrite Hnil in Hin. exact Hin.
Qed.

Lemma count_distinct_bounds (l : list string) :
  l <> [] -> 1 <= Sql.count_distinct l <= Sql.count l.
Proof.
  intros Hl. unfold Sql.count_distinct, Sql.count.
  pose proof (distinct_length String.eqb l).
  destruct l as [|x l]; [congruence|]. simpl in *. lia.
Qed.

Lemma count_groups_row {A} (key : A -> option string) (mid : A -> string)
      (rows : list A) k total pj avg :
  In (k, total, pj, avg) (count_groups key mid rows) -> 1 <= pj <= total.
Proof.
  unfold count_groups. intros H. apply in_map_iff in H as (g & E & Hg).
  cbv zeta in E. injection E as _ <- <- _.
  apply group_nonempty in Hg.
  assert (Hm : map mid (snd g) <> []) by (destruct (snd g); [congruence | discriminate]).
  pose proof (count_distinct_bounds _ Hm) as Hb.
  unfold Sql.count in *. rewrite length_map in Hb. exact Hb.
Qed.

Lemma sum_groups_row {A} (key : A -> option string) (mid : A -> string)
      (col : A -> Z) (rows : list A) k total pj avg :
  In (k, total, pj, avg) (sum_groups key mid col rows) -> 1 <= pj.
Proof.
  unfold sum_groups. intros H. apply in_map_iff in H as (g & E & Hg).
  cbv zeta in E. injection E as _ _ <- _.
  apply group_nonempty in Hg.
  assert (Hm : map mid (snd g) <> []) by (destruct (snd g); [congruence | discriminate]).
  pose proof (count_distinct_bounds _ Hm) as Hb. lia.
Qed.

Lemma structure_row tm ob (rows : list StatRow) (e : Entry) :
  In e (structure tm (order_stats ob rows)) ->
  exists k avg, In (k, e_total e, e_pj e, avg) rows.
Proof.
  unfold structure, order_stats. intros H.
  apply in_map_iff in H as ([[[k t] p] v] & <- & Hr).
  apply order_groups_desc_In in Hr. exists k, v. exact Hr.
Qed.

Lemma count_entry {A} (key : A -> option string) (mid : A -> string)
      (rows : list A) tm ob e :
  In e (structure tm (order_stats ob (count_groups key mid rows))) ->
  1 <= e_pj e <= e_total e.
Proof.
  intros H. apply structure_row in H as (k & avg & H).
  exact (count_groups_row _ _ _ _ _ _ _ H).
Qed.

Lemma sum_entry {A} (key : A -> option string) (mid : A -> string) (col : A -> Z)
      (rows : list A) tm ob e :
  In e (structure tm (order_stats ob (sum_groups key mid col rows))) ->
  1 <= e_pj e.
Proof.
  intros H. apply structure_row in H as (k & avg & H).
  exact (sum_groups_row _ _ _ _ _ _ _ _ H).
Qed.

(** X15.  Without a window a team is listed only if it has at least one row in
    the category: every entry has [pj >= 1], where [pj] counts the
    matches in which the team has such a row, not the matches it played;
    in the categories that count events the total is at least [pj]. *)
Theorem unlimited_entries_have_a_match db category filter_type order_by
        made against (e : Entry) :
  get_team_stats_core db category filter_type order_by None = Some (made, against) ->
  In e made \/ In e against ->
  1 <= e_pj e /\ (Spec.count_category category -> e_pj e <= e_total e).
Proof.
  unfold get_team_stats_core, stats_unlimited, made_q, against_q. simpl limit_falsy.
  cbv iota.
  destruct (String.eqb category "shots") eqn:E1;
    [|destruct (String.eqb category "headers") eqn:E2;
      [|destruct (String.eqb category "cards") eqn:E3;
        [|destruct (String.eqb category "fouls") eqn:E4; [|discriminate]]]];
    intros H; injection H as <- <-; intros [He | He].
  1-6: split; [|intros _]; apply count_entry in He; lia.
  all: split; [apply sum_entry in He; exact He|].
  all: intros [-> | [-> | ->]]; discriminate.
Qed.

Lemma unlimited_entries_have_a_match_witness :
  exists made against,
    get_team_stats_core Sample.db "cards" "all" "total" None = Some (made, against)
    /\ forall e, In e made -> 1 <= e_pj e <= e_total e.
Proof.
  destruct (get_team_stats_core Sample.db "cards" "all" "total" None)
    as [[made against]|] eqn:E; [|vm_compute in E; discriminate].
  exists made, against. split; [reflexivity|]. intros e He.
  destruct (unlimited_entries_have_a_match Sample.db "cards" "all" "total"
              made against e E (or_introl He)) as [H1 H2].
  split; [exact H1|]. apply H2. right. right. reflexivity.
Defined.

(** ** Every event is counted once on each side *)

Lemma sum_perm (l l' : list Z) : Permutation l l' -> Sql.sum l = Sql.sum l'.
Proof.
  intros P. induction P; simpl; lia.
Qed.

Lemma sum_app (l l' : list Z) : Sql.sum (l ++ l')%list = Sql.sum l + Sql.sum l'.
Proof. induction l; simpl; lia. Qed.

(** A key of a duplicate-free list matches exactly one of its elements. *)
Lemma one_key (ks : list (option string)) (k : option string) :
  List.NoDup ks -> In k ks ->
  Sql.sum (map (fun k' => if Sql.opt_text_eqb k k' then 1 else 0) ks) = 1.
Proof.
  induction ks as [|k0 ks IH]; simpl; intros Hnd Hin; [contradiction|].
  inversion Hnd as [|? ? Hn Hnd']; subst.
  destruct (Sql.opt_text_eqb k k0) eqn:E.
  - apply opt_text_eqb_eq in E. subst k0.
    assert (Hz : Sql.sum (map (fun k' => if Sql.opt_text_eqb k k' then 1 else 0) ks) = 0).
    { clear IH Hnd Hin Hnd'. induction ks as [|k1 ks IH]; simpl; [reflexivity|].
      destruct (Sql.opt_text_eqb k k1) eqn:E1.
      - apply opt_text_eqb_eq in E1. subst. exfalso. apply Hn. left. reflexivity.
      - rewrite IH; [reflexivity|]. intros H. apply Hn. right. exact H. }
    lia.
  - destruct Hin as [-> | Hin].
    + rewrite (proj2 (opt_text_eqb_eq k k) eq_refl) in E. discriminate.
    + rewrite IH by assumption. lia.
Qed.

(** The groups of a table partition it. *)
Lemma groups_partition {A} (key : A -> option string) (rows : list A)
      (ks : list (option string)) :
  List.NoDup ks -> (forall r, In r rows -> In (key r) ks) ->
  Sql.sum (map (fun k => Sql.count
                           (List.filter (fun r => Sql.opt_text_eqb (key r) k) rows)) ks)
  = Sql.count rows.
Proof.
  intros Hnd. induction rows as [|r rows IH]; intros Hcov.
  - simpl. clear Hnd Hcov. induction ks as [|k ks IHk]; simpl; [reflexivity|].
    rewrite IHk. reflexivity.
  - assert (E : map (fun k => Sql.count
                       (List.filter (fun r0 => Sql.opt_text_eqb (key r0) k) (r :: rows))) ks
                = map (fun k => (if Sql.opt_text_eqb (key r) k then 1 else 0)
                                + Sql.count
                                    (List.filter (fun r0 => Sql.opt_text_eqb (key r0) k)
                                       rows)) ks).
    { apply map_ext. intros k. simpl. unfold Sql.count.
      destruct (Sql.opt_text_eqb (key r) k); simpl; lia. }
    rewrite E.
    assert (S : forall (f g : option string -> Z) l,
               Sql.sum (map (fun k => f k + g k) l)
               = Sql.sum (map f l) + Sql.sum (map g l)).
    { intros f g l. induction l as [|x l IHl]; simpl; lia. }
    rewrite S, IH, one_key.
    + unfold Sql.count. simpl. lia.
    + exact Hnd.
    + apply Hcov. left. reflexivity.
    + intros r0 Hr0. apply Hcov. right. exact Hr0.
Qed.

Lemma structure_totals tm (data : list StatRow) :
  map e_total (structure tm data) = map (fun r => snd (fst (fst r))) data.
Proof.
  unfold structure. rewrite map_map. apply map_ext. intros [[[k t] p] v]. reflexivity.
Qed.

Lemma count_groups_sum {A} (key : A -> option string) (mid : A -> string)
      (rows : list A) tm ob :
  Sql.sum (map e_total (structure tm (order_stats ob (count_groups key mid rows))))
  = Sql.count rows.
Proof.
  rewrite structure_totals.
  rewrite (sum_perm _ (map (fun r => snd (fst (fst r))) (count_groups key mid rows))).
  2:{ apply Permutation_map. apply order_groups_desc_perm. }
  unfold count_groups. rewrite map_map. cbv zeta. simpl.
  destruct (group_by_keys key rows) as [Hnd Hk].
  rewrite <- (groups_partition key rows (map fst (Sql.group_by key rows)) Hnd).
  - rewrite map_map. f_equal. apply map_ext_in. intros g Hg.
    apply group_by_In in Hg as [-> _]. reflexivity.
  - intros r Hr. apply Hk. apply in_map. exact Hr.
Qed.

Lemma one_match (ms : list MatchRow) (mid : string) :
  List.NoDup (map m_id ms) -> In mid (map m_id ms) ->
  length (List.filter (fun m => String.eqb mid (m_id m)) ms) = 1%nat.
Proof.
  induction ms as [|m ms IH]; simpl; intros Hnd Hin; [contradiction|].
  inversion Hnd as [|? ? Hn Hnd']; subst.
  destruct (String.eqb mid (m_id m)) eqn:E.
  - apply String.eqb_eq in E. subst mid. simpl. f_equal.
    apply length_zero_iff_nil.
    assert (H : forall l, ~ In (m_id m) (map m_id l) ->
                          List.filter (fun m0 => String.eqb (m_id m) (m_id m0)) l = []).
    { intros l. induction l as [|a l IHl]; simpl; intros Hl; [reflexivity|].
      destruct (String.eqb (m_id m) (m_id a)) eqn:Ea.
      - apply String.eqb_eq in Ea. exfalso. apply Hl. left. symmetry. exact Ea.
      - apply IHl. intros H. apply Hl. right. exact H. }
    apply H. exact Hn.
  - apply IH; [exact Hnd'|]. destruct Hin as [Hin | Hin]; [|exact Hin].
    subst. rewrite String.eqb_refl in E. discriminate.
Qed.

Lemma join_one {A B} (on : A -> B -> bool) (p : A -> bool) (a : list A) (b : list B) :
  (forall x, In x a -> length (List.filter (on x) b) = 1%nat) ->
  length (List.filter (fun xy => p (fst xy)) (Sql.join on a b))
  = length (List.filter p a).
Proof.
  unfold Sql.join. induction a as [|x a IH]; simpl; intros H; [reflexivity|].
  rewrite List.filter_app, length_app, IH by (intros y Hy; apply H; right; exact Hy).
  assert (E : List.filter (fun xy : A * B => p (fst xy))
                (map (fun y => (x, y)) (List.filter (on x) b))
              = if p x then map (fun y => (x, y)) (List.filter (on x) b) else []).
  { generalize (List.filter (on x) b). intros l.
    induction l as [|y l IHl]; simpl; [destruct (p x); reflexivity|].
    rewrite IHl. destruct (p x); reflexivity. }
  rewrite E. destruct (p x); simpl; [|reflexivity].
  rewrite length_map, (H x (or_introl eq_refl)). reflexivity.
Qed.

Lemma filter_true {A} (l : list A) : List.filter (fun _ => true) l = l.
Proof. induction l; simpl; congruence. Qed.

(** X16.  In the categories that count events, when match ids are unique and
    every shot and card belongs to a stored match, the two leaderboards
    without window account for every event exactly once each: the totals
    of the [made] list and the totals of the [against] list both add up
    to the number of events of the category. *)
Theorem made_and_against_totals_balance db category filter_type order_by
        made against :
  Spec.count_category category ->
  List.NoDup (map m_id (matches db)) ->
  Props.events_have_match db ->
  get_team_stats_core db category filter_type order_by None = Some (made, against) ->
  Sql.sum (map e_total made) = Props.events_of db category filter_type
  /\ Sql.sum (map e_total against) = Props.events_of db category filter_type.
Proof.
  intros Hcat Hnd [Hs Hc].
  assert (Js : forall p, length (List.filter (fun sm => p (fst sm))
                                   (Sql.join shot_match (shots db) (matches db)))
                         = length (List.filter p (shots db))).
  { intros p. apply join_one. intros s Hin. apply one_match; auto. }
  assert (Jc : length (Sql.join card_match (cards db) (matches db))
               = length (cards db)).
  { rewrite <- (filter_true (Sql.join card_match (cards db) (matches db))).
    rewrite <- (filter_true (cards db)) at 2.
    apply (join_one card_match (fun _ => true)).
    intros c Hin. apply one_match; auto. }
  unfold get_team_stats_core, stats_unlimited, made_q, against_q, Props.events_of.
  simpl limit_falsy. cbv iota.
  destruct Hcat as [-> | [-> | ->]]; simpl; intros H; injection H as <- <-;
    rewrite !count_groups_sum; unfold Sql.count; rewrite ?Js, ?Jc; split; reflexivity.
Qed.

Lemma sample_events_have_match : Props.events_have_match Sample.db.
Proof.
  split; intros x Hx; simpl in Hx;
    repeat (destruct Hx as [<- | Hx]; [simpl; auto|]); contradiction.
Defined.

Lemma made_and_against_totals_balance_witness :
  exists made against,
    get_team_stats_core Sample.db "shots" "all" "total" None = Some (made, against)
    /\ Sql.sum (map e_total made) = 3 /\ Sql.sum (map e_total against) = 3.
Proof.
  destruct (get_team_stats_core Sample.db "shots" "all" "total" None)
    as [[made against]|] eqn:E; [|vm_compute in E; discriminate].
  exists made, against. split; [reflexivity|].
  apply (made_and_against_totals_balance Sample.db "shots" "all" "total" made against).
  - left. reflexivity.
  - simpl. repeat constructor; simpl; intuition discriminate.
  - exact sample_events_have_match.
  - exact E.
Defined.

End LeaderboardTotals.

(* ===================================================================== *)
(** * Which referees are ranked *)
(* ===================================================================== *)

Section RefereeMore.
Import Schema Ranking.

Lemma left_join_covers {A B} (on : A -> B -> bool) (a : list A) (b : list B) (x : A) :
  In x a -> exists oy, In (x, oy) (Sql.left_join on a b).
Proof.
  unfold Sql.left_join. intros Hx.
  destruct (List.filter (on x) b) as [|y ys] eqn:E.
  - exists None. apply in_flat_map. exists x. split; [exact Hx|]. rewrite E. left.
    reflexivity.
  - exists (Some y). apply in_flat_map. exists x. split; [exact Hx|]. rewrite E. left.
    reflexivity.
Qed.

Lemma option_string_dec (a b : option string) : {a = b} + {a <> b}.
Proof. decide equality. apply string_dec. Qed.

Lemma ref_dict_from_present (keys : list (option string)) (i : Z)
      (acc : gmap string Z) (name : string) :
  In (Some name) keys ->
  exists r, ref_dict_from i keys acc !! name = Some r
            /\ i + 1 <= r <= i + Z.of_nat (length keys).
Proof.
  revert i acc. induction keys as [|k keys IH]; intros i acc Hin; [contradiction|].
  destruct (in_dec option_string_dec (Some name) keys) as [Hk | Hk].
  - destruct k as [k|]; simpl.
    + destruct (IH (i + 1) (<[k := i + 1]> acc) Hk) as (r & -> & Hr).
      exists r. split; [reflexivity|]. lia.
    + destruct (IH (i + 1) acc Hk) as (r & -> & Hr).
      exists r. split; [reflexivity|]. lia.
  - destruct Hin as [-> | Hin]; [|contradiction]. simpl.
    rewrite ref_dict_from_lookup by exact Hk. rewrite lookup_insert_eq.
    exists (i + 1). split; [reflexivity|]. lia.
Qed.

(** The keys of a grouped and sorted result are the keys of the rows,
    each once. *)
Lemma grouped_sorted_keys {A B} (key : A -> option string) (agg : list A -> B)
      (lt : option string * B -> option string * B -> bool) (rows : list A) :
  let keys := map fst (Sql.order_groups_desc lt (map (fun g => (fst g, agg (snd g)))
                                             (Sql.group_by key rows))) in
  List.NoDup keys /\ forall k, In k keys <-> In k (map key rows).
Proof.
  cbv zeta.
  assert (P : Permutation
                (map fst (Sql.order_groups_desc lt (map (fun g => (fst g, agg (snd g)))
                                                (Sql.group_by key rows))))
                (map fst (Sql.group_by key rows))).
  { rewrite (Permutation_map fst (order_groups_desc_perm lt _)), map_map. simpl. reflexivity. }
  destruct (group_by_keys key rows) as [Hnd Hk]. split.
  - eapply Permutation_NoDup; [symmetry; exact P | exact Hnd].
  - intros k. rewrite <- Hk. split; apply Permutation_in; [exact P | symmetry; exact P].
Qed.

Lemma referee_keys {B C} (db : DB) (on : MatchRow -> B -> bool) (table : list B)
      (agg : list (MatchRow * option B) -> C)
      (lt : option string * C -> option string * C -> bool) (name : string) :
  let keys := map fst (Sql.order_groups_desc lt
                         (map (fun g => (fst g, agg (snd g)))
                              (Sql.group_by (fun mb => m_referee (fst mb))
                                 (Sql.left_join on (finished_matches db) table)))) in
  (exists m, In m (matches db) /\ m_finished m = true /\ m_referee m = Some name) ->
  In (Some name) keys
  /\ (length keys <= length (finished_matches db))%nat.
Proof.
  cbv zeta. intros (m & Hm & Hfin & Href).
  destruct (grouped_sorted_keys (fun mb : MatchRow * option B => m_referee (fst mb))
              agg lt (Sql.left_join on (finished_matches db) table)) as [Hnd Hk].
  split.
  - apply Hk. destruct (left_join_covers on (finished_matches db) table m) as [oy Hoy].
    { apply filter_In. auto. }
    apply in_map_iff. exists (m, oy). auto.
  - rewrite <- (length_map m_referee (finished_matches db)).
    apply NoDup_incl_length; [exact Hnd|].
    intros k Hin. apply Hk in Hin. apply in_map_iff in Hin as ([m0 oy] & <- & Hin).
    apply in_left_join in Hin. apply in_map. exact Hin.
Qed.

(** X17.  A referee named on a finished match is ranked in both referee
    dictionaries, whether or not any card or foul is stored for their
    matches, at a position between 1 and the number of finished
    matches. *)
Theorem referee_of_finished_match_is_ranked db (name : string) :
  (exists m, In m (matches db) /\ m_finished m = true /\ m_referee m = Some name) ->
  exists rc rf,
    fst (get_referee_rankings db) !! name = Some rc
    /\ snd (get_referee_rankings db) !! name = Some rf
    /\ 1 <= rc <= Sql.count (finished_matches db)
    /\ 1 <= rf <= Sql.count (finished_matches db).
Proof.
  intros H.
  assert (Hc : In (Some name) (map fst (ref_cards db))
               /\ (length (map fst (ref_cards db))
                   <= length (finished_matches db))%nat).
  { exact (referee_keys db (fun m c => String.eqb (m_id m) (c_match_id c)) (cards db)
             (fun l => Sql.count
                         (List.filter (fun mc : MatchRow * option CardRow =>
                                         match snd mc with
                                         | Some _ => true
                                         | None => false
                                         end) l))
             (fun a b => snd a <? snd b) name H). }
  assert (Hf : In (Some name) (map fst (ref_fouls db))
               /\ (length (map fst (ref_fouls db))
                   <= length (finished_matches db))%nat).
  { exact (referee_keys db (fun m p => String.eqb (m_id m) (p_match_id p))
             (player_match_details db)
             (fun l => sum_nullable
                         (map (fun mp : MatchRow * option PlayerRow =>
                                 option_map p_fouls_committed (snd mp)) l))
             (fun a b => Sql.opt_int_ltb (snd a) (snd b)) name H). }
  destruct Hc as [Hc Lc]. destruct Hf as [Hf Lf].
  destruct (ref_dict_from_present _ 0 ∅ name Hc) as (rc & Ec & Hrc).
  destruct (ref_dict_from_present _ 0 ∅ name Hf) as (rf & Ef & Hrf).
  exists rc, rf. unfold get_referee_rankings, Sql.count. simpl fst. simpl snd.
  split; [exact Ec|]. split; [exact Ef|]. lia.
Qed.

Lemma referee_of_finished_match_is_ranked_witness :
  exists rc rf,
    fst (get_referee_rankings Sample.db) !! "Ref" = Some rc
    /\ snd (get_referee_rankings Sample.db) !! "Ref" = Some rf
    /\ 1 <= rc <= 2 /\ 1 <= rf <= 2.
Proof.
  apply (referee_of_finished_match_is_ranked Sample.db "Ref").
  exists (Sample.a_match "1" "2025-01-01 17:00:00" true "A" "B").
  split; [left; reflexivity|]. split; reflexivity.
Defined.

End RefereeMore.

(* ===================================================================== *)
(** * The team page and the referee tables *)
(* ===================================================================== *)

Section PagesFacts.
Import Schema Ranking Pages.

Lemma find_stat_none (l : list Entry) (i : Z) (tid : string) :
  find_stat i l tid = None <-> ~ In tid (map e_id l).
Proof.
  revert i. induction l as [|t l IH]; intros i; simpl.
  - split; [intros _ [] | reflexivity].
  - destruct (String.eqb (e_id t) tid) eqn:E.
    + apply String.eqb_eq in E. split; [discriminate | intros H; exfalso; auto].
    + apply String.eqb_neq in E. rewrite IH. tauto.
Qed.

Lemma find_stat_some (l : list Entry) (i : Z) (tid : string) (p : Z) (t : Entry) :
  find_stat i l tid = Some (p, t) ->
  exists j, nth_error l j = Some t /\ p = i + 1 + Z.of_nat j /\ e_id t = tid.
Proof.
  revert i. induction l as [|t0 l IH]; intros i; simpl; [discriminate|].
  destruct (String.eqb (e_id t0) tid) eqn:E.
  - intros H. injection H as <- <-. exists 0%nat.
    apply String.eqb_eq in E. split; [reflexivity|]. split; [lia | exact E].
  - intros H. destruct (IH _ H) as (j & Hj & -> & Hid).
    exists (S j). split; [exact Hj|]. split; [lia | exact Hid].
Qed.

(** The position shown for a team is its rank in the dictionary built
    from the same list. *)
Lemma side_stat_rank (lbl : string) (l : list Entry) (tid : string) :
  List.NoDup (map e_id l) ->
  pos (side_stat lbl (find_stat 0 l tid)) = rank_dict (map e_id l) !! tid
  /\ label (side_stat lbl (find_stat 0 l tid)) = lbl.
Proof.
  intros Hnd. destruct (rank_dict_position l Hnd) as [Hpos Hnone].
  destruct (find_stat 0 l tid) as [[p t]|] eqn:E; simpl.
  - destruct (find_stat_some _ _ _ _ _ E) as (j & Hj & -> & <-).
    rewrite (Hpos j t Hj). split; [|reflexivity].
    destruct (0 + 1 + Z.of_nat j =? 0) eqn:Ez; [apply Z.eqb_eq in Ez; lia|].
    f_equal. lia.
  - apply find_stat_none in E. rewrite (Hnone tid E). auto.
Qed.

Lemma category_ranks_agree db tid c row :
  category_ranks db tid c = Some row -> Props.agrees_with_ranks db tid c row.
Proof.
  destruct c as [[[cat filt] lm] la]. unfold category_ranks, Props.agrees_with_ranks.
  destruct (get_team_stats_core db cat filt "total" None) as [[ml al]|] eqn:E;
    [|discriminate].
  intros H. injection H as <-. simpl.
  destruct (stats_unlimited_ids _ _ _ _ _ _ E) as [Hm Ha].
  destruct (side_stat_rank lm ml tid Hm) as [Pm Lm].
  destruct (side_stat_rank la al tid Ha) as [Pa La].
  split; [exact Lm|]. split; [exact La|].
  exists (rank_dict (map e_id ml)), (rank_dict (map e_id al)).
  unfold get_rankings_from_stats. rewrite E. auto.
Qed.

Lemma category_ranks_known db tid cat filt lm la :
  Spec.known_category cat ->
  exists row, category_ranks db tid (cat, filt, lm, la) = Some row.
Proof.
  intros [-> | [-> | [-> | ->]]]; unfold category_ranks, get_team_stats_core,
    stats_unlimited, made_q, against_q; simpl; eexists; reflexivity.
Qed.

(** X18.  The team page never fails and shows the ranks the predictor uses:
    [get_team_global_positions] returns one pair per category, in the
    order of the category table and with its labels, and the position of
    each side is the team's rank in the corresponding dictionary of
    [get_rankings_from_stats] ordered by total, ["N/A"] exactly when the
    team has no rank there. *)
Theorem team_page_shows_prediction_ranks db (team_id : Py.pyval) :
  exists rows,
    get_team_global_positions db team_id = Some rows
    /\ Forall2 (Props.agrees_with_ranks db (Py.str team_id)) categories rows.
Proof.
  unfold get_team_global_positions.
  assert (H : forall cs,
             Forall (fun c => Spec.known_category (fst (fst (fst c)))) cs ->
             exists rows, ranks_loop db (Py.str team_id) cs = Some rows
                          /\ Forall2 (Props.agrees_with_ranks db (Py.str team_id)) cs rows).
  { induction cs as [|c cs IH]; intros Hk.
    - exists []. split; [reflexivity | constructor].
    - inversion Hk as [|? ? Hc Hcs]; subst. destruct (IH Hcs) as (rows & Er & Hr).
      destruct c as [[[cat filt] lm] la].
      destruct (category_ranks_known db (Py.str team_id) cat filt lm la Hc)
        as [row Erow].
      exists (row :: rows). cbn [ranks_loop]. rewrite Erow, Er.
      split; [reflexivity|]. constructor; [|exact Hr].
      apply category_ranks_agree. exact Erow. }
  apply H. unfold categories.
  repeat (constructor;
          [first [left; reflexivity | right; left; reflexivity
                 | right; right; left; reflexivity | right; right; right; reflexivity]|]).
  constructor.
Qed.

(** ** When the referee tables fail *)

Lemma in_left_join_some {A B} (on : A -> B -> bool) (a : list A) (b : list B)
      (x : A) (y : B) :
  In (x, Some y) (Sql.left_join on a b) <-> In x a /\ In y b /\ on x y = true.
Proof.
  unfold Sql.left_join. rewrite in_flat_map. split.
  - intros (x' & Hx' & Hin).
    destruct (List.filter (on x') b) as [|y0 ys] eqn:E.
    + destruct Hin as [Hin | []]. discriminate.
    + apply in_map_iff in Hin as (y' & Ey & Hy'). injection Ey as -> ->.
      rewrite <- E in Hy'. apply filter_In in Hy'. tauto.
  - intros (Hx & Hy & Hon). exists x. split; [exact Hx|].
    assert (Hin : In y (List.filter (on x) b)) by (apply filter_In; auto).
    destruct (List.filter (on x) b) as [|y0 ys]; [contradiction|].
    apply in_map_iff. exists y. auto.
Qed.

Lemma in_left_join_none {A B} (on : A -> B -> bool) (a : list A) (b : list B)
      (x : A) :
  In (x, None) (Sql.left_join on a b) <-> In x a /\ List.filter (on x) b = [].
Proof.
  unfold Sql.left_join. rewrite in_flat_map. split.
  - intros (x' & Hx' & Hin).
    destruct (List.filter (on x') b) as [|y0 ys] eqn:E.
    + destruct Hin as [Hin | []]. injection Hin as ->. auto.
    + apply in_map_iff in Hin as (y' & Ey & _). discriminate.
  - intros (Hx & E). exists x. split; [exact Hx|]. rewrite E. left. reflexivity.
Qed.

Lemma sum_nullable_none (l : list (option Z)) :
  sum_nullable l = None <-> forall x, In x l -> x = None.
Proof.
  unfold sum_nullable. induction l as [|[z|] l IH]; simpl.
  - split; [intros _ x [] | reflexivity].
  - split; [discriminate|]. intros H. specialize (H (Some z) (or_introl eq_refl)).
    discriminate.
  - rewrite IH. split.
    + intros H x [<- | Hx]; auto.
    + intros H x Hx. apply H. right. exact Hx.
Qed.

Lemma fouls_stats_none rows :
  fouls_stats rows = None <-> exists r, In r rows /\ fouls_stat r = None.
Proof.
  induction rows as [|r rows IH]; simpl.
  - split; [discriminate | intros (r & [] & _)].
  - destruct (fouls_stat r) eqn:E.
    + destruct (fouls_stats rows).
      * split; [discriminate|]. intros (r' & [<- | Hr'] & E').
        -- congruence.
        -- assert (H : @None (list RefStat) = None) by reflexivity.
           destruct IH as [_ IH]. discriminate IH. eauto.
      * split; [|reflexivity]. intros _. destruct IH as [IH _].
        destruct (IH eq_refl) as (r' & Hr' & E'). eauto.
    + split; [|reflexivity]. intros _. exists r. auto.
Qed.

Lemma named_finished_In db m :
  In m (named_finished db)
  <-> In m (matches db) /\ m_finished m = true /\ exists name, m_referee m = Some name.
Proof.
  unfold named_finished. rewrite filter_In, andb_true_iff. split.
  - intros (Hm & Hf & Hr). destruct (m_referee m) as [name|]; [|discriminate].
    eauto.
  - intros (Hm & Hf & name & ->). auto.
Qed.

(** X19.  The referee tables fail exactly when some referee has finished
    matches and none of them has a stored appearance: the fouls query
    then yields a [NULL] average, which [round] rejects. *)
Theorem referee_tables_fail_without_appearances db :
  get_referee_detailed_tops db = None
  <-> exists name,
        (exists m, In m (matches db) /\ m_finished m = true
                   /\ m_referee m = Some name)
        /\ forall m p, In m (matches db) -> m_finished m = true ->
                       m_referee m = Some name ->
                       In p (player_match_details db) -> p_match_id p <> m_id m.
Proof.
  unfold get_referee_detailed_tops.
  assert (E : fouls_stats (ref_f_q db) = None
              <-> get_referee_detailed_tops db = None).
  { unfold get_referee_detailed_tops. destruct (fouls_stats (ref_f_q db));
      split; congruence. }
  unfold get_referee_detailed_tops in E. rewrite <- E. clear E.
  rewrite fouls_stats_none.
  set (on := fun (m : MatchRow) (p : PlayerRow) => String.eqb (m_id m) (p_match_id p)).
  set (rows := Sql.left_join on (named_finished db) (player_match_details db)).
  set (key := fun mp : MatchRow * option PlayerRow => m_referee (fst mp)).
  assert (Hrow : forall r, In r (ref_f_q db) ->
            exists g, In g (Sql.group_by key rows)
                      /\ r = (fst g,
                              sum_nullable (map (fun mp => option_map p_fouls_committed
                                                             (snd mp)) (snd g)),
                              Sql.count_distinct (map (fun mp => m_id (fst mp)) (snd g)),
                              option_map (fun t => sql_avg t
                                 (Sql.count_distinct
                                    (map (fun mp => m_id (fst mp)) (snd g))))
                                (sum_nullable (map (fun mp => option_map p_fouls_committed
                                                               (snd mp)) (snd g))))).
  { intros r Hr. unfold ref_f_q in Hr. apply order_groups_desc_In in Hr.
    apply in_map_iff in Hr as (g & <- & Hg). exists g. split; [exact Hg | reflexivity]. }
  assert (Hgroup : forall g, In g (Sql.group_by key rows) ->
            In (fst g,
                sum_nullable (map (fun mp => option_map p_fouls_committed
                                               (snd mp)) (snd g)),
                Sql.count_distinct (map (fun mp => m_id (fst mp)) (snd g)),
                option_map (fun t => sql_avg t
                   (Sql.count_distinct (map (fun mp => m_id (fst mp)) (snd g))))
                  (sum_nullable (map (fun mp => option_map p_fouls_committed
                                                 (snd mp)) (snd g))))
               (ref_f_q db)).
  { intros g Hg. unfold ref_f_q. apply order_groups_desc_In. apply in_map_iff.
    exists g. split; [reflexivity | exact Hg]. }
  split.
  - intros (r & Hr & Hnone). destruct (Hrow r Hr) as (g & Hg & ->).
    destruct (sum_nullable _) eqn:Es in Hnone; [discriminate|]. clear Hnone.
    rewrite sum_nullable_none in Es.
    pose proof (group_by_In key rows g Hg) as [Hsnd Hkey].
    apply in_map_iff in Hkey as ([m0 op0] & Ek & Hin0). unfold key in Ek. simpl in Ek.
    assert (Hm0 : In m0 (named_finished db)).
    { destruct op0; [apply in_left_join_some in Hin0 | apply in_left_join_none in Hin0];
        tauto. }
    apply named_finished_In in Hm0 as (Hm0 & Hf0 & name & Hname).
    exists name. split; [eauto|].
    intros m p Hm Hf Href Hp Hid.
    assert (Hmp : In (m, Some p) (snd g)).
    { rewrite Hsnd. apply filter_In. split.
      - apply in_left_join_some. split; [apply named_finished_In; eauto|].
        split; [exact Hp|]. unfold on. apply String.eqb_eq. auto.
      - apply opt_text_eqb_eq. unfold key. simpl. congruence. }
    specialize (Es (option_map p_fouls_committed (Some p))).
    discriminate Es. apply in_map_iff. exists (m, Some p). auto.
  - intros (name & (m & Hm & Hf & Href) & Hno).
    destruct (left_join_covers on (named_finished db) (player_match_details db) m)
      as [op Hop].
    { apply named_finished_In. eauto. }
    assert (Hk : In (Some name) (map fst (Sql.group_by key rows))).
    { apply group_by_keys. apply in_map_iff. exists (m, op). split; [|exact Hop].
      unfold key. simpl. exact Href. }
    apply in_map_iff in Hk as (g & Eg & Hg).
    eexists. split; [exact (Hgroup g Hg)|].
    assert (Es : sum_nullable (map (fun mp : MatchRow * option PlayerRow =>
                                      option_map p_fouls_committed (snd mp)) (snd g))
                 = None).
    { apply sum_nullable_none. intros x Hx.
      apply in_map_iff in Hx as ([m1 op1] & <- & Hin1).
      pose proof (group_by_In key rows g Hg) as [Hsnd _]. rewrite Hsnd in Hin1.
      apply filter_In in Hin1 as [Hin1 Hk1]. apply opt_text_eqb_eq in Hk1.
      unfold key in Hk1. simpl in Hk1. rewrite Eg in Hk1.
      destruct op1 as [p1|]; [|reflexivity]. exfalso.
      apply in_left_join_some in Hin1 as (Hm1 & Hp1 & Hon).
      apply named_finished_In in Hm1 as (Hm1 & Hf1 & _).
      unfold on in Hon. apply String.eqb_eq in Hon.
      apply (Hno m1 p1 Hm1 Hf1 Hk1 Hp1). auto. }
    simpl. rewrite Es. reflexivity.
Qed.

(** The sample league has appearances for a match of its referee; a
    finished match ingested without line-up has none. *)
Example referee_tables_examples :
  get_referee_detailed_tops Sample.db <> None
  /\ get_referee_detailed_tops
       (Ingest.load_match_directly "7" (Some (Sample.a_payload true [])) empty_db)
     = None.
Proof.
  split; [vm_compute; discriminate | vm_compute; reflexivity].
Qed.

End PagesFacts.

(* ===================================================================== *)
(** * Properties of the update cycle *)
(* ===================================================================== *)

Section SchedulerFacts.
Import Schema Ingest Scheduler.

Lemma filter_none {A} (p : A -> bool) (l : list A) :
  (forall x, In x l -> p x = false) -> List.filter p l = [].
Proof.
  induction l as [|a l IH]; simpl; intros H; [reflexivity|].
  rewrite (H a (or_introl eq_refl)). apply IH. intros x Hx. apply H. right. exact Hx.
Qed.

(** Ingesting a match leaves the rows of every other match as they
    were. *)
Lemma load_rows_other (match_id other : string) response db :
  other <> match_id ->
  Props.rows_of other (load_match_directly match_id response db)
  = Props.rows_of other db.
Proof.
  intros Hne. destruct response as [r|]; [|reflexivity].
  rewrite load_cases. cbv zeta.
  destruct (negb (finished r)); [reflexivity|].
  assert (Hneb : String.eqb match_id other = false).
  { apply String.eqb_neq. congruence. }
  assert (Hs : List.filter (fun s => String.eqb (s_match_id s) other)
                 (number_shots (shot_seq db) (shot_rows match_id r)) = []).
  { apply filter_none. intros s Hin.
    pose proof (number_shots_match_id (shot_seq db) match_id (shotmap_shots r)) as H.
    rewrite List.Forall_forall in H. rewrite (H s Hin). exact Hneb. }
  assert (Hc : List.filter (fun c => String.eqb (c_match_id c) other)
                 (number_cards (card_seq db) (card_rows match_id r)) = []).
  { apply filter_none. intros c Hin.
    pose proof (number_cards_fields (card_seq db) match_id
                  (Py.str (team_id (homeTeam r))) (Py.str (team_id (awayTeam r)))
                  (List.filter is_card (events r))) as H.
    rewrite List.Forall_forall in H. destruct (H c Hin) as [-> _]. exact Hneb. }
  assert (Hp : List.filter (fun p => String.eqb (p_match_id p) other)
                 (player_rows match_id r) = []).
  { apply filter_none. intros p Hin. unfold player_rows, side_rows in Hin.
    repeat (apply in_app_or in Hin as [Hin | Hin]);
      apply in_map_iff in Hin as (x & <- & _); exact Hneb. }
  destruct (is_nil (player_rows match_id r)).
  - unfold Props.rows_of. simpl. rewrite !List.filter_app, Hs, Hc, !app_nil_r.
    reflexivity.
  - destruct (insert_player_rows_some (player_rows match_id r)
                (player_match_details db)) as [-> | ->]; [reflexivity|].
    unfold Props.rows_of. simpl. rewrite !List.filter_app, Hs, Hc, Hp, !app_nil_r.
    reflexivity.
Qed.

(** ... and the match rows of every other match. *)
Lemma load_match_other (match_id : string) response db (m : MatchRow) :
  m_id m <> match_id ->
  In m (matches (load_match_directly match_id response db)) <-> In m (matches db).
Proof.
  intros Hne. destruct response as [r|]; [|reflexivity].
  rewrite load_matches, in_app_iff, filter_In. split.
  - intros [[H _] | [<- | []]]; [exact H|]. exfalso. apply Hne. reflexivity.
  - intros H. left. split; [exact H|]. apply negb_true_iff. apply String.eqb_neq.
    exact Hne.
Qed.

Lemma nodup_map_inj {A B} (f : A -> B) (l : list A) (a b : A) :
  List.NoDup (map f l) -> In a l -> In b l -> f a = f b -> a = b.
Proof.
  induction l as [|x l IH]; simpl; intros Hnd Ha Hb E; [contradiction|].
  inversion Hnd as [|? ? Hn Hnd']; subst.
  destruct Ha as [-> | Ha], Hb as [-> | Hb]; auto.
  - exfalso. apply Hn. rewrite E. apply in_map. exact Hb.
  - exfalso. apply Hn. rewrite <- E. apply in_map. exact Ha.
Qed.

Lemma update_loop_other fetch (ids : list string) (i : nat) db (m : MatchRow) :
  ~ In (m_id m) ids -> In m (matches db) ->
  In m (matches (update_loop fetch i ids db))
  /\ Props.rows_of (m_id m) (update_loop fetch i ids db) = Props.rows_of (m_id m) db.
Proof.
  revert i db. induction ids as [|id ids IH]; intros i db Hn Hm; simpl; [auto|].
  assert (Hne : m_id m <> id) by (intros E; apply Hn; left; auto).
  destruct (IH (S i) (load_match_directly id (fetch i id) db)) as [H1 H2].
  - intros H. apply Hn. right. exact H.
  - apply load_match_other; assumption.
  - split; [exact H1|]. rewrite H2. apply load_rows_other. exact Hne.
Qed.

(** X20.  The update cycle never touches a match that is stored as finished:
    when match ids are unique, its row is still in the table afterwards
    and the appearances, shots and cards stored for it are the same,
    whatever the requests return. *)
Theorem finished_matches_are_left_alone int_of fetch db (m : MatchRow) :
  List.NoDup (map m_id (matches db)) ->
  In m (matches db) -> m_finished m = true ->
  In m (matches (get_automated_updates int_of fetch db))
  /\ Props.rows_of (m_id m) (get_automated_updates int_of fetch db)
     = Props.rows_of (m_id m) db.
Proof.
  intros Hnd Hm Hfin. unfold get_automated_updates.
  destruct (current_gw int_of db) as [gw|]; [|auto].
  apply update_loop_other; [|exact Hm].
  unfold matches_to_update. intros Hin.
  apply in_map_iff in Hin as (m' & E & Hm').
  apply filter_In in Hm' as [Hm' Hsel].
  assert (m' = m) by (eapply nodup_map_inj; eauto). subst m'.
  unfold selected in Hsel. rewrite Hfin, andb_false_r in Hsel. discriminate.
Qed.

Lemma finished_matches_are_left_alone_witness :
  let db' := get_automated_updates (fun _ => Some 1)
               (fun _ _ => Some (Sample.a_payload true [Sample.a_raw_player 101]))
               Sample.db in
  In (Sample.a_match "1" "2025-01-01 17:00:00" true "A" "B") (matches db')
  /\ Props.rows_of "1" db' = Props.rows_of "1" Sample.db.
Proof.
  apply (finished_matches_are_left_alone (fun _ => Some 1)
           (fun _ _ => Some (Sample.a_payload true [Sample.a_raw_player 101]))
           Sample.db (Sample.a_match "1" "2025-01-01 17:00:00" true "A" "B")).
  - simpl. repeat constructor; simpl; intuition discriminate.
  - left. reflexivity.
  - reflexivity.
Defined.

Lemma upsert_ids_perm (ms : list MatchRow) (row : MatchRow) :
  List.NoDup (map m_id ms) -> In (m_id row) (map m_id ms) ->
  Permutation (map m_id (List.filter (fun m => negb (String.eqb (m_id m) (m_id row))) ms
                         ++ [row])) (map m_id ms).
Proof.
  induction ms as [|m ms IH]; simpl; intros Hnd Hin; [contradiction|].
  inversion Hnd as [|? ? Hn Hnd']; subst.
  destruct (String.eqb (m_id m) (m_id row)) eqn:E; simpl.
  - apply String.eqb_eq in E. rewrite E in *.
    rewrite List.forallb_filter_id.
    + rewrite map_app. simpl. rewrite Permutation_app_comm. reflexivity.
    + apply forallb_forall. intros x Hx. apply negb_true_iff. apply String.eqb_neq.
      intros Ex. apply Hn. rewrite <- Ex. apply in_map. exact Hx.
  - apply String.eqb_neq in E. constructor. apply IH; [exact Hnd'|].
    destruct Hin as [Hin | Hin]; [congruence | exact Hin].
Qed.

Lemma load_ids_perm (match_id : string) response db :
  List.NoDup (map m_id (matches db)) -> In match_id (map m_id (matches db)) ->
  Permutation (map m_id (matches (load_match_directly match_id response db)))
              (map m_id (matches db)).
Proof.
  intros Hnd Hin. destruct response as [r|]; [|reflexivity].
  rewrite load_matches.
  exact (upsert_ids_perm (matches db) (match_row match_id r) Hnd Hin).
Qed.

Lemma update_loop_ids fetch (ids : list string) (i : nat) db :
  List.NoDup (map m_id (matches db)) ->
  (forall id, In id ids -> In id (map m_id (matches db))) ->
  Permutation (map m_id (matches (update_loop fetch i ids db))) (map m_id (matches db)).
Proof.
  revert i db. induction ids as [|id ids IH]; intros i db Hnd Hin; simpl; [reflexivity|].
  pose proof (load_ids_perm id (fetch i id) db Hnd (Hin id (or_introl eq_refl))) as P.
  rewrite IH.
  - exact P.
  - eapply Permutation_NoDup; [symmetry; exact P | exact Hnd].
  - intros id' Hid'. eapply Permutation_in; [symmetry; exact P|].
    apply Hin. right. exact Hid'.
Qed.

(** X21.  The update cycle neither adds nor removes a match: when match ids are
    unique, the ids stored afterwards are the ids stored before. *)
Theorem update_cycle_keeps_the_match_ids int_of fetch db :
  List.NoDup (map m_id (matches db)) ->
  Permutation (map m_id (matches (get_automated_updates int_of fetch db)))
              (map m_id (matches db)).
Proof.
  intros Hnd. unfold get_automated_updates.
  destruct (current_gw int_of db) as [gw|]; [|reflexivity].
  apply update_loop_ids; [exact Hnd|].
  unfold matches_to_update. intros id Hid.
  apply in_map_iff in Hid as (m & <- & Hm). apply filter_In in Hm as [Hm _].
  apply in_map. exact Hm.
Qed.

Lemma update_cycle_keeps_the_match_ids_witness :
  Permutation
    (map m_id (matches (get_automated_updates (fun _ => Some 1)
                          (fun _ _ => Some (Sample.a_payload true []))
                          Sample.db)))
    ["1"; "2"; "3"].
Proof.
  apply (update_cycle_keeps_the_match_ids (fun _ => Some 1)
           (fun _ _ => Some (Sample.a_payload true [])) Sample.db).
  simpl. repeat constructor; simpl; intuition discriminate.
Defined.

(** ** Pending matches have no rows *)

Lemma load_pending_empty (match_id : string) response db :
  List.NoDup (map m_id (matches db)) ->
  Props.pending_empty db ->
  (exists m, In m (matches db) /\ m_id m = match_id /\ m_finished m = false) ->
  Props.pending_empty (load_match_directly match_id response db).
Proof.
  intros Hnd Hpe (m0 & Hm0 & Hid0 & Hf0).
  destruct response as [r|]; [|exact Hpe].
  intros m Hm Hf.
  destruct (string_dec (m_id m) match_id) as [E | Hne].
  - rewrite load_matches in Hm. apply in_app_iff in Hm as [Hm | [<- | []]].
    + apply filter_In in Hm as [_ Hm]. rewrite E, String.eqb_refl in Hm. discriminate.
    + simpl in Hf. simpl m_id.
      rewrite load_cases. cbv zeta. rewrite Hf. simpl negb. cbv iota.
      rewrite <- Hid0. apply (Hpe m0 Hm0 Hf0).
  - rewrite load_rows_other by exact Hne. apply Hpe; [|exact Hf].
    apply (load_match_other match_id (Some r) db m Hne). exact Hm.
Qed.

Lemma load_nodup (match_id : string) response db :
  List.NoDup (map m_id (matches db)) ->
  List.NoDup (map m_id (matches (load_match_directly match_id response db))).
Proof.
  intros Hnd. destruct response as [r|]; [|exact Hnd].
  rewrite load_matches.
  exact (upsert_keeps_ids_distinct (matches db) (match_row match_id r) Hnd).
Qed.

Lemma update_loop_pending_empty fetch (ids : list string) (i : nat) db :
  List.NoDup (map m_id (matches db)) ->
  Props.pending_empty db ->
  List.NoDup ids ->
  (forall id, In id ids ->
     exists m, In m (matches db) /\ m_id m = id /\ m_finished m = false) ->
  Props.pending_empty (update_loop fetch i ids db).
Proof.
  revert i db. induction ids as [|id ids IH]; intros i db Hnd Hpe Hids Hpend; simpl;
    [exact Hpe|].
  inversion Hids as [|? ? Hn Hids']; subst.
  apply IH.
  - apply load_nodup. exact Hnd.
  - apply load_pending_empty; [exact Hnd | exact Hpe|].
    apply Hpend. left. reflexivity.
  - exact Hids'.
  - intros id' Hid'. destruct (Hpend id' (or_intror Hid')) as (m & Hm & E & Hf).
    exists m. split; [|auto]. apply load_match_other; [|exact Hm].
    rewrite E. intros ->. exact (Hn Hid').
Qed.

(** X22.  The update cycle keeps the database free of rows for pending matches:
    if match ids are unique and no appearance, shot or card is stored for
    a match stored as not finished, the same holds after the cycle,
    whatever the requests return. *)
Theorem update_cycle_keeps_pending_matches_empty int_of fetch db :
  List.NoDup (map m_id (matches db)) ->
  Props.pending_empty db ->
  Props.pending_empty (get_automated_updates int_of fetch db).
Proof.
  intros Hnd Hpe. unfold get_automated_updates.
  destruct (current_gw int_of db) as [gw|]; [|exact Hpe].
  apply update_loop_pending_empty; [exact Hnd | exact Hpe | |].
  - unfold matches_to_update.
    assert (H : forall l, List.NoDup (map m_id l) ->
                          List.NoDup (map m_id (List.filter (selected gw) l))).
    { intros l. induction l as [|a l IHl]; simpl; intros Hl; [constructor|].
      inversion Hl as [|? ? Ha Hl']; subst.
      destruct (selected gw a); simpl; [constructor|]; auto.
      intros Hin. apply Ha. apply in_map_iff in Hin as (x & Ex & Hx).
      apply filter_In in Hx as [Hx _]. apply in_map_iff. eauto. }
    apply H. exact Hnd.
  - unfold matches_to_update. intros id Hid.
    apply in_map_iff in Hid as (m & <- & Hm). apply filter_In in Hm as [Hm Hsel].
    exists m. split; [exact Hm|]. split; [reflexivity|].
    unfold selected in Hsel. apply andb_true_iff in Hsel as [_ Hsel].
    apply negb_true_iff in Hsel. exact Hsel.
Qed.

Lemma sample_pending_empty : Props.pending_empty Sample.db.
Proof.
  intros m Hm Hf. simpl in Hm.
  destruct Hm as [<- | [<- | [<- | []]]]; try discriminate Hf. reflexivity.
Defined.

Lemma update_cycle_keeps_pending_matches_empty_witness :
  Props.pending_empty
    (get_automated_updates (fun _ => Some 1)
       (fun _ _ => Some (Sample.a_payload true [Sample.a_raw_player 101])) Sample.db).
Proof.
  apply update_cycle_keeps_pending_matches_empty.
  - simpl. repeat constructor; simpl; intuition discriminate.
  - exact sample_pending_empty.
Defined.

End SchedulerFacts.

(* ===================================================================== *)
(** * The order of the stored dates *)
(* ===================================================================== *)

Section DateOrder.
Import Datetime.

Lemma digit_compare (a b : Z) :
  0 <= a <= 9 -> 0 <= b <= 9 ->
  Ascii.compare (digit a) (digit b) = Z.compare a b.
Proof.
  intros Ha Hb.
  assert (Ea : a = 0 \/ a = 1 \/ a = 2 \/ a = 3 \/ a = 4 \/ a = 5 \/ a = 6 \/ a = 7
               \/ a = 8 \/ a = 9) by lia.
  assert (Eb : b = 0 \/ b = 1 \/ b = 2 \/ b = 3 \/ b = 4 \/ b = 5 \/ b = 6 \/ b = 7
               \/ b = 8 \/ b = 9) by lia.
  repeat (destruct Ea as [-> | Ea]); try subst a;
    repeat (destruct Eb as [-> | Eb]); try subst b; reflexivity.
Qed.

Lemma digit_mod (n : Z) : digit n = digit (n mod 10).
Proof. unfold digit. rewrite Z.mod_mod by lia. reflexivity. Qed.

Lemma append_cons (c : ascii) (s t : string) : String c s ++ t = String c (s ++ t).
Proof. reflexivity. Qed.

Lemma append_nil (t : string) : "" ++ t = t.
Proof. reflexivity. Qed.

Lemma compare_cons (c c' : ascii) (s t : string) :
  String.compare (String c s) (String c' t)
  = Props.lex (Ascii.compare c c') (String.compare s t).
Proof. simpl. destruct (Ascii.compare c c'); reflexivity. Qed.

Lemma compare_same (c : ascii) (s t : string) :
  String.compare (String c s) (String c t) = String.compare s t.
Proof.
  rewrite compare_cons.
  assert (E : Ascii.compare c c = Eq).
  { unfold Ascii.compare. apply N.compare_refl. }
  rewrite E. reflexivity.
Qed.

Lemma compare_pad2 (a b : Z) (s t : string) :
  0 <= a < 100 -> 0 <= b < 100 ->
  String.compare (pad2 a ++ s) (pad2 b ++ t)
  = Props.lex (Z.compare a b) (String.compare s t).
Proof.
  intros Ha Hb. unfold pad2. rewrite ?append_cons, ?append_nil. rewrite !compare_cons.
  rewrite (digit_mod a), (digit_mod b).
  rewrite !digit_compare by (Z.to_euclidean_division_equations; lia).
  unfold Props.lex. (repeat match goal with
          | |- context [Z.compare ?x ?y] => destruct (Z.compare_spec x y); try subst
          end); try reflexivity;
    exfalso; Z.to_euclidean_division_equations; lia.
Qed.

Lemma compare_pad4 (a b : Z) (s t : string) :
  0 <= a < 10000 -> 0 <= b < 10000 ->
  String.compare (pad4 a ++ s) (pad4 b ++ t)
  = Props.lex (Z.compare a b) (String.compare s t).
Proof.
  intros Ha Hb.
  assert (E : forall n u, pad4 n ++ u
                          = String (digit (n / 1000))
                              (String (digit (n / 100)) (pad2 (n mod 100) ++ u))).
  { intros n u. unfold pad4, pad2. rewrite ?append_cons, ?append_nil.
    rewrite (digit_mod (n / 10)), (digit_mod n), (digit_mod (n mod 100 / 10)),
      (digit_mod (n mod 100)).
    do 2 f_equal. f_equal; [f_equal | do 2 f_equal];
      Z.to_euclidean_division_equations; lia. }
  rewrite !E, !compare_cons, compare_pad2 by (Z.to_euclidean_division_equations; lia).
  rewrite (digit_mod (a / 100)), (digit_mod (b / 100)).
  rewrite !digit_compare by (Z.to_euclidean_division_equations; lia).
  unfold Props.lex. (repeat match goal with
          | |- context [Z.compare ?x ?y] => destruct (Z.compare_spec x y); try subst
          end); try reflexivity;
    exfalso; Z.to_euclidean_division_equations; lia.
Qed.

(** The text order of two formatted dates of four-digit years is the
    order of their fields, the year first. *)
Lemma strftime_compare (a b : datetime) :
  valid a -> valid b -> 1000 <= year a -> 1000 <= year b ->
  String.compare (strftime a) (strftime b)
  = Props.lex (year a ?= year b)
     (Props.lex (month a ?= month b)
       (Props.lex (day a ?= day b)
         (Props.lex (hour a ?= hour b)
           (Props.lex (minute a ?= minute b) (second a ?= second b))))).
Proof.
  intros (Hy & Hm & Hd & Hh & Hmi & Hs & _) (Hy' & Hm' & Hd' & Hh' & Hmi' & Hs' & _)
         Ha Hb.
  assert (D : forall y m, days_in_month y m <= 31).
  { intros y m. unfold days_in_month.
    repeat match goal with |- context [if ?c then _ else _] => destruct c end; lia. }
  pose proof (D (year a) (month a)). pose proof (D (year b) (month b)).
  assert (Y : forall y, 1000 <= y -> year_str y = pad4 y).
  { intros y Hge. unfold year_str.
    assert ((y <? 10) = false) as -> by lia.
    assert ((y <? 100) = false) as -> by lia.
    assert ((y <? 1000) = false) as -> by lia. reflexivity. }
  unfold strftime. rewrite (Y _ Ha), (Y _ Hb).
  rewrite compare_pad4 by lia. rewrite ?append_cons, ?append_nil. rewrite compare_same.
  rewrite compare_pad2 by lia. rewrite ?append_cons, ?append_nil. rewrite compare_same.
  rewrite compare_pad2 by lia. rewrite ?append_cons, ?append_nil. rewrite compare_same.
  rewrite compare_pad2 by lia. rewrite ?append_cons, ?append_nil. rewrite compare_same.
  rewrite compare_pad2 by lia. rewrite ?append_cons, ?append_nil. rewrite compare_same.
  assert (N : forall u, pad2 u = pad2 u ++ "").
  { intros u. unfold pad2. rewrite !append_cons, append_nil. reflexivity. }
  rewrite (N (second a)), (N (second b)), compare_pad2 by lia.
  unfold Props.lex. simpl. destruct (second a ?= second b); reflexivity.
Qed.

Lemma days_before_month_succ (y m : Z) :
  1 <= m <= 11 ->
  days_before_month y (m + 1) = days_before_month y m + days_in_month y m.
Proof.
  intros Hm.
  assert (E : m = 1 \/ m = 2 \/ m = 3 \/ m = 4 \/ m = 5 \/ m = 6 \/ m = 7 \/ m = 8
              \/ m = 9 \/ m = 10 \/ m = 11) by lia.
  unfold days_before_month, days_in_month.
  repeat (destruct E as [-> | E]); try subst m; simpl; destruct (is_leap y);
    reflexivity.
Qed.

Lemma days_before_month_mono (y m m' : Z) :
  1 <= m -> m <= m' <= 12 -> days_before_month y m <= days_before_month y m'.
Proof.
  intros Hm Hm'.
  assert (H : forall k, (0 <= k)%nat -> m + Z.of_nat k <= 12 ->
                        days_before_month y m <= days_before_month y (m + Z.of_nat k)).
  { induction k as [|k IH]; intros _ Hk.
    - rewrite Z.add_0_r. lia.
    - replace (m + Z.of_nat (S k)) with (m + Z.of_nat k + 1) by lia.
      rewrite days_before_month_succ by lia.
      assert (0 <= days_in_month y (m + Z.of_nat k)).
      { unfold days_in_month.
        repeat match goal with |- context [if ?c then _ else _] => destruct c end; lia. }
      specialize (IH ltac:(lia) ltac:(lia)). lia. }
  specialize (H (Z.to_nat (m' - m)) ltac:(lia) ltac:(lia)).
  replace (m + Z.of_nat (Z.to_nat (m' - m))) with m' in H by lia. exact H.
Qed.

(** Days are numbered in the order of year, month and day. *)
Lemma ymd2ord_compare (y m d y' m' d' : Z) :
  1 <= m <= 12 -> 1 <= d <= days_in_month y m ->
  1 <= m' <= 12 -> 1 <= d' <= days_in_month y' m' ->
  (ymd2ord y m d ?= ymd2ord y' m' d')
  = Props.lex (y ?= y') (Props.lex (m ?= m') (d ?= d')).
Proof.
  intros Hm Hd Hm' Hd'. unfold ymd2ord.
  pose proof (days_before_month_bound y m d Hm Hd) as B.
  pose proof (days_before_month_bound y' m' d' Hm' Hd') as B'.
  unfold Props.lex.
  destruct (Z.compare_spec y y') as [-> | Hy | Hy].
  - destruct (Z.compare_spec m m') as [-> | Hlt | Hlt].
    + destruct (Z.compare_spec d d') as [-> | Hdd | Hdd].
      * apply Z.compare_refl.
      * apply Z.compare_lt_iff. lia.
      * apply Z.compare_gt_iff. lia.
    + apply Z.compare_lt_iff.
      pose proof (days_before_month_succ y' m ltac:(lia)).
      pose proof (days_before_month_mono y' (m + 1) m' ltac:(lia) ltac:(lia)). lia.
    + apply Z.compare_gt_iff.
      pose proof (days_before_month_succ y' m' ltac:(lia)).
      pose proof (days_before_month_mono y' (m' + 1) m ltac:(lia) ltac:(lia)). lia.
  - apply Z.compare_lt_iff.
    pose proof (days_before_year_succ y).
    pose proof (days_before_year_mono (y + 1) y' ltac:(lia)). lia.
  - apply Z.compare_gt_iff.
    pose proof (days_before_year_succ y').
    pose proof (days_before_year_mono (y' + 1) y ltac:(lia)). lia.
Qed.

Lemma timeline_compare (a b : datetime) :
  valid a -> valid b ->
  (timeline a ?= timeline b)
  = Props.lex (year a ?= year b)
     (Props.lex (month a ?= month b)
       (Props.lex (day a ?= day b)
         (Props.lex (hour a ?= hour b)
           (Props.lex (minute a ?= minute b) (second a ?= second b))))).
Proof.
  intros (Hy & Hm & Hd & Hh & Hmi & Hs & _) (Hy' & Hm' & Hd' & Hh' & Hmi' & Hs' & _).
  pose proof (ymd2ord_compare (year a) (month a) (day a) (year b) (month b) (day b)
                Hm Hd Hm' Hd') as O.
  unfold timeline, toordinal, time_of_day.
  set (oa := ymd2ord (year a) (month a) (day a)) in *.
  set (ob := ymd2ord (year b) (month b) (day b)) in *.
  assert (T : (oa * 86400 + (hour a * 3600 + minute a * 60 + second a)
               ?= ob * 86400 + (hour b * 3600 + minute b * 60 + second b))
              = Props.lex (oa ?= ob)
                  (Props.lex (hour a ?= hour b)
                     (Props.lex (minute a ?= minute b) (second a ?= second b)))).
  { unfold Props.lex.
    destruct (Z.compare_spec oa ob) as [-> | Ho | Ho];
      [| apply Z.compare_lt_iff; lia | apply Z.compare_gt_iff; lia].
    destruct (Z.compare_spec (hour a) (hour b)) as [-> | Ho | Ho];
      [| apply Z.compare_lt_iff; lia | apply Z.compare_gt_iff; lia].
    destruct (Z.compare_spec (minute a) (minute b)) as [-> | Ho | Ho];
      [| apply Z.compare_lt_iff; lia | apply Z.compare_gt_iff; lia].
    destruct (Z.compare_spec (second a) (second b)) as [-> | Ho | Ho];
      [apply Z.compare_refl | apply Z.compare_lt_iff; lia | apply Z.compare_gt_iff; lia]. }
  rewrite T, O. unfold Props.lex.
  destruct (year a ?= year b), (month a ?= month b), (day a ?= day b); reflexivity.
Qed.

(** From 1000-01-01 on the year has four digits. *)
Lemma four_digit_year (r : datetime) :
  valid r -> Spec.FOUR_DIGITS <= timeline r -> 1000 <= year r.
Proof.
  intros Hv Ht.
  pose (b := {| year := 1000; month := 1; day := 1; hour := 0; minute := 0;
                second := 0; microsecond := 0; tzinfo := None |}).
  assert (Hb : valid b) by (unfold valid, b; simpl; vm_compute; intuition discriminate).
  pose proof (timeline_compare r b Hv Hb) as C.
  assert (Eb : timeline b = Spec.FOUR_DIGITS) by reflexivity.
  rewrite Eb in C.
  destruct (Z.compare_spec (year r) (year b)) as [E | Hlt | Hgt].
  - rewrite E. simpl. lia.
  - exfalso. unfold Props.lex in C.
    destruct (Z.compare_spec (timeline r) Spec.FOUR_DIGITS); try discriminate. lia.
  - simpl in Hgt. lia.
Qed.

(** Formatted dates of four-digit years compare as text the way the
    instants compare. *)
Lemma strftime_order (a b : datetime) :
  valid a -> valid b ->
  Spec.FOUR_DIGITS <= timeline a -> Spec.FOUR_DIGITS <= timeline b ->
  String.compare (strftime a) (strftime b) = (timeline a ?= timeline b).
Proof.
  intros Ha Hb Ta Tb.
  rewrite strftime_compare, timeline_compare;
    auto using four_digit_year.
Qed.

(** X23.  The dates [adjust_utc_to_arg] stores sort as text in chronological
    order from year 1000 on: for two UTC strings that parse and whose
    local time does not fall before 1000-01-01 00:00:00, the normalised
    strings compare under SQLite's text order exactly as the two instants
    do, so [ORDER BY date DESC] lists the most recent match first. *)
Theorem stored_dates_sort_chronologically
        (parse : string -> option datetime) (s1 s2 : string) (d1 d2 : datetime) :
  (forall s dt, parse s = Some dt -> valid dt) ->
  parse (Ingest.replace_Z s1) = Some d1 ->
  parse (Ingest.replace_Z s2) = Some d2 ->
  Spec.FOUR_DIGITS <= timeline d1 - 3 * 3600 ->
  Spec.FOUR_DIGITS <= timeline d2 - 3 * 3600 ->
  Sql.text_ltb (Ingest.adjust_utc_to_arg_with parse s1)
               (Ingest.adjust_utc_to_arg_with parse s2) = true
  <-> timeline d1 < timeline d2.
Proof.
  intros Hvalid E1 E2 H1 H2.
  assert (Hmin : Spec.MIN_TIMELINE <= Spec.FOUR_DIGITS) by (vm_compute; discriminate).
  destruct (sub_hours_spec d1 3 (Hvalid _ _ E1) ltac:(lia)) as [S1 _].
  destruct (sub_hours_spec d2 3 (Hvalid _ _ E2) ltac:(lia)) as [S2 _].
  destruct (S1 ltac:(lia)) as (r1 & R1 & V1 & T1 & _).
  destruct (S2 ltac:(lia)) as (r2 & R2 & V2 & T2 & _).
  unfold Ingest.adjust_utc_to_arg_with, Ingest.adjust_try.
  rewrite E1, E2, R1, R2. unfold Sql.text_ltb.
  rewrite strftime_order by (assumption || lia).
  destruct (Z.compare_spec (timeline r1) (timeline r2)); split; intros; try lia;
    try discriminate; reflexivity.
Qed.

Lemma stored_dates_sort_chronologically_witness :
  Sql.text_ltb (Ingest.adjust_utc_to_arg_str "2025-01-24T20:00:00.000Z")
               (Ingest.adjust_utc_to_arg_str "2025-02-01T01:30:00Z") = true.
Proof.
  destruct (fromisoformat (Ingest.replace_Z "2025-01-24T20:00:00.000Z")) as [d1|] eqn:E1;
    [|vm_compute in E1; discriminate].
  destruct (fromisoformat (Ingest.replace_Z "2025-02-01T01:30:00Z")) as [d2|] eqn:E2;
    [|vm_compute in E2; discriminate].
  apply (stored_dates_sort_chronologically fromisoformat _ _ d1 d2
           fromisoformat_valid E1 E2);
    vm_compute in E1; vm_compute in E2; injection E1 as <-; injection E2 as <-;
    vm_compute; first [reflexivity | discriminate].
Defined.

(** Below year 1000 the text order fails: a kick-off of the year 999 is
    stored with a three-digit year and sorts after one of 2025. *)
Example year_999_sorts_last :
  Ingest.adjust_utc_to_arg_str "0999-06-01T12:00:00Z" = "999-06-01 09:00:00"
  /\ Sql.text_ltb (Ingest.adjust_utc_to_arg_str "2025-01-24T20:00:00.000Z")
                  (Ingest.adjust_utc_to_arg_str "0999-06-01T12:00:00Z") = true.
Proof. split; vm_compute; reflexivity. Qed.

End DateOrder.

(* ===================================================================== *)
(** * The match the line-up of a pending match is taken from *)
(* ===================================================================== *)

Section LastMatchFacts.
Import Schema Ranking Pages.

Lemma tactic_rows_In db tid (m : MatchRow) (p : PlayerRow) :
  In (m, p) (tactic_rows db tid)
  <-> In m (matches db) /\ In p (player_match_details db) /\ p_match_id p = m_id m
      /\ p_team_id p = tid /\ m_finished m = true /\ p_role_x p <> None.
Proof.
  unfold tactic_rows. rewrite filter_In, in_join, !andb_true_iff, !String.eqb_eq.
  simpl. destruct (p_role_x p); split; intros H; intuition (try congruence).
Qed.

Lemma tactic_group_In db tid (r : option string * option string) :
  List.NoDup (map m_id (matches db)) ->
  In r (tactic_groups db tid)
  <-> exists m, Props.has_tactic db tid m /\ r = (Some (m_id m), m_date m).
Proof.
  intros Hnd. unfold tactic_groups. rewrite order_groups_desc_In, in_map_iff.
  set (key := fun mp : MatchRow * PlayerRow => Some (m_id (fst mp))).
  split.
  - intros (g & <- & Hg).
    pose proof (group_by_In key _ g Hg) as [Hsnd Hkey].
    pose proof (group_nonempty key _ g Hg) as Hne.
    destruct (snd g) as [|[m p] rest] eqn:Es; [congruence|].
    assert (Hin : In (m, p) (List.filter (fun r => Sql.opt_text_eqb (key r) (fst g))
                               (tactic_rows db tid))).
    { rewrite <- Hsnd. left. reflexivity. }
    apply filter_In in Hin as [Hin Hk]. apply opt_text_eqb_eq in Hk.
    unfold key in Hk. simpl in Hk.
    apply tactic_rows_In in Hin as (Hm & Hp & Hid & Ht & Hf & Hr).
    exists m. split.
    + split; [exact Hm|]. split; [exact Hf|]. exists p. auto.
    + simpl. rewrite <- Hk. reflexivity.
  - intros (m & (Hm & Hf & p & Hp & Hid & Ht & Hr) & ->).
    assert (Hrow : In (m, p) (tactic_rows db tid)) by (apply tactic_rows_In; repeat split; assumption).
    assert (Hk : In (Some (m_id m)) (map fst (Sql.group_by key (tactic_rows db tid)))).
    { apply group_by_keys. apply in_map_iff. exists (m, p). auto. }
    apply in_map_iff in Hk as (g & Eg & Hg). exists g. split; [|exact Hg].
    rewrite Eg. f_equal.
    pose proof (group_by_In key _ g Hg) as [Hsnd _].
    pose proof (group_nonempty key _ g Hg) as Hne.
    destruct (snd g) as [|[m' p'] rest] eqn:Es; [congruence|].
    assert (Hin : In (m', p') (List.filter (fun r => Sql.opt_text_eqb (key r) (fst g))
                                 (tactic_rows db tid))).
    { rewrite <- Hsnd. left. reflexivity. }
    apply filter_In in Hin as [Hin Hk']. apply opt_text_eqb_eq in Hk'.
    unfold key in Hk'. simpl in Hk'. rewrite Eg in Hk'. injection Hk' as Hk'.
    apply tactic_rows_In in Hin as (Hm' & _).
    simpl. f_equal. eapply nodup_map_inj; eauto.
Qed.

(** X24.  [get_last_finished_match_id] returns a finished match in which the
    team has an appearance with a position on the board, and no other
    such match has a later date; it returns nothing exactly when the team
    has no such match. *)
Theorem last_finished_match_is_the_latest db (team_id : Py.pyval) :
  List.NoDup (map m_id (matches db)) ->
  match get_last_finished_match_id db team_id with
  | Some id =>
      exists m, Props.has_tactic db (Py.str team_id) m /\ m_id m = id
                /\ forall m', Props.has_tactic db (Py.str team_id) m' ->
                              date_lt m m' = false
  | None => forall m, ~ Props.has_tactic db (Py.str team_id) m
  end.
Proof.
  intros Hnd. unfold get_last_finished_match_id.
  set (tid := Py.str team_id).
  set (lt := fun a b : option string * option string =>
               Sql.opt_text_ltb (snd a) (snd b)).
  assert (Hasym : forall x y, lt x y = true -> lt y x = false).
  { intros x y. apply opt_text_ltb_asym. }
  assert (Htrans : forall x y z, lt x y = false -> lt y z = false -> lt x z = false).
  { intros x y z. apply opt_text_nlt_trans. }
  set (groups := map (fun g : option string * list (MatchRow * PlayerRow) =>
                        (fst g, match snd g with
                                | mp :: _ => m_date (fst mp)
                                | [] => None
                                end))
                     (Sql.group_by (fun mp => Some (m_id (fst mp)))
                        (tactic_rows db tid))).
  assert (Eg : tactic_groups db tid = Sql.order_groups_desc lt groups) by reflexivity.
  destruct (limit_order_groups_desc lt Hasym Htrans 1 groups) as (rest & P & Hlen & Hmax).
  rewrite Eg.
  destruct (Sql.limit 1 (Sql.order_groups_desc lt groups)) as [|res l] eqn:El.
  - intros m Hm.
    assert (Hin : In (Some (m_id m), m_date m) (tactic_groups db tid)).
    { apply tactic_group_In; [exact Hnd|]. eauto. }
    assert (Hall : tactic_groups db tid = []).
    { rewrite Eg. unfold Sql.limit in El. simpl in El.
      destruct (Sql.order_groups_desc lt groups); [reflexivity | discriminate]. }
    rewrite Hall in Hin. exact Hin.
  - assert (l = []).
    { specialize (Hlen ltac:(lia)). simpl in Hlen. destruct l; [reflexivity|].
      simpl in Hlen. lia. }
    subst l.
    assert (Hres : In res (tactic_groups db tid)).
    { rewrite Eg. apply order_groups_desc_In. eapply Permutation_in; [exact P|].
      left. reflexivity. }
    apply (tactic_group_In db tid res Hnd) in Hres as (m & Hm & ->).
    simpl. exists m. split; [exact Hm|]. split; [reflexivity|].
    intros m' Hm'.
    assert (Hin' : In (Some (m_id m'), m_date m') (tactic_groups db tid)).
    { apply tactic_group_In; [exact Hnd|]. eauto. }
    rewrite Eg in Hin'. apply order_groups_desc_In in Hin'.
    apply (Permutation_in _ (Permutation_sym P)) in Hin'.
    destruct Hin' as [E | Hin'].
    + injection E as _ Ed. unfold date_lt. rewrite Ed.
      destruct (Sql.opt_text_ltb (m_date m') (m_date m')) eqn:Ec; [|reflexivity].
      pose proof (opt_text_ltb_asym _ _ Ec). congruence.
    + exact (Hmax (Some (m_id m), m_date m) (Some (m_id m'), m_date m')
               (or_introl eq_refl) Hin').
Qed.

Lemma last_finished_match_is_the_latest_witness :
  exists m, Props.has_tactic Sample.db_tactics "A" m /\ m_id m = "2".
Proof.
  pose proof (last_finished_match_is_the_latest Sample.db_tactics (Py.PStr "A")) as H.
  assert (E : get_last_finished_match_id Sample.db_tactics (Py.PStr "A") = Some "2")
    by (vm_compute; reflexivity).
  rewrite E in H. destruct H as (m & Hm & Hid & _).
  - simpl. repeat constructor; simpl; intuition discriminate.
  - exists m. auto.
Defined.

End LastMatchFacts.

(* ===================================================================== *)
(** * The statistics of an appearance *)
(* ===================================================================== *)

Section StatsFacts.
Import Schema Ingest.

Lemma last_snoc_filter {A} (p : A -> bool) (l : list A) (x : A) :
  last (List.filter p (l ++ [x]))
  = if p x then Some x else last (List.filter p l).
Proof.
  rewrite List.filter_app. simpl. destruct (p x).
  - apply last_snoc.
  - rewrite app_nil_r. reflexivity.
Qed.

Lemma fold_stats_lookup (items : list StatItem) (acc : gmap string Z) (k : string) :
  k <> "" ->
  fold_left (fun acc item =>
               if Py.truthy_str (stat_key item)
               then <[default "" (stat_key item) := default 0 (stat_value item)]> acc
               else acc) items acc !! k
  = match last (List.filter (fun item => Sql.opt_text_eqb (stat_key item) (Some k))
                            items) with
    | Some item => Some (default 0 (stat_value item))
    | None => acc !! k
    end.
Proof.
  intros Hk. revert acc. induction items as [|it items IH] using rev_ind; intros acc.
  - reflexivity.
  - rewrite fold_left_app, last_snoc_filter. simpl.
    destruct (stat_key it) as [key|] eqn:Ek; simpl.
    + destruct (String.eqb key "") eqn:Ee; simpl.
      * apply String.eqb_eq in Ee. subst key.
        destruct (String.eqb "" k) eqn:E0; [|apply IH].
        apply String.eqb_eq in E0. congruence.
      * destruct (String.eqb key k) eqn:E1.
        -- apply String.eqb_eq in E1. subst key. apply lookup_insert_eq.
        -- apply String.eqb_neq in E1. rewrite lookup_insert_ne by exact E1. apply IH.
    + apply IH.
Qed.

Lemma all_stats_lookup (groups : list (list StatItem)) (k : string) :
  k <> "" -> all_stats groups !! k = Props.last_stat groups k.
Proof.
  intros Hk. unfold all_stats, Props.last_stat. rewrite fold_stats_lookup by exact Hk.
  destruct (last _); reflexivity.
Qed.

(** X25.  The three statistics of a stored appearance come from the last stat
    item carrying the key, over all the stat groups of the player in
    order: minutes from [minutes_played], defaulting to 90 for a starter
    and 0 for a substitute, fouls committed from [fouls] and fouls
    received from [was_fouled], both defaulting to 0. *)
Theorem appearance_stats_take_the_last_item match_id team is_starter stats
        (p : RawPlayer) :
  let groups := default [] (stats !! Py.str (pl_id p)) in
  let row := player_row match_id team is_starter stats p in
  p_minutes_played row
  = default (if is_starter then 90 else 0) (Props.last_stat groups "minutes_played")
  /\ p_fouls_committed row = default 0 (Props.last_stat groups "fouls")
  /\ p_fouls_received row = default 0 (Props.last_stat groups "was_fouled").
Proof.
  cbv zeta. unfold player_row. simpl.
  rewrite !all_stats_lookup by discriminate. auto.
Qed.

End StatsFacts.

(* ===================================================================== *)
(** * A window that covers every match *)
(* ===================================================================== *)

Section WideWindow.
Import Schema Ranking.

(** Without window the total of an entry is the team's volume. *)
Lemma unlimited_total_volume db category filter_type order_by made against e :
  Spec.known_category category ->
  stats_unlimited db category filter_type order_by = Some (made, against) ->
  In e made -> e_total e = Props.volume db category filter_type (e_id e).
Proof.
  intros Hk. unfold stats_unlimited, made_q, against_q, Props.volume.
  destruct Hk as [-> | [-> | [-> | ->]]]; simpl; intros H; injection H as <- _;
    intros He.
  - apply count_groups_total in He. rewrite He, filter_and. reflexivity.
  - apply count_groups_total in He. rewrite He, filter_and. reflexivity.
  - apply count_groups_total in He. exact He.
  - apply sum_groups_total in He. exact He.
Qed.

(** A team with positive volume is listed. *)
Lemma unlimited_lists_volume db category filter_type order_by made against tid :
  Spec.known_category category ->
  stats_unlimited db category filter_type order_by = Some (made, against) ->
  ~ In tid (map e_id made) -> Props.volume db category filter_type tid = 0.
Proof.
  intros Hk H Hn.
  assert (G : forall {A} (key : A -> string) (rows : list A) (data : list StatRow),
             map Props.row_key data
             = map fst (Sql.group_by (fun r => Some (key r)) rows) ->
             ~ In tid (map e_id (structure (teams_map db)
                                   (order_stats (sort_metric order_by) data))) ->
             List.filter (fun r => String.eqb (key r) tid) rows = []).
  { intros A key rows data Ekeys Hno. apply filter_none. intros r Hr.
    apply String.eqb_neq. intros E. apply Hno. rewrite structure_ids.
    apply in_map_iff. exists (Some tid). split; [reflexivity|].
    eapply Permutation_in.
    - apply Permutation_map. symmetry. apply order_groups_desc_perm.
    - rewrite Ekeys. apply group_by_keys. apply in_map_iff. exists r.
      split; [congruence | exact Hr]. }
  revert H Hn. unfold stats_unlimited, made_q, against_q, Props.volume.
  destruct Hk as [-> | [-> | [-> | ->]]]; simpl; intros H; injection H as <- _;
    intros Hno.
  - rewrite filter_and, (G _ s_team_id _ _ (count_groups_keys _ _ _) Hno). reflexivity.
  - rewrite filter_and, (G _ s_team_id _ _ (count_groups_keys _ _ _) Hno). reflexivity.
  - rewrite (G _ c_team_id _ _ (count_groups_keys _ _ _) Hno). reflexivity.
  - rewrite (G _ p_team_id _ _ (sum_groups_keys _ _ _ _) Hno). reflexivity.
Qed.

(** A window at least as long as the list of finished matches holds
    every finished match of the team. *)
Lemma wide_window_covers db tid n (m : MatchRow) :
  Z.of_nat (length (finished_matches db)) <= n ->
  In m (matches db) -> m_finished m = true -> plays tid m = true ->
  Sql.text_in (m_id m) (last_matches db tid n) = true.
Proof.
  intros Hn Hm Hf Hp. unfold Sql.text_in. apply existsb_exists.
  exists (m_id m). split; [|apply String.eqb_refl].
  unfold last_matches. apply in_map.
  assert (Hlen : (length (List.filter (fun m => plays tid m && m_finished m)
                            (matches db))
                  <= length (finished_matches db))%nat).
  { unfold finished_matches. rewrite filter_and.
    apply List.filter_length_le. }
  unfold Sql.limit. destruct (n <? 0); [|rewrite firstn_all2].
  - apply sort_desc_In. apply filter_In. rewrite Hp, Hf. auto.
  - apply sort_desc_In. apply filter_In. rewrite Hp, Hf. auto.
  - rewrite sort_desc_length. lia.
Qed.

Lemma wide_window_total_made db category filter_type tid n :
  Spec.known_category category ->
  Props.rows_in_finished_matches db ->
  Z.of_nat (length (finished_matches db)) <= n ->
  spliced (last_matches db tid n) = true ->
  total_made db category filter_type tid (last_matches db tid n)
  = Some (Props.volume db category filter_type tid).
Proof.
  intros Hk (Hp & Hs & Hc) Hn Hsp.
  assert (W : forall team mid, Props.played_finished db team mid ->
                               String.eqb team tid = true ->
                               Sql.text_in mid (last_matches db tid n) = true).
  { intros team mid (m & Hm & <- & Hf & Hpl) E. apply String.eqb_eq in E. subst team.
    apply wide_window_covers; assumption. }
  unfold total_made, Props.volume. rewrite Hsp. cbn [negb].
  destruct Hk as [-> | [-> | [-> | ->]]]; simpl; do 2 f_equal.
  - apply filter_ext_in. intros s Hin.
    destruct (String.eqb (s_team_id s) tid) eqn:E; [|reflexivity].
    rewrite (W _ _ (Hs s Hin) E). reflexivity.
  - apply filter_ext_in. intros s Hin.
    destruct (String.eqb (s_team_id s) tid) eqn:E; [|reflexivity].
    rewrite (W _ _ (Hs s Hin) E), andb_true_r. reflexivity.
  - apply filter_ext_in. intros c Hin.
    destruct (String.eqb (c_team_id c) tid) eqn:E; [|reflexivity].
    rewrite (W _ _ (Hc c Hin) E). reflexivity.
  - f_equal. apply filter_ext_in. intros p Hin.
    destruct (String.eqb (p_team_id p) tid) eqn:E; [|reflexivity].
    rewrite (W _ _ (Hp p Hin) E). reflexivity.
Qed.

Lemma total_made_empty db category filter_type tid t :
  total_made db category filter_type tid [] = Some t -> t = 0.
Proof.
  unfold total_made, spliced. cbn [forallb negb].
  repeat match goal with
         | |- context [if String.eqb category ?c then _ else _] =>
             destruct (String.eqb category c)
         end; try discriminate; intros H; injection H as <-;
    unfold Sql.count, Sql.text_in;
    match goal with
    | |- context [List.filter ?f ?l] =>
        rewrite (filter_none f l)
          by (intros x _; simpl; rewrite ?andb_false_r; reflexivity)
    end; reflexivity.
Qed.

Lemma wide_window_entry db category filter_type tid n tm em ea :
  Spec.known_category category ->
  Props.rows_in_finished_matches db ->
  Z.of_nat (length (finished_matches db)) <= n ->
  Spec.plain_ids db ->
  team_window db category filter_type n tm tid = Some (em, ea) ->
  e_total em = Props.volume db category filter_type tid.
Proof.
  intros Hk Hrows Hn Hpl. unfold team_window. cbv zeta.
  pose proof (wide_window_total_made db category filter_type tid n Hk Hrows Hn
                (plain_window db tid n Hpl)) as T.
  destruct (Z.of_nat (length (last_matches db tid n)) =? 0) eqn:E.
  - intros H. injection H as <- _. simpl.
    apply Z.eqb_eq in E. assert (El : last_matches db tid n = []).
    { destruct (last_matches db tid n); [reflexivity | simpl in E; lia]. }
    rewrite El in T. symmetry. exact (total_made_empty _ _ _ _ _ T).
  - rewrite T.
    destruct (total_against _ _ _ _ _); [|discriminate].
    destruct (window_avg _ _); [|discriminate].
    destruct (window_avg _ _); [|discriminate].
    intros H. injection H as <- _. reflexivity.
Qed.

(** X26.  A window that covers every finished match gives the totals of the
    list without window: when every appearance, shot and card belongs to
    a finished match its team played, the match ids are plain, and the
    limit is at least the number of finished matches, a team has the same
    [made] total in both lists, and a team missing from the list without
    window has total 0 in the windowed one. *)
Theorem wide_window_totals_equal_unlimited db category filter_type order_by n
        wm wa um ua :
  Spec.known_category category ->
  Props.rows_in_finished_matches db ->
  Spec.plain_ids db ->
  0 < n -> Z.of_nat (length (finished_matches db)) <= n ->
  get_team_stats_core db category filter_type order_by (Some n) = Some (wm, wa) ->
  get_team_stats_core db category filter_type order_by None = Some (um, ua) ->
  forall ew, In ew wm ->
    (forall eu, In eu um -> e_id eu = e_id ew -> e_total eu = e_total ew)
    /\ (~ In (e_id ew) (map e_id um) -> e_total ew = 0).
Proof.
  intros Hk Hrows Hpl Hpos Hn Hw Hu ew Hew.
  rewrite get_team_stats_core_windowed in Hw by lia.
  destruct (stats_windowed_known db category filter_type order_by n Hk Hpl)
    as (made & against & E & _ & Hmade & _).
  rewrite E in Hw. injection Hw as <- <-.
  destruct (Hmade ew Hew) as (ea & _ & Htw).
  pose proof (wide_window_entry _ _ _ _ _ _ _ _ Hk Hrows Hn Hpl Htw) as Vw.
  split.
  - intros eu Heu Eid.
    rewrite (unlimited_total_volume _ _ _ _ _ _ _ Hk Hu Heu), Eid. symmetry. exact Vw.
  - intros Hno. rewrite Vw.
    exact (unlimited_lists_volume _ _ _ _ _ _ _ Hk Hu Hno).
Qed.

Lemma sample_rows_in_finished_matches : Props.rows_in_finished_matches Sample.db.
Proof.
  split; [|split]; intros x Hx; simpl in Hx;
    repeat (destruct Hx as [<- | Hx];
            [first [ exists (Sample.a_match "1" "2025-01-01 17:00:00" true "A" "B");
                     simpl; repeat split; auto; fail
                   | exists (Sample.a_match "2" "2025-01-08 17:00:00" true "C" "A");
                     simpl; repeat split; auto; fail ]|]);
    contradiction.
Defined.

Lemma wide_window_totals_equal_unlimited_witness :
  exists wm wa um ua,
    get_team_stats_core Sample.db "shots" "all" "total" (Some 5) = Some (wm, wa)
    /\ get_team_stats_core Sample.db "shots" "all" "total" None = Some (um, ua)
    /\ forall ew eu, In ew wm -> In eu um -> e_id eu = e_id ew ->
                     e_total eu = e_total ew.
Proof.
  destruct (get_team_stats_core Sample.db "shots" "all" "total" (Some 5))
    as [[wm wa]|] eqn:Ew; [|vm_compute in Ew; discriminate].
  destruct (get_team_stats_core Sample.db "shots" "all" "total" None)
    as [[um ua]|] eqn:Eu; [|vm_compute in Eu; discriminate].
  exists wm, wa, um, ua. split; [reflexivity|]. split; [reflexivity|].
  intros ew eu Hew Heu.
  apply (wide_window_totals_equal_unlimited Sample.db "shots" "all" "total" 5
           wm wa um ua); auto.
  - left. reflexivity.
  - exact sample_rows_in_finished_matches.
  - exact sample_plain.
  - lia.
  - simpl. lia.
Defined.

End WideWindow.

(* ===================================================================== *)
(** * Further examples *)
(* ===================================================================== *)

Section MoreExamples.
Import Schema Ranking Ingest.

Lemma referee_without_finished_match_witness :
  fst (get_referee_rankings Sample.db) !! "Nobody" = None
  /\ snd (get_referee_rankings Sample.db) !! "Nobody" = None.
Proof.
  apply (referee_without_finished_match Sample.db "Nobody").
  intros m Hm _. simpl in Hm.
  destruct Hm as [<- | [<- | [<- | []]]]; discriminate.
Defined.

Lemma reingest_without_lineup_witness :
  length (shots (load_match_directly "7" (Some (Sample.a_payload true []))
                   (load_match_directly "7" (Some (Sample.a_payload true []))
                      empty_db))) = 2%nat.
Proof.
  destruct (reingest_without_lineup empty_db "7" (Sample.a_payload true []))
    as [Hs _]; [reflexivity | reflexivity |].
  rewrite Hs. reflexivity.
Defined.

End MoreExamples.
